(** * HWM: the MNIST experiment manager

    A shallow embedding of the experiment store ([lib/db.ts]), of the HTTP
    handlers over it ([app/api/experiments/route.ts] and the two routes under
    [app/api/experiments/[id]]), of the create form's schema
    ([components/experiment-form.tsx]), of the client ([lib/api]) and of
    the handlers of the list and detail views ([components/experiment-list.tsx],
    [components/experiment-detail.tsx]).

    Conventions of the embedding.
    - The two SQLite tables are lists of rows in insertion order.  A
      [db.get] returns the first row that matches, a [db.all] every row.
    - Columns declared [INTEGER] hold [Z]; columns declared [REAL] hold
      binary64 floats ([PrimFloat.float]), which is what a JavaScript number
      is.  A nullable column is an [option].
    - A request body is a record of optional fields: [None] stands for a key
      that is absent, [null] or [undefined].
    - Every [await] of [runExperiment] is a scheduling point.  The runner is
      therefore a small machine whose states are the awaited operations; the
      clock, the random draws and storage outages come from the environment
      as the [Input] of each step.
    - The await of a handler is a scheduling point as well.  The system
      is given twice: [Overlap.transition] lets handlers and runners take
      their steps in any order, and [transition] is the special case in
      which requests are served one at a time, each handler running from
      arrival to answer as one step.  Statements that need the second say
      so. *)

From Stdlib Require Import ZArith List String Bool Lia.
From Stdlib Require Import Floats.PrimFloat Numbers.Cyclic.Int63.Uint63.
From Stdlib Require Floats.FloatAxioms Floats.FloatOps.
From Stdlib Require Import Floats.SpecFloat.
From Stdlib Require Import Sorting.Permutation Sorting.Sorted.
Import ListNotations.

Set Warnings "-inexact-float".
Local Open Scope Z_scope.

(** ** JavaScript values *)

Module JS.

(** [!x] for a string-valued field: absent and the empty string are falsy. *)
Definition truthy_string (x : option string) : bool :=
  match x with
  | None => false
  | Some EmptyString => false
  | Some (String _ _) => true
  end.

(** [!x] for an integer-valued number: absent and [0] are falsy. *)
Definition truthy_int (x : option Z) : bool :=
  match x with
  | None => false
  | Some n => negb (n =? 0)
  end.

(** [!x] for a number: absent, [0], [-0] and [NaN] are falsy. *)
Definition truthy_number (x : option float) : bool :=
  match x with
  | None => false
  | Some f => negb (PrimFloat.is_zero f || PrimFloat.is_nan f)
  end.

(** The number whose value is the integer [z] (exact below [2^53]). *)
Definition Number (z : Z) : float :=
  if z <? 0 then PrimFloat.opp (PrimFloat.of_uint63 (Uint63.of_Z (- z)))
  else PrimFloat.of_uint63 (Uint63.of_Z z).

End JS.

(** ** Data model ([types/experiment.ts] and the schema in [getDb]) *)

(** The values the [status] column takes; [not_started] is its default. *)
Inductive Status : Set :=
| not_started
| queued
| running
| completed
| failed.

Definition Status_eqb (a b : Status) : bool :=
  match a, b with
  | not_started, not_started | queued, queued | running, running
  | completed, completed | failed, failed => true
  | _, _ => false
  end.

(** A row of table [experiments]. *)
Module Experiment.

Record t : Set := mk {
  id : Z;
  name : string;
  learning_rate : float;
  batch_size : Z;
  epochs : Z;
  optimizer : string;
  model_type : string;
  hidden_layers : Z;
  neurons_per_layer : Z;
  status : Status;
  created_at : Z;
  accuracy : option float;
  loss : option float;
  duration : option float;
  current_epoch : Z
}.

(** [SET status = ?] *)
Definition set_status (st : Status) (r : t) : t :=
  mk (id r) (name r) (learning_rate r) (batch_size r) (epochs r)
     (optimizer r) (model_type r) (hidden_layers r) (neurons_per_layer r)
     st (created_at r) (accuracy r) (loss r) (duration r) (current_epoch r).

(** [SET current_epoch = ?] *)
Definition set_current_epoch (e : Z) (r : t) : t :=
  mk (id r) (name r) (learning_rate r) (batch_size r) (epochs r)
     (optimizer r) (model_type r) (hidden_layers r) (neurons_per_layer r)
     (status r) (created_at r) (accuracy r) (loss r) (duration r) e.

(** [SET status = ?, current_epoch = 0] *)
Definition set_queued (r : t) : t :=
  set_current_epoch 0 (set_status queued r).

(** [SET status = ?, accuracy = ?, loss = ?, duration = ?] *)
Definition set_results (st : Status) (acc los dur : float) (r : t) : t :=
  mk (id r) (name r) (learning_rate r) (batch_size r) (epochs r)
     (optimizer r) (model_type r) (hidden_layers r) (neurons_per_layer r)
     st (created_at r) (Some acc) (Some los) (Some dur) (current_epoch r).

End Experiment.

(** A row of table [experiment_history]. *)
Module History.

Record t : Set := mk {
  id : Z;
  experiment_id : Z;
  epoch : Z;
  train_loss : float;
  val_loss : float;
  train_acc : float;
  val_acc : float
}.

End History.

(** Interface [ExperimentHistory]: the columns the detail query selects. *)
Record ExperimentHistory : Set := mkExperimentHistory {
  h_epoch : Z;
  h_train_loss : float;
  h_val_loss : float;
  h_train_acc : float;
  h_val_acc : float
}.

(** Interface [ExperimentDetails]: [{ ...experiment, history }]. *)
Record ExperimentDetails : Set := mkExperimentDetails {
  row : Experiment.t;
  history : list ExperimentHistory
}.

(** The JSON body of a create request ([data: any] in the source). *)
Record ExperimentData : Set := mkExperimentData {
  d_name : option string;
  d_learning_rate : option float;
  d_batch_size : option Z;
  d_epochs : option Z;
  d_optimizer : option string;
  d_model_type : option string;
  d_hidden_layers : option Z;
  d_neurons_per_layer : option Z
}.

(** The database: both tables and, per table, the largest rowid ever handed
    out ([AUTOINCREMENT] keeps it in [sqlite_sequence]). *)
Record Store : Set := mkStore {
  experiments : list Experiment.t;
  experiment_history : list History.t;
  seq_experiments : Z;
  seq_history : Z
}.

(** What [getDb] opens the first time: the two tables, empty. *)
Definition empty_store : Store := mkStore [] [] 0 0.

(** ** SQL building blocks *)

Module Sql.

(** [col = ?] against a bound parameter; a [NULL] parameter matches nothing. *)
Definition eq_int (col : Z) (p : option Z) : bool :=
  match p with Some v => col =? v | None => false end.

Definition eq_real (col : float) (p : option float) : bool :=
  match p with Some v => PrimFloat.eqb col v | None => false end.

Definition eq_text (col : string) (p : option string) : bool :=
  match p with Some v => String.eqb col v | None => false end.

(** The largest rowid present in a table. *)
Definition max_rowid {A} (rowid : A -> Z) (rows : list A) : Z :=
  fold_right (fun r m => Z.max (rowid r) m) 0 rows.

(** The rowid an [AUTOINCREMENT] key gives the next inserted row: one more
    than the largest rowid that ever existed in the table. *)
Definition next_rowid {A} (rowid : A -> Z) (rows : list A) (sequence : Z) : Z :=
  Z.max sequence (max_rowid rowid rows) + 1.

(** [SELECT * FROM experiments WHERE id = ?] through [db.get]. *)
Definition select_experiment (id : Z) (s : Store) : option Experiment.t :=
  find (fun r => Experiment.id r =? id) (experiments s).

(** [SELECT ... FROM experiment_history WHERE experiment_id = ?]. *)
Definition select_history (id : Z) (s : Store) : list History.t :=
  filter (fun h => History.experiment_id h =? id) (experiment_history s).

(** [UPDATE experiments SET ... WHERE id = ?]. *)
Definition update_experiment (id : Z) (f : Experiment.t -> Experiment.t)
    (s : Store) : Store :=
  mkStore
    (map (fun r => if Experiment.id r =? id then f r else r) (experiments s))
    (experiment_history s) (seq_experiments s) (seq_history s).

(** [DELETE FROM experiment_history WHERE experiment_id = ?]. *)
Definition delete_history (id : Z) (s : Store) : Store :=
  mkStore (experiments s)
    (filter (fun h => negb (History.experiment_id h =? id)) (experiment_history s))
    (seq_experiments s) (seq_history s).

(** [DELETE FROM experiments WHERE id = ?]. *)
Definition delete_experiment (id : Z) (s : Store) : Store :=
  mkStore
    (filter (fun r => negb (Experiment.id r =? id)) (experiments s))
    (experiment_history s) (seq_experiments s) (seq_history s).

(** [INSERT INTO experiment_history (experiment_id, epoch, ...)]. *)
Definition insert_history (id epoch : Z) (tl vl ta va : float) (s : Store) : Store :=
  let rowid := next_rowid History.id (experiment_history s) (seq_history s) in
  mkStore (experiments s)
    (experiment_history s ++ [History.mk rowid id epoch tl vl ta va])
    (seq_experiments s) rowid.

(** [ORDER BY epoch]: rows with equal epochs keep their insertion order. *)
Fixpoint insert_by_epoch (h : ExperimentHistory) (l : list ExperimentHistory)
    : list ExperimentHistory :=
  match l with
  | [] => [h]
  | x :: l' => if h_epoch h <=? h_epoch x then h :: l else x :: insert_by_epoch h l'
  end.

Definition order_by_epoch (l : list ExperimentHistory) : list ExperimentHistory :=
  fold_right insert_by_epoch [] l.

(** [ORDER BY epoch DESC LIMIT 1]: the row of largest epoch, if any. *)
Definition later (a b : History.t) : History.t :=
  if History.epoch a <=? History.epoch b then b else a.

Definition last_by_epoch (l : list History.t) : option History.t :=
  match l with
  | [] => None
  | h :: l' => Some (fold_left later l' h)
  end.

End Sql.

(** ** Effects *)

(** A call either returns or throws (a rejected promise). *)
Inductive Outcome (A : Type) : Type :=
| Returned (a : A)
| Thrown (error : string).
Arguments Returned {A} a.
Arguments Thrown {A} error.

(** The four values [simulateMetrics] computes for one epoch. *)
Record Metrics : Set := mkMetrics {
  trainLoss : float;
  valLoss : float;
  trainAcc : float;
  valAcc : float
}.

(** A scheduled timer or a suspended call of [runExperiment]: the awaited
    operation it performs next, with the local variables that are live. *)
Inductive Task : Set :=
| Timer (id : Z)
    (* [setTimeout(() => this.runExperiment(id), 1000)] is pending; when it
       fires the runner reads the experiment (l.184-185) *)
| AtSetRunning (id : Z) (experiment : ExperimentDetails)
    (* next: [UPDATE experiments SET status = 'running'] (l.188) *)
| AtLoop (id : Z) (experiment : ExperimentDetails) (startTime : Z) (epoch : Z)
    (* next: the test [epoch <= experiment.epochs] (l.195), then either the
       update of [current_epoch] (l.197) or the query of the last epoch
       (l.220-232) *)
| AtSleep (id : Z) (experiment : ExperimentDetails) (startTime : Z) (epoch : Z)
    (* next: the one-second timer of the epoch (l.200) *)
| AtSimulate (id : Z) (experiment : ExperimentDetails) (startTime : Z) (epoch : Z)
    (* next: the four metrics (l.203-206) and the insertion of the history
       row (l.209-216) *)
| AtComplete (id : Z) (duration : float) (lastEpoch : History.t)
    (* next: the update that stores the results (l.235-242) *)
| AtFailed (id : Z)
    (* in the [catch] block; next: [UPDATE ... SET status = 'failed'] (l.247) *)
| Finished.

(** What a step of the runner takes from its environment: the reading of
    [Date.now()], the values of the calls of [Math.random()] in the order
    they are made, and whether the storage operation of the step throws. *)
Record Input : Set := mkInput {
  now : Z;
  random1 : float;
  random2 : float;
  random3 : float;
  random4 : float;
  faulty : bool
}.

(** What a step of the runner does, as a label. *)
Inductive Event : Set :=
| SetStatus (id : Z) (st : Status)
| SetCurrentEpoch (id : Z) (epoch : Z)
| Sleep (ms : Z)
| Simulate (epoch : Z)
| AppendHistory (id : Z) (epoch : Z)
| StoreResults (id : Z).

(** ** The store ([export const db] of [lib/db.ts]) *)

Module db.

Definition to_history (h : History.t) : ExperimentHistory :=
  mkExperimentHistory (History.epoch h) (History.train_loss h)
    (History.val_loss h) (History.train_acc h) (History.val_acc h).

(** [getExperimentDetails(id)] (l.78-106) *)
Definition getExperimentDetails (id : Z) (s : Store) : option ExperimentDetails :=
  match Sql.select_experiment id s with
  | None => None
  | Some experiment =>
      let history :=
        Sql.order_by_epoch (map to_history (Sql.select_history id s)) in
      Some (mkExperimentDetails experiment history)
  end.

(** [createExperiment(data)] (l.108-131).  Every inserted column is
    [NOT NULL], so a missing value makes the statement throw; the other
    columns take their defaults.  [now] is [CURRENT_TIMESTAMP]. *)
Definition createExperiment (now : Z) (data : ExperimentData) (s : Store)
    : Outcome (option ExperimentDetails * Store) :=
  match d_name data, d_learning_rate data, d_batch_size data, d_epochs data,
        d_optimizer data, d_model_type data, d_hidden_layers data,
        d_neurons_per_layer data with
  | Some name, Some learning_rate, Some batch_size, Some epochs,
    Some optimizer, Some model_type, Some hidden_layers,
    Some neurons_per_layer =>
      let lastID :=
        Sql.next_rowid Experiment.id (experiments s) (seq_experiments s) in
      let row :=
        Experiment.mk lastID name learning_rate batch_size epochs optimizer
          model_type hidden_layers neurons_per_layer
          not_started now None None None 0 in
      let s' :=
        mkStore (experiments s ++ [row]) (experiment_history s)
          lastID (seq_history s) in
      Returned (getExperimentDetails lastID s', s')
  | _, _, _, _, _, _, _, _ => Thrown "SQLITE_CONSTRAINT: NOT NULL constraint failed"
  end.

(** [deleteExperiment(id)] (l.133-138) *)
Definition deleteExperiment (id : Z) (s : Store) : Store :=
  Sql.delete_experiment id (Sql.delete_history id s).

(** The [WHERE] clause of [findSimilarExperiment]. *)
Definition similar (data : ExperimentData) (r : Experiment.t) : bool :=
  Sql.eq_real (Experiment.learning_rate r) (d_learning_rate data)
  && Sql.eq_int (Experiment.batch_size r) (d_batch_size data)
  && Sql.eq_int (Experiment.epochs r) (d_epochs data)
  && Sql.eq_text (Experiment.optimizer r) (d_optimizer data)
  && Sql.eq_text (Experiment.model_type r) (d_model_type data)
  && Sql.eq_int (Experiment.hidden_layers r) (d_hidden_layers data)
  && Sql.eq_int (Experiment.neurons_per_layer r) (d_neurons_per_layer data).

(** [findSimilarExperiment(data)] (l.140-164): the query selects [id] only. *)
Definition findSimilarExperiment (data : ExperimentData) (s : Store) : option Z :=
  option_map Experiment.id (find (similar data) (experiments s)).

(** [queueExperiment(id)] (l.166-178): the new store and the timer that
    will call [runExperiment(id)]. *)
Definition queueExperiment (id : Z) (s : Store) : Store * Task :=
  let s1 := Sql.update_experiment id Experiment.set_queued s in
  let s2 := Sql.delete_history id s1 in
  (s2, Timer id).

Section Runner.

(** [Math.exp] of the JavaScript runtime. *)
Variable Math_exp : float -> float.

(** The metrics of one epoch (l.203-206); [i] supplies the values of
    the four calls of [Math.random()]. *)
Definition simulateMetrics (epoch : Z) (i : Input) : Metrics :=
  let e := JS.Number epoch in
  mkMetrics
    (0.5 * Math_exp (-0.1 * e) + 0.1 * random1 i)%float
    (0.6 * Math_exp (-0.1 * e) + 0.15 * random2 i)%float
    (0.9 - 0.5 * Math_exp (-0.2 * e) + 0.05 * random3 i)%float
    (0.85 - 0.5 * Math_exp (-0.2 * e) + 0.05 * random4 i)%float.

(** One step of [runExperiment(id)] (l.180-249): the code between two
    awaits, ending with the operation that is awaited.  It returns the
    new store, the rest of the call, and what was done, each event with
    the store it leaves. *)
Definition step (i : Input) (t : Task) (s : Store)
    : Store * Task * list (Event * Store) :=
  match t with
  | Timer id =>
      if faulty i then (s, Finished, [])
      else
        match getExperimentDetails id s with
        | None => (s, Finished, [])
        | Some experiment => (s, AtSetRunning id experiment, [])
        end
  | AtSetRunning id experiment =>
      if faulty i then (s, Finished, [])
      else
        let s' := Sql.update_experiment id (Experiment.set_status running) s in
        let startTime := now i in
        (s', AtLoop id experiment startTime 1, [(SetStatus id running, s')])
  | AtLoop id experiment startTime epoch =>
      if epoch <=? Experiment.epochs (row experiment) then
        if faulty i then (s, AtFailed id, [])
        else
          let s' :=
            Sql.update_experiment id (Experiment.set_current_epoch epoch) s in
          (s', AtSleep id experiment startTime epoch,
           [(SetCurrentEpoch id epoch, s')])
      else
        let duration := (JS.Number (now i - startTime) / 1000)%float in
        if faulty i then (s, AtFailed id, [])
        else
          match Sql.last_by_epoch (Sql.select_history id s) with
          | None => (s, AtFailed id, [])
          | Some lastEpoch => (s, AtComplete id duration lastEpoch, [])
          end
  | AtSleep id experiment startTime epoch =>
      (s, AtSimulate id experiment startTime epoch, [(Sleep 1000, s)])
  | AtSimulate id experiment startTime epoch =>
      let m := simulateMetrics epoch i in
      if faulty i then (s, AtFailed id, [(Simulate epoch, s)])
      else
        let s' :=
          Sql.insert_history id epoch
            (trainLoss m) (valLoss m) (trainAcc m) (valAcc m) s in
        (s', AtLoop id experiment startTime (epoch + 1),
         [(Simulate epoch, s); (AppendHistory id epoch, s')])
  | AtComplete id duration lastEpoch =>
      if faulty i then (s, AtFailed id, [])
      else
        let s' :=
          Sql.update_experiment id
            (Experiment.set_results completed (History.val_acc lastEpoch)
               (History.val_loss lastEpoch) duration) s in
        (s', Finished, [(StoreResults id, s')])
  | AtFailed id =>
      if faulty i then (s, Finished, [])
      else
        let s' := Sql.update_experiment id (Experiment.set_status failed) s in
        (s', Finished, [(SetStatus id failed, s')])
  | Finished => (s, Finished, [])
  end.

(** The steps of a task run back to back, one input each, until the
    task has finished or the inputs are used up. *)
Fixpoint exec (inputs : list Input) (t : Task) (s : Store)
    : Store * Task * list (Event * Store) :=
  match t, inputs with
  | Finished, _ => (s, Finished, [])
  | _, [] => (s, t, [])
  | _, i :: inputs' =>
      let '(s1, t1, trace1) := step i t s in
      let '(s2, t2, trace2) := exec inputs' t1 s1 in
      (s2, t2, trace1 ++ trace2)
  end.

(** [runExperiment(id)] with nothing else touching the store meanwhile:
    what the timer set by [queueExperiment] starts. *)
Definition runExperiment (inputs : list Input) (id : Z) (s : Store)
    : Store * Task * list (Event * Store) :=
  exec inputs (Timer id) s.

End Runner.

End db.

(** ** The HTTP handlers *)

(** The JSON bodies the handlers answer with. *)
Inductive Body : Set :=
| JsonError (error : string)
| JsonConflict (error : string) (existingId : Z)
| JsonExperiment (experiment : ExperimentDetails)
| JsonSuccess.

(** [NextResponse.json(body, { status })]; the status defaults to 200. *)
Record Response : Set := mkResponse {
  body : Body;
  code : Z
}.

Module Api.

(** The test of l.23 in [POST]: [false] when a required field is falsy. *)
Definition required_fields (data : ExperimentData) : bool :=
  JS.truthy_string (d_name data)
  && JS.truthy_number (d_learning_rate data)
  && JS.truthy_int (d_batch_size data)
  && JS.truthy_int (d_epochs data)
  && JS.truthy_string (d_optimizer data).

(** [POST /api/experiments] ([route.ts], l.18-50): the response, the new
    store and the timers it sets. *)
Definition POST (now : Z) (data : ExperimentData) (s : Store)
    : Response * Store * list Task :=
  if negb (required_fields data) then
    (mkResponse (JsonError "Missing required fields") 400, s, [])
  else
    match db.findSimilarExperiment data s with
    | Some existingId =>
        (mkResponse (JsonConflict "Similar experiment already exists" existingId) 409,
         s, [])
    | None =>
        match db.createExperiment now data s with
        | Thrown _ =>
            (mkResponse (JsonError "Failed to create experiment") 500, s, [])
        | Returned (None, s1) =>
            (* [experiment.id] of [null] throws *)
            (mkResponse (JsonError "Failed to create experiment") 500, s1, [])
        | Returned (Some experiment, s1) =>
            let '(s2, timer) :=
              db.queueExperiment (Experiment.id (row experiment)) s1 in
            (mkResponse (JsonExperiment experiment) 201, s2, [timer])
        end
    end.

(** [GET /api/experiments/[id]] *)
Definition GET (id : Z) (s : Store) : Response * Store * list Task :=
  match db.getExperimentDetails id s with
  | None => (mkResponse (JsonError "Experiment not found") 404, s, [])
  | Some experiment => (mkResponse (JsonExperiment experiment) 200, s, [])
  end.

(** [DELETE /api/experiments/[id]] *)
Definition DELETE (id : Z) (s : Store) : Response * Store * list Task :=
  match db.getExperimentDetails id s with
  | None => (mkResponse (JsonError "Experiment not found") 404, s, [])
  | Some experiment =>
      if Status_eqb (Experiment.status (row experiment)) running then
        (mkResponse (JsonError "Cannot delete a running experiment") 400, s, [])
      else
        (mkResponse JsonSuccess 200, db.deleteExperiment id s, [])
  end.

(** [POST /api/experiments/[id]/run] *)
Definition POST_run (id : Z) (s : Store) : Response * Store * list Task :=
  match db.getExperimentDetails id s with
  | None => (mkResponse (JsonError "Experiment not found") 404, s, [])
  | Some experiment =>
      if Status_eqb (Experiment.status (row experiment)) running
         || Status_eqb (Experiment.status (row experiment)) queued then
        (mkResponse (JsonError "Experiment is already running or queued") 400, s, [])
      else
        let '(s1, timer) := db.queueExperiment id s in
        (mkResponse JsonSuccess 200, s1, [timer])
  end.

End Api.

(** ** The create form ([components/experiment-form.tsx]) *)

(** The values of the form once coerced ([z.coerce.number()]); the fields
    declared [.int()] are integers. *)
Record FormValues : Set := mkFormValues {
  f_name : string;
  f_learning_rate : float;
  f_batch_size : Z;
  f_epochs : Z;
  f_optimizer : string;
  f_model_type : string;
  f_hidden_layers : Z;
  f_neurons_per_layer : Z
}.

Module Form.

Definition between (lo hi x : Z) : bool := (lo <=? x) && (x <=? hi).

Definition one_of (options : list string) (x : string) : bool :=
  existsb (String.eqb x) options.

(** The bounds and enum sets [formSchema] declares for the seven fields
    of the configuration (l.17-23). *)
Definition configuration (v : FormValues) : bool :=
  ((0.0001 <=? f_learning_rate v)%float && (f_learning_rate v <=? 1)%float)
  && between 8 512 (f_batch_size v)
  && between 1 50 (f_epochs v)
  && one_of ["sgd"; "adam"; "adadelta"]%string (f_optimizer v)
  && one_of ["simple"; "complex"]%string (f_model_type v)
  && between 1 5 (f_hidden_layers v)
  && between 32 512 (f_neurons_per_layer v).

(** [formSchema] (l.15-24): [true] when the values parse. *)
Definition formSchema (v : FormValues) : bool :=
  (3 <=? Z.of_nat (String.length (f_name v))) && configuration v.

(** The request body the form's values make. *)
Definition to_data (v : FormValues) : ExperimentData :=
  mkExperimentData (Some (f_name v)) (Some (f_learning_rate v))
    (Some (f_batch_size v)) (Some (f_epochs v)) (Some (f_optimizer v))
    (Some (f_model_type v)) (Some (f_hidden_layers v))
    (Some (f_neurons_per_layer v)).

End Form.

(** ** The system: the store, and the timers and runners in flight *)

Record System : Set := mkSystem {
  store : Store;
  tasks : list Task
}.

Definition initial : System := mkSystem empty_store [].

Inductive Request : Set :=
| Create (now : Z) (data : ExperimentData)
| Fetch (id : Z)
| Delete (id : Z)
| Run (id : Z).

Definition handle (r : Request) (s : Store) : Response * Store * list Task :=
  match r with
  | Create now data => Api.POST now data s
  | Fetch id => Api.GET id s
  | Delete id => Api.DELETE id s
  | Run id => Api.POST_run id s
  end.

Section Transitions.

Variable Math_exp : float -> float.

(** Requests served one at a time: a request is served, its handler running
    from arrival to answer as one step, or one task in flight takes its next
    step.  These are the runs of the program in which no handler overlaps
    another handler or a step of a runner ([serial_is_overlap] below); the
    runs in which they overlap are those of [Overlap.transition]. *)
Inductive transition : System -> System -> Prop :=
| serve : forall r sys response s' timers,
    handle r (store sys) = (response, s', timers) ->
    transition sys (mkSystem s' (tasks sys ++ timers))
| advance : forall i before t after sys s' t' trace,
    tasks sys = before ++ t :: after ->
    db.step Math_exp i t (store sys) = (s', t', trace) ->
    transition sys (mkSystem s' (before ++ t' :: after)).

Inductive reachable : System -> Prop :=
| reachable_initial : reachable initial
| reachable_transition : forall sys sys',
    reachable sys -> transition sys sys' -> reachable sys'.

End Transitions.

(** ** Handlers that overlap

    A handler awaits every statement it sends to the store, and other
    handlers and runners run meanwhile.  [transition] above is the special
    case in which a handler, once started, runs to its answer before
    anything else happens (requests served one at a time).  Here a handler
    is a machine of its own, like the runner: [Call] is a handler suspended
    at an await, and a step of the system lets one handler or one runner
    perform the operation it awaits.  As in the runner, the two queries of
    [getExperimentDetails] count as one operation. *)

Inductive Call : Set :=
| PostFind (now : Z) (data : ExperimentData)
    (* [POST /api/experiments] past the test of l.23; next:
       [findSimilarExperiment] (l.28) *)
| PostInsert (now : Z) (data : ExperimentData)
    (* in [createExperiment] (l.40); next: the [INSERT] *)
| PostFetch (lastID : Z)
    (* in [createExperiment]; next: [getExperimentDetails(result.lastID)] *)
| Queue (id : Z) (answer : Response)
    (* in [queueExperiment(id)]; next: [UPDATE ... SET status = 'queued',
       current_epoch = 0]; [answer] is what the handler returns afterwards *)
| Clear (id : Z) (answer : Response)
    (* in [queueExperiment(id)]; next: [DELETE FROM experiment_history],
       then [setTimeout] and the answer *)
| GetRead (id : Z)
    (* [GET /api/experiments/{id}]; next: [getExperimentDetails] *)
| DeleteRead (id : Z)
    (* [DELETE /api/experiments/{id}]; next: [getExperimentDetails] *)
| DeleteHistory (id : Z)
    (* in [deleteExperiment(id)]; next: [DELETE FROM experiment_history] *)
| DeleteRow (id : Z)
    (* in [deleteExperiment(id)]; next: [DELETE FROM experiments] *)
| RunRead (id : Z)
    (* [POST /api/experiments/{id}/run]; next: [getExperimentDetails] *)
| Answered (response : Response).

Module Overlap.

(** The [INSERT] of [createExperiment] (l.111-128) and its [lastID]. *)
Definition insert_experiment (now : Z) (data : ExperimentData) (s : Store)
    : Outcome (Z * Store) :=
  match d_name data, d_learning_rate data, d_batch_size data, d_epochs data,
        d_optimizer data, d_model_type data, d_hidden_layers data,
        d_neurons_per_layer data with
  | Some name, Some learning_rate, Some batch_size, Some epochs,
    Some optimizer, Some model_type, Some hidden_layers,
    Some neurons_per_layer =>
      let lastID :=
        Sql.next_rowid Experiment.id (experiments s) (seq_experiments s) in
      let row :=
        Experiment.mk lastID name learning_rate batch_size epochs optimizer
          model_type hidden_layers neurons_per_layer
          not_started now None None None 0 in
      Returned (lastID,
                mkStore (experiments s ++ [row]) (experiment_history s)
                  lastID (seq_history s))
  | _, _, _, _, _, _, _, _ => Thrown "SQLITE_CONSTRAINT: NOT NULL constraint failed"
  end.

(** A request arrives: the handler runs up to its first await. *)
Definition start (r : Request) : Call :=
  match r with
  | Create now data =>
      if negb (Api.required_fields data)
      then Answered (mkResponse (JsonError "Missing required fields") 400)
      else PostFind now data
  | Fetch id => GetRead id
  | Delete id => DeleteRead id
  | Run id => RunRead id
  end.

(** The awaited operation is performed and the handler runs up to its next
    await: the rest of the handler, the new store and the timers set. *)
Definition resume (c : Call) (s : Store) : Call * Store * list Task :=
  match c with
  | PostFind now data =>
      match db.findSimilarExperiment data s with
      | Some existingId =>
          (Answered
             (mkResponse (JsonConflict "Similar experiment already exists" existingId) 409),
           s, [])
      | None => (PostInsert now data, s, [])
      end
  | PostInsert now data =>
      match insert_experiment now data s with
      | Thrown _ =>
          (Answered (mkResponse (JsonError "Failed to create experiment") 500), s, [])
      | Returned (lastID, s1) => (PostFetch lastID, s1, [])
      end
  | PostFetch lastID =>
      match db.getExperimentDetails lastID s with
      | None =>
          (* [experiment.id] of [null] throws *)
          (Answered (mkResponse (JsonError "Failed to create experiment") 500), s, [])
      | Some experiment =>
          (Queue (Experiment.id (row experiment))
             (mkResponse (JsonExperiment experiment) 201), s, [])
      end
  | Queue id answer =>
      (Clear id answer, Sql.update_experiment id Experiment.set_queued s, [])
  | Clear id answer => (Answered answer, Sql.delete_history id s, [Timer id])
  | GetRead id =>
      match db.getExperimentDetails id s with
      | None => (Answered (mkResponse (JsonError "Experiment not found") 404), s, [])
      | Some experiment => (Answered (mkResponse (JsonExperiment experiment) 200), s, [])
      end
  | DeleteRead id =>
      match db.getExperimentDetails id s with
      | None => (Answered (mkResponse (JsonError "Experiment not found") 404), s, [])
      | Some experiment =>
          if Status_eqb (Experiment.status (row experiment)) running then
            (Answered (mkResponse (JsonError "Cannot delete a running experiment") 400),
             s, [])
          else (DeleteHistory id, s, [])
      end
  | DeleteHistory id => (DeleteRow id, Sql.delete_history id s, [])
  | DeleteRow id =>
      (Answered (mkResponse JsonSuccess 200), Sql.delete_experiment id s, [])
  | RunRead id =>
      match db.getExperimentDetails id s with
      | None => (Answered (mkResponse (JsonError "Experiment not found") 404), s, [])
      | Some experiment =>
          if Status_eqb (Experiment.status (row experiment)) running
             || Status_eqb (Experiment.status (row experiment)) queued then
            (Answered (mkResponse (JsonError "Experiment is already running or queued") 400),
             s, [])
          else (Queue id (mkResponse JsonSuccess 200), s, [])
      end
  | Answered response => (Answered response, s, [])
  end.

(** A handler that has answered is gone. *)
Definition pending (c : Call) : list Call :=
  match c with
  | Answered _ => []
  | _ => [c]
  end.

(** The store, the timers and runners, and the handlers in flight. *)
Record System : Set := mkSystem {
  store : Store;
  tasks : list Task;
  calls : list Call
}.

Definition initial : System := mkSystem empty_store [] [].

(** A schedule names the steps one by one: a request that arrives, the
    handler that resumes, the runner that advances. *)
Inductive Move : Set :=
| Arrive (r : Request)
| Resume (n : nat)
| Advance (n : nat) (i : Input).

Section Transitions.

Variable Math_exp : float -> float.

Inductive transition : System -> System -> Prop :=
| arrival : forall r sys,
    transition sys
      (mkSystem (store sys) (tasks sys) (calls sys ++ pending (start r)))
| resumption : forall before c after sys c' s' timers,
    calls sys = before ++ c :: after ->
    resume c (store sys) = (c', s', timers) ->
    transition sys
      (mkSystem s' (tasks sys ++ timers) (before ++ pending c' ++ after))
| runner_step : forall i before t after sys s' t' trace,
    tasks sys = before ++ t :: after ->
    db.step Math_exp i t (store sys) = (s', t', trace) ->
    transition sys (mkSystem s' (before ++ t' :: after) (calls sys)).

Inductive reachable : System -> Prop :=
| reachable_initial : reachable initial
| reachable_transition : forall sys sys',
    reachable sys -> transition sys sys' -> reachable sys'.

(** One step of a schedule; [None] when the handler or the runner it names
    does not exist. *)
Definition move (m : Move) (sys : System) : option System :=
  match m with
  | Arrive r =>
      Some (mkSystem (store sys) (tasks sys) (calls sys ++ pending (start r)))
  | Resume n =>
      match nth_error (calls sys) n with
      | None => None
      | Some c =>
          let '(c', s', timers) := resume c (store sys) in
          Some (mkSystem s' (tasks sys ++ timers)
                  (firstn n (calls sys) ++ pending c' ++ skipn (S n) (calls sys)))
      end
  | Advance n i =>
      match nth_error (tasks sys) n with
      | None => None
      | Some t =>
          let '(s', t', _) := db.step Math_exp i t (store sys) in
          Some (mkSystem s' (firstn n (tasks sys) ++ t' :: skipn (S n) (tasks sys))
                  (calls sys))
      end
  end.

Fixpoint play (schedule : list Move) (sys : System) : option System :=
  match schedule with
  | [] => Some sys
  | m :: schedule' =>
      match move m sys with
      | None => None
      | Some sys' => play schedule' sys'
      end
  end.

End Transitions.

End Overlap.

(** ** Sample inputs, used to exercise the theorems *)

Module Sample.

(** A second-order polynomial standing in for [Math.exp]. *)
Definition Math_exp (x : float) : float := (1 + x + x * x / 2)%float.

Definition data : ExperimentData :=
  mkExperimentData (Some "baseline"%string) (Some 0.01%float) (Some 64)
    (Some 3) (Some "adam"%string) (Some "simple"%string) (Some 2) (Some 128).



(** Form values whose [epochs] is above the declared maximum of 50. *)
Definition long_values : FormValues :=
  mkFormValues "long run" 0.01%float 64 100 "adam" "simple" 2 128.

(** A body whose [epochs] is negative. *)
Definition negative_epochs : ExperimentData :=
  mkExperimentData (Some "negative"%string) (Some 0.01%float) (Some 64)
    (Some (-1)) (Some "adam"%string) (Some "simple"%string) (Some 2) (Some 128).

(** The store once [data] has been posted to the empty store at time 0. *)
Definition posted : Store := snd (fst (Api.POST 0 data empty_store)).

(** An environment without outages: time [t], fixed random draws. *)
Definition input (t : Z) : Input :=
  mkInput t 0.5%float 0.25%float 0.125%float 0.75%float false.

Definition inputs : list Input :=
  map input [1; 2; 3; 4; 5; 6; 7; 8; 9; 10; 11; 12; 13; 14].

(** The system once [data] has been posted: one row, one timer. *)
Definition queued_system : System := mkSystem posted [Timer 1].

(** The run of experiment 1 from there, on its own. *)
Definition run : Store * Task * list (Event * Store) :=
  db.runExperiment Math_exp inputs 1 posted.

Definition completed_system : System :=
  mkSystem (fst (fst run)) [snd (fst run)].

(** The system once [negative_epochs] has been posted to the empty store. *)
Definition negative_system : System :=
  mkSystem (snd (fst (Api.POST 0 negative_epochs empty_store))) [Timer 1].

End Sample.

(** * Properties *)

(** ** The tables *)

Lemma max_rowid_bound {A} (rowid : A -> Z) (rows : list A) (r : A) :
  In r rows -> rowid r <= Sql.max_rowid rowid rows.
Proof.
  induction rows as [|x rows IH]; simpl; [tauto|].
  intros [->|Hin]; [lia|]. specialize (IH Hin). lia.
Qed.

Lemma next_rowid_fresh {A} (rowid : A -> Z) (rows : list A) (sequence : Z) (r : A) :
  In r rows -> rowid r < Sql.next_rowid rowid rows sequence.
Proof.
  intros Hin. apply (max_rowid_bound rowid) in Hin. unfold Sql.next_rowid. lia.
Qed.

Lemma find_none_app {A} (p : A -> bool) (l : list A) (x : A) :
  find p l = None -> find p (l ++ [x]) = if p x then Some x else None.
Proof.
  induction l as [|y l IH]; simpl; [reflexivity|].
  destruct (p y); [discriminate|exact IH].
Qed.

Lemma find_some_app {A} (p : A -> bool) (l l' : list A) (x : A) :
  find p l = Some x -> find p (l ++ l') = Some x.
Proof.
  induction l as [|y l IH]; simpl; [discriminate|].
  destruct (p y); [trivial|exact IH].
Qed.

Lemma find_map {A} (p : A -> bool) (g : A -> A) (l : list A) :
  (forall r, p (g r) = p r) -> find p (map g l) = option_map g (find p l).
Proof.
  intros Hp. induction l as [|y l IH]; simpl; [reflexivity|].
  rewrite Hp. destruct (p y); [reflexivity|exact IH].
Qed.


Lemma find_fresh_id (rows : list Experiment.t) (id : Z) :
  (forall r, In r rows -> Experiment.id r < id) ->
  find (fun r => Experiment.id r =? id) rows = None.
Proof.
  intros Hlt. destruct (find _ rows) as [r|] eqn:Hfind; [|reflexivity].
  apply find_some in Hfind. destruct Hfind as [Hin Heq].
  apply Hlt in Hin. lia.
Qed.

(** The setters of [UPDATE] leave the key and the configuration alone. *)
Definition keeps_configuration (f : Experiment.t -> Experiment.t) : Prop :=
  forall r,
    Experiment.id (f r) = Experiment.id r /\
    Experiment.epochs (f r) = Experiment.epochs r /\
    forall data, db.similar data (f r) = db.similar data r.

Lemma set_status_keeps st : keeps_configuration (Experiment.set_status st).
Proof. intros r. repeat split. Qed.

Lemma set_current_epoch_keeps e : keeps_configuration (Experiment.set_current_epoch e).
Proof. intros r. repeat split. Qed.

Lemma set_queued_keeps : keeps_configuration Experiment.set_queued.
Proof. intros r. repeat split. Qed.

Lemma set_results_keeps st a l d : keeps_configuration (Experiment.set_results st a l d).
Proof. intros r. repeat split. Qed.

Create HintDb store.
#[local] Hint Resolve set_status_keeps set_current_epoch_keeps set_queued_keeps
  set_results_keeps : store.

Lemma select_experiment_update id id' f s :
  keeps_configuration f ->
  Sql.select_experiment id (Sql.update_experiment id' f s) =
  option_map (fun r => if Experiment.id r =? id' then f r else r)
    (Sql.select_experiment id s).
Proof.
  intros Hf. unfold Sql.select_experiment, Sql.update_experiment. simpl.
  apply find_map. intros r. destruct (Experiment.id r =? id'); [|reflexivity].
  now rewrite (proj1 (Hf r)).
Qed.

Lemma select_experiment_delete_history id id' s :
  Sql.select_experiment id (Sql.delete_history id' s) = Sql.select_experiment id s.
Proof. reflexivity. Qed.

(** [createExperiment] returns the row it has just inserted. *)
Lemma createExperiment_returns now data s experiment s1 :
  db.createExperiment now data s = Returned (experiment, s1) ->
  exists r,
    experiment = Some (mkExperimentDetails r
                   (Sql.order_by_epoch (map db.to_history (Sql.select_history (Experiment.id r) s))))
    /\ experiments s1 = experiments s ++ [r]
    /\ experiment_history s1 = experiment_history s
    /\ seq_history s1 = seq_history s
    /\ seq_experiments s1 = Experiment.id r
    /\ Experiment.id r = Sql.next_rowid Experiment.id (experiments s) (seq_experiments s)
    /\ Experiment.status r = not_started
    /\ Experiment.current_epoch r = 0
    /\ Experiment.accuracy r = None /\ Experiment.loss r = None
    /\ Experiment.duration r = None
    /\ d_learning_rate data = Some (Experiment.learning_rate r)
    /\ d_batch_size data = Some (Experiment.batch_size r)
    /\ d_epochs data = Some (Experiment.epochs r)
    /\ d_optimizer data = Some (Experiment.optimizer r)
    /\ d_model_type data = Some (Experiment.model_type r)
    /\ d_hidden_layers data = Some (Experiment.hidden_layers r)
    /\ d_neurons_per_layer data = Some (Experiment.neurons_per_layer r).
Proof.
  unfold db.createExperiment.
  destruct (d_name data) as [name|]; [|discriminate].
  destruct (d_learning_rate data) as [lr|]; [|discriminate].
  destruct (d_batch_size data) as [bs|]; [|discriminate].
  destruct (d_epochs data) as [ep|]; [|discriminate].
  destruct (d_optimizer data) as [opt|]; [|discriminate].
  destruct (d_model_type data) as [mt|]; [|discriminate].
  destruct (d_hidden_layers data) as [hl|]; [|discriminate].
  destruct (d_neurons_per_layer data) as [npl|]; [|discriminate].
  intros H. injection H as Hexp Hs1. subst s1.
  set (lastID := Sql.next_rowid Experiment.id (experiments s) (seq_experiments s)) in *.
  set (r := Experiment.mk lastID name lr bs ep opt mt hl npl not_started now None None None 0) in *.
  exists r. simpl.
  assert (Hsel : Sql.select_experiment lastID
            (mkStore (experiments s ++ [r]) (experiment_history s) lastID (seq_history s))
          = Some r).
  { unfold Sql.select_experiment. simpl. rewrite find_none_app.
    - simpl. now rewrite Z.eqb_refl.
    - apply find_fresh_id. intros x Hx. now apply next_rowid_fresh. }
  unfold db.getExperimentDetails in Hexp. rewrite Hsel in Hexp. subst experiment.
  repeat split; reflexivity.
Qed.

(** ** Creating an experiment *)


(** The four ways [POST] ends. *)
Inductive POST_result (now : Z) (data : ExperimentData) (s : Store)
    : Response * Store * list Task -> Prop :=
| POST_missing :
    Api.required_fields data = false ->
    POST_result now data s
      (mkResponse (JsonError "Missing required fields") 400, s, [])
| POST_conflict : forall existingId,
    Api.required_fields data = true ->
    db.findSimilarExperiment data s = Some existingId ->
    POST_result now data s
      (mkResponse (JsonConflict "Similar experiment already exists" existingId) 409,
       s, [])
| POST_failed : forall error,
    Api.required_fields data = true ->
    db.findSimilarExperiment data s = None ->
    db.createExperiment now data s = Thrown error ->
    POST_result now data s
      (mkResponse (JsonError "Failed to create experiment") 500, s, [])
| POST_created : forall experiment s1,
    Api.required_fields data = true ->
    db.findSimilarExperiment data s = None ->
    db.createExperiment now data s = Returned (Some experiment, s1) ->
    POST_result now data s
      (mkResponse (JsonExperiment experiment) 201,
       fst (db.queueExperiment (Experiment.id (row experiment)) s1),
       [Timer (Experiment.id (row experiment))]).

Lemma POST_inv now data s : POST_result now data s (Api.POST now data s).
Proof.
  unfold Api.POST.
  destruct (Api.required_fields data) eqn:Hreq; simpl; [|now constructor].
  destruct (db.findSimilarExperiment data s) as [existing|] eqn:Hsim;
    [now constructor|].
  destruct (db.createExperiment now data s) as [[experiment s1]|error] eqn:Hcreate;
    [|now apply POST_failed with error].
  destruct (createExperiment_returns _ _ _ _ _ Hcreate) as (r & -> & _).
  now apply POST_created.
Qed.









(** C8.  The body of a 201 response is the record [createExperiment]
    fetched right after the insertion, before [queueExperiment] ran: its
    status is [not_started] and its current epoch 0, while the record in
    the store the handler leaves is already [queued]. *)
Theorem POST_answers_with_record_before_queueing :
  forall now data s response s' timers,
    Api.POST now data s = (response, s', timers) ->
    code response = 201 ->
    exists experiment s1 stored,
      db.createExperiment now data s = Returned (Some experiment, s1) /\
      body response = JsonExperiment experiment /\
      Experiment.status (row experiment) = not_started /\
      Experiment.current_epoch (row experiment) = 0 /\
      db.queueExperiment (Experiment.id (row experiment)) s1
        = (s', Timer (Experiment.id (row experiment))) /\
      timers = [Timer (Experiment.id (row experiment))] /\
      db.getExperimentDetails (Experiment.id (row experiment)) s' = Some stored /\
      Experiment.status (row stored) = queued /\
      Experiment.current_epoch (row stored) = 0.
Proof.
  intros now data s response s' timers Hpost Hcode.
  pose proof (POST_inv now data s) as Hinv. rewrite Hpost in Hinv.
  inversion Hinv as [| | |experiment s1 Hreq Hnone Hcreate]; subst;
    try discriminate Hcode.
  destruct (createExperiment_returns _ _ _ _ _ Hcreate)
    as (r & Hexp & Hrows & _ & _ & _ & Hid & Hst & Hcur & _).
  injection Hexp as ->. cbn [row] in *.
  assert (Hsel : Sql.select_experiment (Experiment.id r) s1 = Some r).
  { unfold Sql.select_experiment. rewrite Hrows, find_none_app.
    - now rewrite Z.eqb_refl.
    - apply find_fresh_id. intros x Hx. rewrite Hid. now apply next_rowid_fresh. }
  assert (Hstored : Sql.select_experiment (Experiment.id r)
            (Sql.delete_history (Experiment.id r)
               (Sql.update_experiment (Experiment.id r) Experiment.set_queued s1))
          = Some (Experiment.set_queued r)).
  { rewrite select_experiment_delete_history, select_experiment_update, Hsel
      by auto with store.
    cbn [option_map]. now rewrite Z.eqb_refl. }
  eexists _, s1, _.
  split; [exact Hcreate|]. split; [reflexivity|]. cbn [row].
  split; [exact Hst|]. split; [exact Hcur|].
  split; [reflexivity|]. split; [reflexivity|].
  unfold db.getExperimentDetails. rewrite Hstored.
  split; [reflexivity|]. split; reflexivity.
Qed.

Lemma POST_answers_with_record_before_queueing_witness :
  code (fst (fst (Api.POST 0 Sample.data empty_store))) = 201 /\
  exists experiment s1 stored,
    db.createExperiment 0 Sample.data empty_store = Returned (Some experiment, s1) /\
    body (fst (fst (Api.POST 0 Sample.data empty_store))) = JsonExperiment experiment /\
    Experiment.status (row experiment) = not_started /\
    Experiment.current_epoch (row experiment) = 0 /\
    db.queueExperiment (Experiment.id (row experiment)) s1
      = (Sample.posted, Timer (Experiment.id (row experiment))) /\
    [Timer 1] = [Timer (Experiment.id (row experiment))] /\
    db.getExperimentDetails (Experiment.id (row experiment)) Sample.posted = Some stored /\
    Experiment.status (row stored) = queued /\
    Experiment.current_epoch (row stored) = 0.
Proof.
  split; [reflexivity|].
  exact (POST_answers_with_record_before_queueing 0 Sample.data empty_store
           _ _ _ eq_refl eq_refl).
Defined.

(** C9.  The presence check of [POST] is a truthiness test of [name],
    [learning_rate], [batch_size], [epochs] and [optimizer]: when one of them
    is falsy (absent, or present with value [0] or the empty string) the
    answer is 400 "Missing required fields" and the store is untouched; the
    answer is 400 in no other case, whatever [model_type], [hidden_layers]
    and [neurons_per_layer] are, present or not. *)
Theorem POST_presence_check_is_truthiness :
  forall now data s,
    (JS.truthy_string (d_name data) = false \/
     JS.truthy_number (d_learning_rate data) = false \/
     JS.truthy_int (d_batch_size data) = false \/
     JS.truthy_int (d_epochs data) = false \/
     JS.truthy_string (d_optimizer data) = false
     <-> Api.POST now data s
         = (mkResponse (JsonError "Missing required fields") 400, s, []))
    /\ (code (fst (fst (Api.POST now data s))) = 400
        <-> Api.POST now data s
            = (mkResponse (JsonError "Missing required fields") 400, s, []))
    /\ JS.truthy_number (Some 0%float) = false
    /\ JS.truthy_int (Some 0) = false
    /\ JS.truthy_string (Some EmptyString) = false.
Proof.
  intros now data s.
  assert (Hfalsy :
    JS.truthy_string (d_name data) = false \/
    JS.truthy_number (d_learning_rate data) = false \/
    JS.truthy_int (d_batch_size data) = false \/
    JS.truthy_int (d_epochs data) = false \/
    JS.truthy_string (d_optimizer data) = false
    <-> Api.required_fields data = false).
  { unfold Api.required_fields. rewrite !andb_false_iff. tauto. }
  pose proof (POST_inv now data s) as Hinv.
  repeat split; try reflexivity.
  - intros H. apply Hfalsy in H. unfold Api.POST. now rewrite H.
  - intros H. apply Hfalsy. rewrite H in Hinv.
    inversion Hinv; subst; assumption.
  - intros H. destruct Hinv; try discriminate H. reflexivity.
  - intros ->. reflexivity.
Qed.

(** C4, as amended.  A configuration outside the declared bounds or enum
    sets is rejected by the schema of the form; [POST] itself checks no bound
    and no enum set: it answers 400 exactly when one of its required fields
    is falsy, and then inserts nothing. *)
Theorem bounds_are_checked_by_the_form :
  forall v now s,
    Form.configuration v = false ->
    Form.formSchema v = false /\
    (Api.required_fields (Form.to_data v) = false ->
     Api.POST now (Form.to_data v) s
     = (mkResponse (JsonError "Missing required fields") 400, s, [])) /\
    (Api.required_fields (Form.to_data v) = true ->
     code (fst (fst (Api.POST now (Form.to_data v) s))) <> 400).
Proof.
  intros v now s Hout. repeat split.
  - unfold Form.formSchema. rewrite Hout. apply andb_false_r.
  - intros H. unfold Api.POST. now rewrite H.
  - intros H. destruct (POST_inv now (Form.to_data v) s); congruence || discriminate.
Qed.

(** C4 as stated fails: with [epochs = 100] the form's schema rejects the
    values, but [POST] answers 201 and inserts the row. *)
Lemma POST_accepts_epochs_out_of_bounds :
  ~ (forall v now s,
       Form.configuration v = false ->
       code (fst (fst (Api.POST now (Form.to_data v) s))) = 400 /\
       experiments (snd (fst (Api.POST now (Form.to_data v) s))) = experiments s).
Proof.
  intros H.
  destruct (H Sample.long_values 0 empty_store eq_refl) as [Hcode _].
  vm_compute in Hcode. discriminate.
Qed.

Lemma bounds_are_checked_by_the_form_witness :
  Form.configuration Sample.long_values = false /\
  Form.formSchema Sample.long_values = false /\
  (Api.required_fields (Form.to_data Sample.long_values) = false ->
   Api.POST 0 (Form.to_data Sample.long_values) empty_store
   = (mkResponse (JsonError "Missing required fields") 400, empty_store, [])) /\
  (Api.required_fields (Form.to_data Sample.long_values) = true ->
   code (fst (fst (Api.POST 0 (Form.to_data Sample.long_values) empty_store))) <> 400).
Proof.
  split; [reflexivity|].
  exact (bounds_are_checked_by_the_form Sample.long_values 0 empty_store eq_refl).
Defined.

(** ** Deleting an experiment *)

Lemma Status_eqb_eq a b : Status_eqb a b = true <-> a = b.
Proof. destruct a, b; simpl; split; congruence. Qed.

(** C6.  For an id that has a record: when its status is [running],
    [DELETE] answers 400 and leaves the store as it is; for every other
    status it answers [{ success: true }], and afterwards neither table holds
    a row of that id, while the rows of other ids are all kept. *)
Theorem DELETE_refuses_only_running :
  forall id s experiment,
    db.getExperimentDetails id s = Some experiment ->
    (Experiment.status (row experiment) = running ->
     Api.DELETE id s
     = (mkResponse (JsonError "Cannot delete a running experiment") 400, s, []))
    /\
    (Experiment.status (row experiment) <> running ->
     exists s',
       Api.DELETE id s = (mkResponse JsonSuccess 200, s', []) /\
       db.getExperimentDetails id s' = None /\
       (forall r, In r (experiments s') <-> In r (experiments s) /\ Experiment.id r <> id) /\
       (forall h, In h (experiment_history s') <->
                  In h (experiment_history s) /\ History.experiment_id h <> id)).
Proof.
  intros id s experiment Hget. unfold Api.DELETE. rewrite Hget. split.
  - intros Hrun. apply Status_eqb_eq in Hrun. now rewrite Hrun.
  - intros Hrun.
    destruct (Status_eqb (Experiment.status (row experiment)) running) eqn:Heq;
      [now apply Status_eqb_eq in Heq|].
    exists (db.deleteExperiment id s). split; [reflexivity|].
    assert (Hrows : forall r, In r (experiments (db.deleteExperiment id s)) <->
                      In r (experiments s) /\ Experiment.id r <> id).
    { intros r. unfold db.deleteExperiment. simpl.
      rewrite filter_In, negb_true_iff, Z.eqb_neq. tauto. }
    split; [|split; [exact Hrows|]].
    + unfold db.getExperimentDetails, Sql.select_experiment.
      destruct (find _ (experiments (db.deleteExperiment id s))) as [r|] eqn:Hfind;
        [|reflexivity].
      apply find_some in Hfind. destruct Hfind as [Hin Hid].
      apply Hrows in Hin. apply Z.eqb_eq in Hid. tauto.
    + intros h. unfold db.deleteExperiment. simpl.
      rewrite filter_In, negb_true_iff, Z.eqb_neq. tauto.
Qed.

Lemma DELETE_refuses_only_running_witness :
  db.getExperimentDetails 1 Sample.posted
    = Some (mkExperimentDetails
              (Experiment.mk 1 "baseline" 0.01%float 64 3 "adam" "simple" 2 128
                 queued 0 None None None 0) [])
  /\ exists s',
       Api.DELETE 1 Sample.posted = (mkResponse JsonSuccess 200, s', []) /\
       db.getExperimentDetails 1 s' = None /\
       (forall r, In r (experiments s') <->
                  In r (experiments Sample.posted) /\ Experiment.id r <> 1) /\
       (forall h, In h (experiment_history s') <->
                  In h (experiment_history Sample.posted) /\ History.experiment_id h <> 1).
Proof.
  split; [reflexivity|].
  refine (proj2 (DELETE_refuses_only_running 1 Sample.posted _ eq_refl) _).
  simpl. discriminate.
Defined.

(** ** The runner *)

Section RunnerProperties.

Variable Math_exp : float -> float.

Lemma exec_Finished inputs s :
  db.exec Math_exp inputs Finished s = (s, Finished, []).
Proof. destruct inputs; reflexivity. Qed.

Lemma exec_step i inputs t s :
  t <> Finished ->
  db.exec Math_exp (i :: inputs) t s =
  let '(s1, t1, trace1) := db.step Math_exp i t s in
  let '(s2, t2, trace2) := db.exec Math_exp inputs t1 s1 in
  (s2, t2, trace1 ++ trace2).
Proof. destruct t; intros H; reflexivity || contradiction. Qed.

(** C10.  When the store has no record of [id], [runExperiment(id)]
    returns at once: it performs no operation and the store it leaves is
    the store it found. *)
Theorem runExperiment_without_record :
  forall id s i inputs,
    db.getExperimentDetails id s = None ->
    db.runExperiment Math_exp (i :: inputs) id s = (s, Finished, []).
Proof.
  intros id s i inputs Hnone.
  unfold db.runExperiment. rewrite exec_step by discriminate.
  cbn [db.step]. rewrite Hnone.
  destruct (faulty i); now rewrite exec_Finished.
Qed.

End RunnerProperties.

Lemma runExperiment_without_record_witness :
  db.getExperimentDetails 7 Sample.posted = None /\
  db.runExperiment Sample.Math_exp Sample.inputs 7 Sample.posted
  = (Sample.posted, Finished, []).
Proof.
  split; [reflexivity|].
  exact (runExperiment_without_record Sample.Math_exp 7 Sample.posted _ _ eq_refl).
Defined.

(** ** Invariants with requests served one at a time *)

(** [lo; lo + 1; ...], [n] numbers. *)
Fixpoint range (lo : Z) (n : nat) : list Z :=
  match n with
  | O => []
  | S n' => lo :: range (lo + 1) n'
  end.

(** The epoch numbers [1; 2; ...; k] (none when [k <= 0]). *)
Definition epochs_1_to (k : Z) : list Z := range 1 (Z.to_nat k).

(** The epoch numbers of the history rows of an experiment, in the order
    the rows were inserted. *)
Definition recorded_epochs (id : Z) (s : Store) : list Z :=
  map History.epoch (Sql.select_history id s).

(** The results of a row are those of the last recorded epoch. *)
Definition results_recorded (s : Store) (r : Experiment.t) : Prop :=
  exists lastEpoch,
    Sql.last_by_epoch (Sql.select_history (Experiment.id r) s) = Some lastEpoch /\
    Experiment.accuracy r = Some (History.val_acc lastEpoch) /\
    Experiment.loss r = Some (History.val_loss lastEpoch) /\
    Experiment.duration r <> None.

(** What holds of every row of [experiments]. *)
Definition row_ok (s : Store) (r : Experiment.t) : Prop :=
  Experiment.id r <= seq_experiments s /\
  0 <= Experiment.current_epoch r <= Z.max 0 (Experiment.epochs r) /\
  (recorded_epochs (Experiment.id r) s = epochs_1_to (Experiment.current_epoch r - 1) \/
   recorded_epochs (Experiment.id r) s = epochs_1_to (Experiment.current_epoch r)) /\
  (Experiment.status r = completed ->
   1 <= Experiment.epochs r /\
   recorded_epochs (Experiment.id r) s = epochs_1_to (Experiment.epochs r) /\
   results_recorded s r).

(** [P] holds of the rows of [experiments] whose key is [id]. *)
Definition at_row (s : Store) (id : Z) (P : Experiment.t -> Prop) : Prop :=
  forall r, In r (experiments s) -> Experiment.id r = id -> P r.

(** What holds of a task in flight, as long as the experiment it runs has
    not been deleted. *)
Definition task_ok (s : Store) (t : Task) : Prop :=
  match t with
  | Timer id =>
      id <= seq_experiments s /\
      at_row s id (fun r =>
        Experiment.status r = queued /\
        Experiment.current_epoch r = 0 /\
        recorded_epochs id s = [])
  | AtSetRunning id experiment =>
      id <= seq_experiments s /\
      at_row s id (fun r =>
        Experiment.status r = queued /\
        Experiment.current_epoch r = 0 /\
        recorded_epochs id s = [] /\
        Experiment.epochs (row experiment) = Experiment.epochs r)
  | AtLoop id experiment _ epoch =>
      id <= seq_experiments s /\
      at_row s id (fun r =>
        Experiment.status r = running /\
        Experiment.epochs (row experiment) = Experiment.epochs r /\
        1 <= epoch <= Z.max 0 (Experiment.epochs r) + 1 /\
        Experiment.current_epoch r = epoch - 1 /\
        recorded_epochs id s = epochs_1_to (epoch - 1))
  | AtSleep id experiment _ epoch
  | AtSimulate id experiment _ epoch =>
      id <= seq_experiments s /\
      at_row s id (fun r =>
        Experiment.status r = running /\
        Experiment.epochs (row experiment) = Experiment.epochs r /\
        1 <= epoch <= Experiment.epochs r /\
        Experiment.current_epoch r = epoch /\
        recorded_epochs id s = epochs_1_to (epoch - 1))
  | AtComplete id _ lastEpoch =>
      id <= seq_experiments s /\
      at_row s id (fun r =>
        Experiment.status r = running /\
        1 <= Experiment.epochs r /\
        Experiment.current_epoch r = Experiment.epochs r /\
        recorded_epochs id s = epochs_1_to (Experiment.epochs r) /\
        Sql.last_by_epoch (Sql.select_history id s) = Some lastEpoch)
  | AtFailed id =>
      id <= seq_experiments s /\
      at_row s id (fun r => Experiment.status r = running)
  | Finished => True
  end.

(** The experiment a task runs. *)
Definition task_id (t : Task) : option Z :=
  match t with
  | Timer id | AtSetRunning id _ | AtLoop id _ _ _ | AtSleep id _ _ _
  | AtSimulate id _ _ _ | AtComplete id _ _ | AtFailed id => Some id
  | Finished => None
  end.

Definition live_ids (ts : list Task) : list Z :=
  flat_map (fun t => match task_id t with Some id => [id] | None => [] end) ts.

(** The invariant of the system when requests are served one at a time
    ([transition]): keys are unique, rows and tasks are as described above,
    and no two tasks in flight run the same experiment.  Handlers that
    overlap break the last part and, with it, what is said of rows and
    tasks; what holds then is [overlap_invariant] below. *)
Definition invariant (sys : System) : Prop :=
  NoDup (map Experiment.id (experiments (store sys))) /\
  (forall r, In r (experiments (store sys)) -> row_ok (store sys) r) /\
  (forall t, In t (tasks sys) -> task_ok (store sys) t) /\
  NoDup (live_ids (tasks sys)).

(** Two stores show the same of experiment [j]. *)
Definition same_at (j : Z) (s s' : Store) : Prop :=
  (forall r, Experiment.id r = j ->
             (In r (experiments s') <-> In r (experiments s))) /\
  Sql.select_history j s' = Sql.select_history j s /\
  seq_experiments s <= seq_experiments s'.

Lemma same_at_refl j s : same_at j s s.
Proof. repeat split; tauto || lia. Qed.

Lemma row_ok_frame s s' r :
  same_at (Experiment.id r) s s' -> row_ok s r -> row_ok s' r.
Proof.
  intros (_ & Hhist & Hseq) (Hid & Hcur & Hrec & Hdone).
  unfold row_ok, recorded_epochs, results_recorded in *. rewrite Hhist.
  split; [lia|]. split; [lia|]. split; assumption.
Qed.

Lemma task_ok_frame s s' t j :
  task_id t = Some j -> same_at j s s' -> task_ok s t -> task_ok s' t.
Proof.
  intros Hid (Hrows & Hhist & Hseq).
  destruct t; simpl in Hid; try discriminate; injection Hid as ->;
    unfold task_ok, at_row, recorded_epochs; rewrite ?Hhist;
    intros [Hle Hat]; (split; [lia|]); intros r Hin Hr;
    apply (Hat r); trivial; now apply Hrows.
Qed.

Lemma same_at_update id f s j :
  keeps_configuration f -> j <> id ->
  same_at j s (Sql.update_experiment id f s).
Proof.
  intros Hf Hj. repeat split; simpl; try lia.
  - rewrite in_map_iff. intros (r0 & <- & Hin).
    destruct (Experiment.id r0 =? id) eqn:E; [|assumption].
    apply Z.eqb_eq in E. rewrite (proj1 (Hf r0)) in H. congruence.
  - intros Hin. apply in_map_iff. exists r. split; [|assumption].
    destruct (Experiment.id r =? id) eqn:E; [|reflexivity].
    apply Z.eqb_eq in E. congruence.
Qed.

Lemma select_history_insert id e tl vl ta va s j :
  Sql.select_history j (Sql.insert_history id e tl vl ta va s) =
  Sql.select_history j s ++
  (if id =? j
   then [History.mk (Sql.next_rowid History.id (experiment_history s) (seq_history s))
           id e tl vl ta va]
   else []).
Proof.
  unfold Sql.select_history, Sql.insert_history. simpl. rewrite filter_app.
  simpl. reflexivity.
Qed.

Lemma same_at_insert_history id e tl vl ta va s j :
  j <> id -> same_at j s (Sql.insert_history id e tl vl ta va s).
Proof.
  intros Hj. repeat split; simpl; try tauto; try lia.
  rewrite select_history_insert. apply Z.eqb_neq in Hj. rewrite Z.eqb_sym in Hj.
  rewrite Hj. apply app_nil_r.
Qed.

Lemma select_history_delete id s j :
  Sql.select_history j (Sql.delete_history id s) =
  if j =? id then [] else Sql.select_history j s.
Proof.
  unfold Sql.select_history, Sql.delete_history. simpl.
  induction (experiment_history s) as [|h l IH]; simpl.
  - now destruct (j =? id).
  - destruct (History.experiment_id h =? id) eqn:E1; simpl.
    + rewrite IH. destruct (j =? id) eqn:E2; [reflexivity|].
      apply Z.eqb_eq in E1. apply Z.eqb_neq in E2.
      assert ((History.experiment_id h =? j) = false) by (apply Z.eqb_neq; lia).
      now rewrite H.
    + destruct (History.experiment_id h =? j) eqn:E3; rewrite IH.
      * apply Z.eqb_eq in E3. apply Z.eqb_neq in E1.
        assert ((j =? id) = false) by (apply Z.eqb_neq; lia).
        now rewrite H.
      * reflexivity.
Qed.

Lemma same_at_delete_history id s j :
  j <> id -> same_at j s (Sql.delete_history id s).
Proof.
  intros Hj. repeat split; simpl; try tauto; try lia.
  rewrite select_history_delete. apply Z.eqb_neq in Hj. now rewrite Hj.
Qed.

Lemma same_at_delete_experiment id s j :
  j <> id -> same_at j s (Sql.delete_experiment id s).
Proof.
  intros Hj. repeat split; simpl; try tauto; try lia.
  - now intros Hin%filter_In.
  - intros Hin. apply filter_In. split; [assumption|].
    apply negb_true_iff, Z.eqb_neq. congruence.
Qed.

Lemma same_at_trans j s1 s2 s3 :
  same_at j s1 s2 -> same_at j s2 s3 -> same_at j s1 s3.
Proof.
  intros (R1 & H1 & S1) (R2 & H2 & S2). repeat split; try lia; try congruence.
  - intros Hin. apply R1, R2; assumption.
  - intros Hin. apply R2, R1; assumption.
Qed.

Lemma range_snoc lo n : range lo (S n) = range lo n ++ [lo + Z.of_nat n].
Proof.
  revert lo. induction n as [|n IH]; intros lo.
  - simpl. now rewrite Z.add_0_r.
  - change (range lo (S (S n))) with (lo :: range (lo + 1) (S n)).
    rewrite IH. cbn [range app].
    now replace (lo + 1 + Z.of_nat n) with (lo + Z.of_nat (S n)) by lia.
Qed.

Lemma epochs_1_to_snoc k :
  1 <= k -> epochs_1_to k = epochs_1_to (k - 1) ++ [k].
Proof.
  intros Hk. unfold epochs_1_to.
  replace (Z.to_nat k) with (S (Z.to_nat (k - 1))) by lia.
  rewrite range_snoc.
  now replace (1 + Z.of_nat (Z.to_nat (k - 1))) with k by lia.
Qed.

Lemma epochs_1_to_nil k : k <= 0 -> epochs_1_to k = [].
Proof.
  intros Hk. unfold epochs_1_to. now replace (Z.to_nat k) with O by lia.
Qed.


Lemma in_update_experiment id f s r' :
  In r' (experiments (Sql.update_experiment id f s)) <->
  exists r, In r (experiments s) /\
            r' = if Experiment.id r =? id then f r else r.
Proof.
  simpl. rewrite in_map_iff. split; intros (r & H1 & H2); exists r; auto.
Qed.

Lemma last_by_epoch_none l : Sql.last_by_epoch l = None -> l = [].
Proof. destruct l; [reflexivity|discriminate]. Qed.

Lemma last_by_epoch_some l : l <> [] -> exists h, Sql.last_by_epoch l = Some h.
Proof. destruct l; [contradiction|]. intros _. eexists. reflexivity. Qed.

Lemma live_ids_app ts1 ts2 : live_ids (ts1 ++ ts2) = live_ids ts1 ++ live_ids ts2.
Proof. apply flat_map_app. Qed.

Lemma in_live_ids id ts :
  In id (live_ids ts) <-> exists t, In t ts /\ task_id t = Some id.
Proof.
  unfold live_ids. rewrite in_flat_map. split.
  - intros (t & Hin & Hid). exists t. split; [assumption|].
    destruct (task_id t); simpl in Hid; [|contradiction].
    destruct Hid as [->|[]]. reflexivity.
  - intros (t & Hin & Hid). exists t. split; [assumption|].
    rewrite Hid. now left.
Qed.

(** A step changes nothing of the other experiments, and the task goes on
    with the same experiment or has finished. *)
Lemma step_frame Math_exp i t s s' t' trace id :
  db.step Math_exp i t s = (s', t', trace) ->
  task_id t = Some id ->
  (forall j, j <> id -> same_at j s s') /\
  (task_id t' = Some id \/ t' = Finished) /\
  seq_experiments s' = seq_experiments s.
Proof.
  intros Hstep Hid.
  destruct t; simpl in Hid; try discriminate; injection Hid as ->;
    unfold db.step in Hstep;
    repeat match type of Hstep with
           | context [if ?b then _ else _] => destruct b
           | context [match ?x with Some _ => _ | None => _ end] => destruct x
           end;
    injection Hstep as <- <- <-;
    (split; [|split; [simpl; tauto|reflexivity]]);
    intros j Hj;
    auto using same_at_refl, same_at_update, same_at_insert_history with store.
Qed.

Lemma rows_after_update id f s :
  keeps_configuration f ->
  (forall r, In r (experiments s) -> row_ok s r) ->
  (forall r, In r (experiments s) -> Experiment.id r = id ->
             row_ok (Sql.update_experiment id f s) (f r)) ->
  forall r', In r' (experiments (Sql.update_experiment id f s)) ->
             row_ok (Sql.update_experiment id f s) r'.
Proof.
  intros Hf Hrows Hnew r' Hin.
  apply in_update_experiment in Hin. destruct Hin as (r & Hin & ->).
  destruct (Experiment.id r =? id) eqn:E.
  - apply Z.eqb_eq in E. now apply Hnew.
  - apply Z.eqb_neq in E. apply row_ok_frame with s; [|now apply Hrows].
    now apply same_at_update.
Qed.

Lemma at_row_after_update id f s (P Q : Experiment.t -> Prop) :
  keeps_configuration f ->
  at_row s id P ->
  (forall r, In r (experiments s) -> Experiment.id r = id -> P r -> Q (f r)) ->
  at_row (Sql.update_experiment id f s) id Q.
Proof.
  intros Hf HP HQ r' Hin Hid.
  apply in_update_experiment in Hin. destruct Hin as (r & Hin & ->).
  destruct (Experiment.id r =? id) eqn:E.
  - apply Z.eqb_eq in E. apply HQ; trivial. now apply HP.
  - apply Z.eqb_neq in E. contradiction.
Qed.

Lemma at_row_weaken s id (P Q : Experiment.t -> Prop) :
  at_row s id P -> (forall r, P r -> Q r) -> at_row s id Q.
Proof. intros HP HPQ r Hin Hid. apply HPQ. now apply HP. Qed.

Lemma rows_after_insert_history id e tl vl ta va s :
  (forall r, In r (experiments s) -> row_ok s r) ->
  (forall r, In r (experiments s) -> Experiment.id r = id ->
             row_ok (Sql.insert_history id e tl vl ta va s) r) ->
  forall r, In r (experiments (Sql.insert_history id e tl vl ta va s)) ->
            row_ok (Sql.insert_history id e tl vl ta va s) r.
Proof.
  intros Hrows Hnew r Hin. simpl in Hin.
  destruct (Z.eq_dec (Experiment.id r) id) as [E|E].
  - now apply Hnew.
  - apply row_ok_frame with s; [|now apply Hrows].
    now apply same_at_insert_history.
Qed.

Lemma recorded_epochs_insert id e tl vl ta va s :
  recorded_epochs id (Sql.insert_history id e tl vl ta va s)
  = recorded_epochs id s ++ [e].
Proof.
  unfold recorded_epochs. rewrite select_history_insert, Z.eqb_refl, map_app.
  reflexivity.
Qed.

Lemma recorded_epochs_nil id s :
  recorded_epochs id s = [] -> Sql.select_history id s = [].
Proof. unfold recorded_epochs. now intros H%map_eq_nil. Qed.

Lemma unique_row (rows : list Experiment.t) (a b : Experiment.t) :
  NoDup (map Experiment.id rows) -> In a rows -> In b rows ->
  Experiment.id a = Experiment.id b -> a = b.
Proof.
  induction rows as [|x rows IH]; simpl; [tauto|].
  intros Hnd [->|Ha] [->|Hb] Hid; inversion Hnd as [|? ? Hnotin Hnd']; subst.
  - reflexivity.
  - exfalso. apply Hnotin. rewrite Hid. now apply in_map.
  - exfalso. apply Hnotin. rewrite <- Hid. now apply in_map.
  - now apply IH.
Qed.

Lemma ids_after_update id f s :
  keeps_configuration f ->
  map Experiment.id (experiments (Sql.update_experiment id f s))
  = map Experiment.id (experiments s).
Proof.
  intros Hf. simpl. rewrite map_map. apply map_ext. intros r.
  destruct (Experiment.id r =? id); [apply Hf|reflexivity].
Qed.

(** A step leaves the keys of the table as they are. *)
Lemma step_keeps_ids Math_exp i t s s' t' trace :
  db.step Math_exp i t s = (s', t', trace) ->
  map Experiment.id (experiments s') = map Experiment.id (experiments s).
Proof.
  intros Hstep.
  destruct t; unfold db.step in Hstep;
    repeat match type of Hstep with
           | context [if ?b then _ else _] => destruct b
           | context [match ?x with Some _ => _ | None => _ end] => destruct x
           end;
    injection Hstep as <- <- <-;
    reflexivity || (apply ids_after_update; auto with store).
Qed.

Lemma row_ok_update id f s r :
  row_ok (Sql.update_experiment id f s) r <-> row_ok s r.
Proof. reflexivity. Qed.

Lemma recorded_epochs_update id f s j :
  recorded_epochs j (Sql.update_experiment id f s) = recorded_epochs j s.
Proof. reflexivity. Qed.

(** A step of a task keeps the rows and the task as they should be. *)
Lemma step_preserves Math_exp i t s s' t' trace :
  db.step Math_exp i t s = (s', t', trace) ->
  NoDup (map Experiment.id (experiments s)) ->
  (forall r, In r (experiments s) -> row_ok s r) ->
  task_ok s t ->
  (forall r, In r (experiments s') -> row_ok s' r) /\ task_ok s' t'.
Proof.
  intros Hstep Huniq Hrows Htask.
  destruct t as [id|id experiment|id experiment startTime epoch
                |id experiment startTime epoch|id experiment startTime epoch
                |id duration lastEpoch|id|]; unfold db.step in Hstep.
  - (* the timer fires *)
    destruct Htask as [Hle Hat].
    destruct (faulty i); [injection Hstep as <- <- <-; now split|].
    destruct (db.getExperimentDetails id s) as [experiment|] eqn:Hget;
      injection Hstep as <- <- <-; split; trivial; try exact I.
    split; [assumption|]. intros r Hin Hid.
    destruct (Hat r Hin Hid) as (Hst & Hcur & Hrec). repeat split; trivial.
    unfold db.getExperimentDetails in Hget.
    destruct (Sql.select_experiment id s) as [r0|] eqn:Hsel; [|discriminate].
    injection Hget as <-. simpl.
    apply find_some in Hsel. destruct Hsel as [Hin0 Hid0]. apply Z.eqb_eq in Hid0.
    now rewrite (unique_row _ r0 r Huniq Hin0 Hin) by congruence.
  - (* status := running *)
    destruct Htask as [Hle Hat].
    destruct (faulty i); injection Hstep as <- <- <-; [now split|].
    split.
    + apply rows_after_update; auto with store.
      intros r Hin Hid. apply row_ok_update.
      destruct (Hrows r Hin) as (H1 & H2 & H3 & H4).
      split; [exact H1|]. split; [exact H2|]. split; [exact H3|]. discriminate.
    + split; [assumption|].
      apply at_row_after_update with (P := fun r =>
        Experiment.status r = queued /\
        Experiment.current_epoch r = 0 /\
        recorded_epochs id s = [] /\
        Experiment.epochs (row experiment) = Experiment.epochs r);
        auto with store.
      intros r Hin Hid (Hst & Hcur & Hrec & Hep).
      rewrite recorded_epochs_update. simpl.
      repeat split; trivial; try lia.
  - (* the loop test *)
    destruct Htask as [Hle Hat].
    destruct (epoch <=? Experiment.epochs (row experiment)) eqn:Htest.
    + (* current_epoch := epoch *)
      apply Z.leb_le in Htest.
      destruct (faulty i); injection Hstep as <- <- <-.
      { split; [assumption|]. split; [assumption|].
        eapply at_row_weaken; [exact Hat|]. now intros r (Hst & _). }
      split.
      * apply rows_after_update; auto with store.
        intros r Hin Hid. apply row_ok_update.
        destruct (Hrows r Hin) as (H1 & H2 & H3 & H4).
        destruct (Hat r Hin Hid) as (Hst & Hep & Hk & Hcur & Hrec).
        split; [exact H1|]. simpl. split; [lia|]. split.
        -- left. now rewrite Hid.
        -- rewrite Hst. discriminate.
      * split; [assumption|].
        eapply at_row_after_update; [auto with store|exact Hat|].
        intros r Hin Hid (Hst & Hep & Hk & Hcur & Hrec).
        rewrite recorded_epochs_update. simpl.
        repeat split; trivial; lia.
    + (* the loop is over: the last epoch is read *)
      apply Z.leb_gt in Htest.
      destruct (faulty i); [injection Hstep as <- <- <-|].
      { split; [assumption|]. split; [assumption|].
        eapply at_row_weaken; [exact Hat|]. now intros r (Hst & _). }
      destruct (Sql.last_by_epoch (Sql.select_history id s)) as [lastEpoch|] eqn:Hlast;
        injection Hstep as <- <- <-; (split; [assumption|]); (split; [assumption|]).
      * intros r Hin Hid.
        destruct (Hat r Hin Hid) as (Hst & Hep & Hk & Hcur & Hrec).
        assert (Hpos : 1 <= epoch - 1).
        { destruct (Z_lt_le_dec (epoch - 1) 1) as [Hlt|]; [|assumption].
          rewrite epochs_1_to_nil in Hrec by lia.
          apply recorded_epochs_nil in Hrec. rewrite Hrec in Hlast. discriminate. }
        assert (Hepochs : Experiment.epochs r = epoch - 1) by lia.
        rewrite Hepochs. repeat split; trivial; lia.
      * eapply at_row_weaken; [exact Hat|]. now intros r (Hst & _).
  - (* the delay of the epoch *)
    injection Hstep as <- <- <-. now split.
  - (* the metrics and the history row *)
    destruct Htask as [Hle Hat].
    destruct (faulty i); injection Hstep as <- <- <-.
    { split; [assumption|]. split; [assumption|].
      eapply at_row_weaken; [exact Hat|]. now intros r (Hst & _). }
    split.
    + apply rows_after_insert_history; [assumption|].
      intros r Hin Hid.
      destruct (Hrows r Hin) as (H1 & H2 & H3 & H4).
      destruct (Hat r Hin Hid) as (Hst & Hep & Hk & Hcur & Hrec).
      split; [exact H1|]. split; [exact H2|]. split.
      * right. rewrite Hid, recorded_epochs_insert, Hrec, Hcur.
        symmetry. apply epochs_1_to_snoc. lia.
      * rewrite Hst. discriminate.
    + split; [assumption|]. intros r Hin Hid.
      destruct (Hat r Hin Hid) as (Hst & Hep & Hk & Hcur & Hrec).
      rewrite recorded_epochs_insert, Hrec.
      replace (epoch + 1 - 1) with epoch by lia.
      repeat split; trivial; try lia.
      symmetry. apply epochs_1_to_snoc. lia.
  - (* the results *)
    destruct Htask as [Hle Hat].
    destruct (faulty i); injection Hstep as <- <- <-.
    { split; [assumption|]. split; [assumption|].
      eapply at_row_weaken; [exact Hat|]. now intros r (Hst & _). }
    split; [|exact I].
    apply rows_after_update; auto with store.
    intros r Hin Hid. apply row_ok_update.
    destruct (Hrows r Hin) as (H1 & H2 & H3 & H4).
    destruct (Hat r Hin Hid) as (Hst & Hep & Hcur & Hrec & Hlast).
    split; [exact H1|]. split; [exact H2|]. split; [exact H3|].
    intros _. cbn [Experiment.set_results Experiment.epochs Experiment.id].
    split; [exact Hep|]. split; [now rewrite Hid|].
    exists lastEpoch. simpl. rewrite Hid. repeat split; trivial. discriminate.
  - (* status := failed *)
    destruct Htask as [Hle Hat].
    destruct (faulty i); injection Hstep as <- <- <-; [now split|].
    split; [|exact I].
    apply rows_after_update; auto with store.
    intros r Hin Hid. apply row_ok_update.
    destruct (Hrows r Hin) as (H1 & H2 & H3 & H4).
    split; [exact H1|]. split; [exact H2|]. split; [exact H3|]. discriminate.
  - injection Hstep as <- <- <-. now split.
Qed.

Lemma task_ok_bound s t id :
  task_ok s t -> task_id t = Some id -> id <= seq_experiments s.
Proof.
  destruct t; simpl; intros H Hid; try discriminate; injection Hid as ->;
    exact (proj1 H).
Qed.

(** While a task is in flight, its experiment is [queued] or [running]. *)
Lemma task_ok_status s t id :
  task_ok s t -> task_id t = Some id ->
  at_row s id (fun r => Experiment.status r = queued \/ Experiment.status r = running).
Proof.
  destruct t; simpl; intros H Hid; try discriminate; injection Hid as ->;
    (eapply at_row_weaken; [exact (proj2 H)|]); simpl; tauto.
Qed.

Lemma task_ok_deleted s s' t id :
  task_ok s t -> task_id t = Some id ->
  seq_experiments s <= seq_experiments s' ->
  (forall r, In r (experiments s') -> Experiment.id r <> id) ->
  task_ok s' t.
Proof.
  intros Hok Hid Hseq Hgone.
  assert (Hvoid : forall P, at_row s' id P).
  { intros P r Hin Hr. now apply Hgone in Hin. }
  destruct t; simpl in *; try discriminate; injection Hid as ->;
    (split; [lia|apply Hvoid]).
Qed.

Lemma NoDup_snoc {A} (l : list A) (x : A) :
  NoDup l -> ~ In x l -> NoDup (l ++ [x]).
Proof.
  intros Hl Hx. induction Hl as [|y l Hy Hl IH]; simpl.
  - constructor; [tauto|constructor].
  - constructor.
    + rewrite in_app_iff. simpl. intros [H|[H|[]]]; [tauto|].
      apply Hx. now left.
    + apply IH. intros H. apply Hx. now right.
Qed.

(** Deleting rows keeps the keys unique. *)
Lemma ids_after_delete (keep : Experiment.t -> bool) (rows : list Experiment.t) :
  NoDup (map Experiment.id rows) ->
  NoDup (map Experiment.id (filter keep rows)).
Proof.
  intros Hnd. induction rows as [|x rows IH]; simpl; [constructor|].
  inversion Hnd as [|? ? Hnotin Hnd']; subst.
  destruct (keep x); simpl; [|now apply IH].
  constructor; [|now apply IH].
  rewrite in_map_iff in *. intros (y & Hy & Hin). apply Hnotin.
  exists y. split; [assumption|]. now apply filter_In in Hin.
Qed.

(** [queueExperiment(id)] keeps the invariant, provided no task in flight
    runs [id] already. *)
Lemma queueExperiment_preserves id s ts :
  NoDup (map Experiment.id (experiments s)) ->
  (forall r, In r (experiments s) -> Experiment.id r <> id -> row_ok s r) ->
  id <= seq_experiments s ->
  (forall t, In t ts -> task_ok s t) ->
  NoDup (live_ids ts) ->
  ~ In id (live_ids ts) ->
  invariant (mkSystem (fst (db.queueExperiment id s)) (ts ++ [Timer id])).
Proof.
  intros Huniq Hrows Hle Htasks Hnd Hfresh.
  unfold db.queueExperiment. cbn [fst].
  set (s1 := Sql.update_experiment id Experiment.set_queued s).
  assert (Hsame : forall j, j <> id -> same_at j s (Sql.delete_history id s1)).
  { intros j Hj. apply same_at_trans with s1.
    - apply same_at_update; auto with store.
    - now apply same_at_delete_history. }
  assert (Hnil : recorded_epochs id (Sql.delete_history id s1) = []).
  { unfold recorded_epochs. now rewrite select_history_delete, Z.eqb_refl. }
  unfold invariant. cbn [store tasks]. repeat apply conj.
  - change (experiments (Sql.delete_history id s1)) with (experiments s1).
    unfold s1. rewrite ids_after_update; auto with store.
  - intros r' Hin.
    change (experiments (Sql.delete_history id s1)) with (experiments s1) in Hin.
    apply in_update_experiment in Hin. destruct Hin as (r & Hin & ->).
    destruct (Experiment.id r =? id) eqn:E.
    + apply Z.eqb_eq in E. unfold row_ok. simpl. rewrite E, Hnil.
      repeat split; try lia; try discriminate. now right.
    + apply Z.eqb_neq in E. apply row_ok_frame with s; auto.
  - intros t Hin. apply in_app_iff in Hin. destruct Hin as [Hin|[<-|[]]].
    + destruct (task_id t) as [j|] eqn:Hj.
      * apply task_ok_frame with s j; auto.
        apply Hsame. intros ->. apply Hfresh. apply in_live_ids. eauto.
      * destruct t; try discriminate. exact I.
    + split; [exact Hle|]. intros r' Hin Hid.
      change (experiments (Sql.delete_history id s1)) with (experiments s1) in Hin.
      apply in_update_experiment in Hin. destruct Hin as (r & Hin & ->).
      destruct (Experiment.id r =? id) eqn:E.
      * now repeat split.
      * apply Z.eqb_neq in E. contradiction.
  - rewrite live_ids_app. simpl. now apply NoDup_snoc.
Qed.

Lemma invariant_unchanged sys :
  invariant sys -> invariant (mkSystem (store sys) (tasks sys ++ [])).
Proof. rewrite app_nil_r. now destruct sys. Qed.

Lemma task_ok_Finished s t : task_id t = None -> task_ok s t.
Proof. destruct t; try discriminate. intros _. exact I. Qed.

Lemma POST_preserves now data sys response s' timers :
  invariant sys ->
  Api.POST now data (store sys) = (response, s', timers) ->
  invariant (mkSystem s' (tasks sys ++ timers)).
Proof.
  intros Hinv Hpost.
  pose proof (POST_inv now data (store sys)) as Hcase. rewrite Hpost in Hcase.
  inversion Hcase as [| | |experiment s1 Hreq Hnone Hcreate]; subst;
    try now apply invariant_unchanged.
  destruct Hinv as (Huniq & Hrows & Htasks & Hnd).
  destruct (createExperiment_returns _ _ _ _ _ Hcreate)
    as (r & Hexp & Hrows1 & Hhist1 & _ & Hseq1 & Hid & _).
  injection Hexp as ->. cbn [row].
  set (s := store sys) in *.
  assert (Hfresh : forall x, In x (experiments s) -> Experiment.id x < Experiment.id r).
  { intros x Hx. rewrite Hid. now apply next_rowid_fresh. }
  assert (Hlt : seq_experiments s < Experiment.id r).
  { rewrite Hid. unfold Sql.next_rowid. lia. }
  assert (Hsame : forall j, j <> Experiment.id r -> same_at j s s1).
  { intros j Hj. repeat split.
    - rewrite Hrows1, in_app_iff. simpl. intros [H0|[H0|[]]]; [assumption|].
      subst. contradiction.
    - intros H0. rewrite Hrows1, in_app_iff. now left.
    - unfold Sql.select_history. now rewrite Hhist1.
    - lia. }
  apply queueExperiment_preserves; trivial.
  - rewrite Hrows1, map_app. simpl. apply NoDup_snoc; [assumption|].
    rewrite in_map_iff. intros (x & Hxid & Hx). apply Hfresh in Hx. lia.
  - intros x Hx Hneq. rewrite Hrows1, in_app_iff in Hx. simpl in Hx.
    destruct Hx as [Hx|[<-|[]]]; [|contradiction].
    apply row_ok_frame with s; auto.
  - lia.
  - intros t Hin. destruct (task_id t) as [j|] eqn:Hj;
      [|now apply task_ok_Finished].
    apply task_ok_frame with s j; auto. apply Hsame.
    pose proof (task_ok_bound _ _ _ (Htasks t Hin) Hj). lia.
  - rewrite in_live_ids. intros (t & Hin & Hj).
    pose proof (task_ok_bound _ _ _ (Htasks t Hin) Hj). lia.
Qed.

Lemma DELETE_preserves id sys response s' timers :
  invariant sys ->
  Api.DELETE id (store sys) = (response, s', timers) ->
  invariant (mkSystem s' (tasks sys ++ timers)).
Proof.
  intros Hinv. unfold Api.DELETE.
  destruct (db.getExperimentDetails id (store sys)) as [experiment|];
    [|intros H; injection H as <- <- <-; now apply invariant_unchanged].
  destruct (Status_eqb _ running);
    intros H; injection H as <- <- <-; [now apply invariant_unchanged|].
  rewrite app_nil_r. destruct Hinv as (Huniq & Hrows & Htasks & Hnd).
  set (s := store sys) in *.
  assert (Hsame : forall j, j <> id -> same_at j s (db.deleteExperiment id s)).
  { intros j Hj. apply same_at_trans with (Sql.delete_history id s).
    - now apply same_at_delete_history.
    - now apply same_at_delete_experiment. }
  assert (Hgone : forall r, In r (experiments (db.deleteExperiment id s)) ->
                            In r (experiments s) /\ Experiment.id r <> id).
  { intros r Hin. simpl in Hin. apply filter_In in Hin.
    rewrite negb_true_iff, Z.eqb_neq in Hin. exact Hin. }
  unfold invariant. cbn [store tasks]. repeat apply conj.
  - simpl. now apply ids_after_delete.
  - intros r Hin. apply Hgone in Hin. destruct Hin as [Hin Hneq].
    apply row_ok_frame with s; auto.
  - intros t Hin. destruct (task_id t) as [j|] eqn:Hj;
      [|now apply task_ok_Finished].
    destruct (Z.eq_dec j id) as [->|Hneq].
    + apply task_ok_deleted with s id; auto; [reflexivity|].
      intros r Hr. now apply Hgone in Hr.
    + apply task_ok_frame with s j; auto.
  - assumption.
Qed.

Lemma POST_run_preserves id sys response s' timers :
  invariant sys ->
  Api.POST_run id (store sys) = (response, s', timers) ->
  invariant (mkSystem s' (tasks sys ++ timers)).
Proof.
  intros Hinv. unfold Api.POST_run, db.getExperimentDetails.
  destruct (Sql.select_experiment id (store sys)) as [r0|] eqn:Hsel;
    [|intros H; injection H as <- <- <-; now apply invariant_unchanged].
  cbn [row].
  destruct (Status_eqb (Experiment.status r0) running) eqn:Hrun;
    [intros H; injection H as <- <- <-; now apply invariant_unchanged|].
  destruct (Status_eqb (Experiment.status r0) queued) eqn:Hqueued;
    intros H; injection H as <- <- <-; [now apply invariant_unchanged|].
  destruct Hinv as (Huniq & Hrows & Htasks & Hnd).
  apply find_some in Hsel. destruct Hsel as [Hin0 Hid0]. apply Z.eqb_eq in Hid0.
  apply (queueExperiment_preserves id (store sys) (tasks sys)); auto.
  - rewrite <- Hid0. apply (Hrows r0 Hin0).
  - rewrite in_live_ids. intros (t & Hin & Hj).
    destruct (task_ok_status _ _ _ (Htasks t Hin) Hj r0 Hin0 Hid0) as [H|H];
      rewrite H in *; discriminate.
Qed.

Section Reachability.

Variable Math_exp : float -> float.

Lemma transition_preserves sys sys' :
  invariant sys -> transition Math_exp sys sys' -> invariant sys'.
Proof.
  intros Hinv Htrans.
  destruct Htrans as [req sys response s' timers Hreq
                     |i before t after sys s' t' trace Htasks Hstep].
  - destruct req as [now data|id|id|id]; simpl in Hreq.
    + eapply POST_preserves; eassumption.
    + unfold Api.GET in Hreq.
      destruct (db.getExperimentDetails id (store sys));
        injection Hreq as <- <- <-; now apply invariant_unchanged.
    + eapply DELETE_preserves; eassumption.
    + eapply POST_run_preserves; eassumption.
  - destruct Hinv as (Huniq & Hrows & Hok & Hnd).
    rewrite Htasks in Hok, Hnd.
    assert (Ht : task_ok (store sys) t).
    { apply Hok. apply in_app_iff. right. now left. }
    destruct (step_preserves _ _ _ _ _ _ _ Hstep Huniq Hrows Ht) as [Hrows' Ht'].
    unfold invariant. cbn [store tasks]. repeat apply conj.
    + now rewrite (step_keeps_ids _ _ _ _ _ _ _ Hstep).
    + exact Hrows'.
    + destruct (task_id t) as [id|] eqn:Hid.
      * destruct (step_frame _ _ _ _ _ _ _ id Hstep Hid) as (Hsame & _ & _).
        intros t2 Hin. apply in_app_iff in Hin.
        destruct Hin as [Hin|[<-|Hin]]; [|exact Ht'|].
        -- destruct (task_id t2) as [j|] eqn:Hj; [|now apply task_ok_Finished].
           apply task_ok_frame with (store sys) j; trivial.
           ++ apply Hsame. intros ->.
              rewrite !live_ids_app in Hnd. simpl in Hnd. rewrite Hid in Hnd.
              apply NoDup_remove_2 in Hnd. apply Hnd.
              apply in_app_iff. left. apply in_live_ids. eauto.
           ++ apply Hok. apply in_app_iff. now left.
        -- destruct (task_id t2) as [j|] eqn:Hj; [|now apply task_ok_Finished].
           apply task_ok_frame with (store sys) j; trivial.
           ++ apply Hsame. intros ->.
              rewrite !live_ids_app in Hnd. simpl in Hnd. rewrite Hid in Hnd.
              apply NoDup_remove_2 in Hnd. apply Hnd.
              apply in_app_iff. right. apply in_live_ids. eauto.
           ++ apply Hok. apply in_app_iff. right. now right.
      * destruct t; try discriminate. simpl in Hstep.
        injection Hstep as <- <- <-. intros t2 Hin. apply Hok.
        exact Hin.
    + rewrite !live_ids_app in *. simpl in *.
      destruct (task_id t) as [id|] eqn:Hid.
      * destruct (step_frame _ _ _ _ _ _ _ id Hstep Hid) as (_ & [Hid'| ->] & _).
        -- now rewrite Hid'.
        -- simpl. simpl in Hnd. now apply NoDup_remove_1 in Hnd.
      * destruct t; try discriminate. simpl in Hstep.
        injection Hstep as <- <- <-. exact Hnd.
Qed.

Lemma invariant_initial : invariant initial.
Proof.
  unfold invariant, initial. simpl. repeat split; try tauto; constructor.
Qed.

Theorem reachable_invariant sys : reachable Math_exp sys -> invariant sys.
Proof.
  induction 1 as [|sys sys' _ IH Htrans]; [exact invariant_initial|].
  now apply transition_preserves with sys.
Qed.

End Reachability.

(** ** What polling observes of one experiment *)

Lemma find_filter {A} (p q : A -> bool) (l : list A) :
  (forall x, p x = true -> q x = true) -> find p (filter q l) = find p l.
Proof.
  intros Hpq. induction l as [|x l IH]; simpl; [reflexivity|].
  destruct (q x) eqn:Hq; simpl.
  - destruct (p x); [reflexivity|exact IH].
  - destruct (p x) eqn:Hp; [|exact IH]. apply Hpq in Hp. congruence.
Qed.


Lemma select_experiment_id id s r :
  Sql.select_experiment id s = Some r ->
  In r (experiments s) /\ Experiment.id r = id.
Proof.
  intros H. apply find_some in H. now rewrite Z.eqb_eq in H.
Qed.




Section Observation.

Variable Math_exp : float -> float.




End Observation.

(** ** A completed run *)




Section CompletedRun.

Variable Math_exp : float -> float.


(** A task run on its own takes the system through reachable states. *)
Lemma exec_reachable inputs : forall t s s' t' trace before after,
  reachable Math_exp (mkSystem s (before ++ t :: after)) ->
  db.exec Math_exp inputs t s = (s', t', trace) ->
  reachable Math_exp (mkSystem s' (before ++ t' :: after)).
Proof.
  induction inputs as [|i inputs IH]; intros t s s' t' trace before after Hreach Hexec.
  - destruct t; injection Hexec as <- <- <-; exact Hreach.
  - destruct (task_id t) eqn:Hid.
    + rewrite exec_step in Hexec by (intros ->; discriminate).
      destruct (db.step Math_exp i t s) as [[s1 t1] trace1] eqn:Hstep.
      destruct (db.exec Math_exp inputs t1 s1) as [[s2 t2] trace2] eqn:Hrest.
      injection Hexec as <- <- <-.
      apply (IH t1 s1 _ _ trace2); [|exact Hrest].
      apply reachable_transition with (mkSystem s (before ++ t :: after));
        [exact Hreach|].
      now apply (advance Math_exp i before t after
                   (mkSystem s (before ++ t :: after)) s1 t1 trace1).
    + destruct t; try discriminate. injection Hexec as <- <- <-. exact Hreach.
Qed.

End CompletedRun.

(** ** The sample systems are reachable *)

Lemma queued_system_reachable Math_exp : reachable Math_exp Sample.queued_system.
Proof.
  apply reachable_transition with initial; [constructor|].
  exact (serve Math_exp (Create 0 Sample.data) initial _ _ _ eq_refl).
Qed.

Lemma completed_system_reachable :
  reachable Sample.Math_exp Sample.completed_system.
Proof.
  apply (exec_reachable Sample.Math_exp Sample.inputs (Timer 1) Sample.posted
           _ _ (snd Sample.run) [] []).
  - apply queued_system_reachable.
  - vm_compute. reflexivity.
Qed.



(** ** The order of the steps of an epoch *)

(** What the runner does for epoch [e], in the order it does it. *)
Definition epoch_steps (id e : Z) : list Event :=
  [SetCurrentEpoch id e; Sleep 1000; Simulate e; AppendHistory id e].

(** What the history of [id] holds when an event has just happened. *)
Definition history_at (id : Z) (x : Event * Store) : Prop :=
  match fst x with
  | SetCurrentEpoch _ e =>
      recorded_epochs id (snd x) = epochs_1_to (e - 1) /\
      at_row (snd x) id (fun r => Experiment.current_epoch r = e)
  | Simulate e => recorded_epochs id (snd x) = epochs_1_to (e - 1)
  | AppendHistory _ e => recorded_epochs id (snd x) = epochs_1_to e
  | _ => True
  end.

(** How a run ends after its last epoch. *)
Definition run_end (id epochs : Z) : list Event :=
  if 1 <=? epochs then [StoreResults id] else [SetStatus id failed].

Section EpochOrder.

Variable Math_exp : float -> float.

Lemma exec_loop_exit id experiment startTime epoch s i1 i2 inputs :
  faulty i1 = false -> faulty i2 = false ->
  Experiment.epochs (row experiment) < epoch ->
  recorded_epochs id s = epochs_1_to (Experiment.epochs (row experiment)) ->
  exists s',
    db.exec Math_exp (i1 :: i2 :: inputs) (AtLoop id experiment startTime epoch) s
    = (s', Finished,
       [(if 1 <=? Experiment.epochs (row experiment)
         then StoreResults id else SetStatus id failed, s')]).
Proof.
  intros Hf1 Hf2 Hlt Hrec.
  rewrite exec_step by discriminate. cbn [db.step].
  destruct (Z.leb_spec epoch (Experiment.epochs (row experiment))); [lia|].
  rewrite Hf1.
  destruct (Z.leb_spec 1 (Experiment.epochs (row experiment))) as [Hpos|Hneg].
  - destruct (last_by_epoch_some (Sql.select_history id s)) as (lastEpoch & Hlast).
    { intros Hnil. unfold recorded_epochs in Hrec. rewrite Hnil in Hrec.
      rewrite epochs_1_to_snoc in Hrec by lia. now destruct (epochs_1_to _). }
    rewrite Hlast, exec_step by discriminate. cbn [db.step]. rewrite Hf2.
    rewrite exec_Finished. eexists. reflexivity.
  - rewrite epochs_1_to_nil in Hrec by lia. apply recorded_epochs_nil in Hrec.
    rewrite Hrec. cbn [Sql.last_by_epoch].
    rewrite exec_step by discriminate. cbn [db.step]. rewrite Hf2.
    rewrite exec_Finished. eexists. reflexivity.
Qed.

Lemma exec_loop id experiment startTime :
  forall (n : nat) (epoch : Z) (inputs : list Input) (s : Store),
    1 <= epoch <= Z.max 0 (Experiment.epochs (row experiment)) + 1 ->
    n = Z.to_nat (Experiment.epochs (row experiment) - epoch + 1) ->
    Forall (fun i => faulty i = false) inputs ->
    (3 * n + 2 <= List.length inputs)%nat ->
    recorded_epochs id s = epochs_1_to (epoch - 1) ->
    exists s' trace,
      db.exec Math_exp inputs (AtLoop id experiment startTime epoch) s
      = (s', Finished, trace) /\
      map fst trace
      = flat_map (epoch_steps id) (range epoch n)
        ++ run_end id (Experiment.epochs (row experiment)) /\
      Forall (history_at id) trace.
Proof.
  induction n as [|n IH]; intros epoch inputs s Hepoch Hn Hfault Hlen Hrec.
  - (* the loop is over *)
    destruct inputs as [|i1 [|i2 inputs]]; simpl in Hlen; try lia.
    inversion Hfault as [|? ? Hf1 Hfault1]; subst.
    inversion Hfault1 as [|? ? Hf2 _]; subst.
    destruct (exec_loop_exit id experiment startTime epoch s i1 i2 inputs Hf1 Hf2)
      as (s' & Hexec); [lia| |].
    { rewrite Hrec. destruct (Z.eq_dec (epoch - 1) (Experiment.epochs (row experiment)))
        as [->|Hneq]; [reflexivity|].
      rewrite !epochs_1_to_nil by lia. reflexivity. }
    eexists _, _. split; [exact Hexec|]. split.
    + simpl. unfold run_end. now destruct (1 <=? _).
    + repeat constructor. unfold history_at. simpl. now destruct (1 <=? _).
  - (* one more epoch *)
    destruct inputs as [|i1 [|i2 [|i3 inputs]]]; simpl in Hlen; try lia.
    inversion Hfault as [|? ? Hf1 Hfault1]; subst.
    inversion Hfault1 as [|? ? Hf2 Hfault2]; subst.
    inversion Hfault2 as [|? ? Hf3 Hfault3]; subst.
    set (s1 := Sql.update_experiment id (Experiment.set_current_epoch epoch) s).
    set (m := db.simulateMetrics Math_exp epoch i3).
    set (s2 := Sql.insert_history id epoch (trainLoss m) (valLoss m)
                 (trainAcc m) (valAcc m) s1).
    assert (Hrec2 : recorded_epochs id s2 = epochs_1_to epoch).
    { unfold s2. rewrite recorded_epochs_insert. unfold s1.
      rewrite recorded_epochs_update, Hrec. symmetry. apply epochs_1_to_snoc. lia. }
    destruct (IH (epoch + 1) inputs s2) as (s' & trace & Hexec & Hevents & Hhist);
      try lia; trivial.
    { now replace (epoch + 1 - 1) with epoch by lia. }
    exists s', ((SetCurrentEpoch id epoch, s1) :: (Sleep 1000, s1)
                :: (Simulate epoch, s1) :: (AppendHistory id epoch, s2) :: trace).
    split; [|split].
    + rewrite exec_step by discriminate. cbn [db.step].
      destruct (Z.leb_spec epoch (Experiment.epochs (row experiment))); [|lia].
      rewrite Hf1. fold s1.
      rewrite exec_step by discriminate. cbn [db.step].
      rewrite exec_step by discriminate. cbn [db.step]. rewrite Hf3.
      fold m. fold s2. now rewrite Hexec.
    + cbn [map fst range flat_map epoch_steps app]. now rewrite Hevents.
    + assert (Hset : history_at id (SetCurrentEpoch id epoch, s1)).
      { split; [exact Hrec|].
        apply at_row_after_update with (P := fun _ => True); auto with store.
        intros r _ _. exact I. }
      constructor; [exact Hset|]. constructor; [exact I|].
      constructor; [exact Hrec|]. constructor; [exact Hrec2|]. exact Hhist.
Qed.

(** C2, as amended.  A run without outages of an experiment of [epochs]
    epochs, started on an empty history as [queueExperiment] leaves it,
    sets the status to [running] and then, for [e = 1, ..., epochs] in
    turn, does four things in this order: it sets the current epoch to
    [e], waits for the delay of the epoch, computes the metrics of [e] and
    appends the history row of [e]; then it stores the results, or fails
    when there was no epoch.  When the current epoch has just been set to
    [e], the history holds the epochs [1, ..., e - 1]; the row of [e] is
    there once it has been appended. *)
Theorem epoch_steps_in_order :
  forall inputs id s r,
    Sql.select_experiment id s = Some r ->
    Sql.select_history id s = [] ->
    Forall (fun i => faulty i = false) inputs ->
    (3 * Z.to_nat (Experiment.epochs r) + 4 <= List.length inputs)%nat ->
    exists s' trace,
      db.runExperiment Math_exp inputs id s = (s', Finished, trace) /\
      map fst trace
      = SetStatus id running
        :: flat_map (epoch_steps id) (epochs_1_to (Experiment.epochs r))
        ++ run_end id (Experiment.epochs r) /\
      (forall e s1,
         In (SetCurrentEpoch id e, s1) trace ->
         recorded_epochs id s1 = epochs_1_to (e - 1) /\
         at_row s1 id (fun r1 => Experiment.current_epoch r1 = e)) /\
      (forall e s1,
         In (AppendHistory id e, s1) trace ->
         recorded_epochs id s1 = epochs_1_to e).
Proof.
  intros inputs id s r Hsel Hnil Hfault Hlen.
  destruct inputs as [|i1 [|i2 inputs]]; simpl in Hlen; try lia.
  inversion Hfault as [|? ? Hf1 Hfault1]; subst.
  inversion Hfault1 as [|? ? Hf2 Hfault2]; subst.
  set (experiment := mkExperimentDetails r
         (Sql.order_by_epoch (map db.to_history (Sql.select_history id s)))).
  set (s1 := Sql.update_experiment id (Experiment.set_status running) s).
  destruct (exec_loop id experiment (now i2)
              (Z.to_nat (Experiment.epochs r)) 1 inputs s1)
    as (s' & trace & Hexec & Hevents & Hhist); cbn [row experiment]; try lia; trivial.
  { unfold s1. rewrite recorded_epochs_update. unfold recorded_epochs.
    now rewrite Hnil. }
  exists s', ((SetStatus id running, s1) :: trace). split; [|split; [|split]].
  - unfold db.runExperiment. rewrite exec_step by discriminate.
    cbn [db.step]. rewrite Hf1. unfold db.getExperimentDetails. rewrite Hsel.
    fold experiment. rewrite exec_step by discriminate. cbn [db.step].
    rewrite Hf2. fold s1. now rewrite Hexec.
  - cbn [map fst]. now rewrite Hevents.
  - intros e s2 [Hin|Hin]; [discriminate|].
    rewrite Forall_forall in Hhist. exact (Hhist _ Hin).
  - intros e s2 [Hin|Hin]; [discriminate|].
    rewrite Forall_forall in Hhist. exact (Hhist _ Hin).
Qed.

End EpochOrder.

(** C2 as stated fails: in the sample run, when the current epoch has just
    been set to 1 the history has no row of epoch 1 yet. *)
Lemma current_epoch_set_before_history :
  ~ (forall inputs id s s' t trace e s1,
       db.runExperiment Sample.Math_exp inputs id s = (s', t, trace) ->
       In (SetCurrentEpoch id e, s1) trace ->
       In e (recorded_epochs id s1)).
Proof.
  intros H.
  eassert (Hin : In (SetCurrentEpoch 1 1, _) (snd Sample.run))
    by (vm_compute; right; left; reflexivity).
  specialize (H Sample.inputs 1 Sample.posted _ _ _ 1 _ eq_refl Hin).
  vm_compute in H. exact H.
Qed.

Lemma epoch_steps_in_order_witness :
  Sql.select_experiment 1 Sample.posted
    = Some (Experiment.mk 1 "baseline" 0.01%float 64 3 "adam" "simple" 2 128
              queued 0 None None None 0) /\
  Sql.select_history 1 Sample.posted = [] /\
  Forall (fun i => faulty i = false) Sample.inputs /\
  (3 * Z.to_nat 3 + 4 <= List.length Sample.inputs)%nat /\
  exists s' trace,
    db.runExperiment Sample.Math_exp Sample.inputs 1 Sample.posted
      = (s', Finished, trace) /\
    map fst trace
    = SetStatus 1 running
      :: flat_map (epoch_steps 1) (epochs_1_to 3) ++ run_end 1 3 /\
    (forall e s1,
       In (SetCurrentEpoch 1 e, s1) trace ->
       recorded_epochs 1 s1 = epochs_1_to (e - 1) /\
       at_row s1 1 (fun r1 => Experiment.current_epoch r1 = e)) /\
    (forall e s1,
       In (AppendHistory 1 e, s1) trace ->
       recorded_epochs 1 s1 = epochs_1_to e).
Proof.
  assert (Hfault : Forall (fun i => faulty i = false) Sample.inputs)
    by (repeat constructor).
  assert (Hlen : (3 * Z.to_nat 3 + 4 <= List.length Sample.inputs)%nat)
    by (vm_compute; repeat constructor).
  split; [reflexivity|]. split; [reflexivity|]. split; [exact Hfault|].
  split; [exact Hlen|].
  exact (epoch_steps_in_order Sample.Math_exp Sample.inputs 1 Sample.posted _
           eq_refl eq_refl Hfault Hlen).
Defined.

(** ** The recorded metrics *)

(** The metrics of a history row are those [simulateMetrics] computes for
    the epoch of the row from the draws of [i]. *)
Definition simulated (Math_exp : float -> float) (i : Input) (h : History.t) : Prop :=
  let e := JS.Number (History.epoch h) in
  History.train_loss h = (0.5 * Math_exp (-0.1 * e) + 0.1 * random1 i)%float /\
  History.val_loss h = (0.6 * Math_exp (-0.1 * e) + 0.15 * random2 i)%float /\
  History.train_acc h = (0.9 - 0.5 * Math_exp (-0.2 * e) + 0.05 * random3 i)%float /\
  History.val_acc h = (0.85 - 0.5 * Math_exp (-0.2 * e) + 0.05 * random4 i)%float.

Lemma handle_history req s response s' timers h :
  handle req s = (response, s', timers) ->
  In h (experiment_history s') -> In h (experiment_history s).
Proof.
  intros Hreq Hin. destruct req as [now data|id|id|id]; simpl in Hreq.
  - pose proof (POST_inv now data s) as Hcase. rewrite Hreq in Hcase.
    inversion Hcase as [| | |experiment s1 _ _ Hcreate]; subst; trivial.
    destruct (createExperiment_returns _ _ _ _ _ Hcreate)
      as (r & _ & _ & Hhist & _).
    simpl in Hin. apply filter_In in Hin. now rewrite <- Hhist.
  - unfold Api.GET in Hreq.
    destruct (db.getExperimentDetails id s); now injection Hreq as <- <- <-.
  - unfold Api.DELETE in Hreq.
    destruct (db.getExperimentDetails id s); [|now injection Hreq as <- <- <-].
    destruct (Status_eqb _ _); injection Hreq as <- <- <-; trivial.
    simpl in Hin. now apply filter_In in Hin.
  - unfold Api.POST_run in Hreq.
    destruct (db.getExperimentDetails id s); [|now injection Hreq as <- <- <-].
    destruct (_ || _); injection Hreq as <- <- <-; trivial.
    simpl in Hin. now apply filter_In in Hin.
Qed.

Section RecordedMetrics.

Variable Math_exp : float -> float.

Lemma step_history i t s s' t' trace h :
  db.step Math_exp i t s = (s', t', trace) ->
  In h (experiment_history s') ->
  In h (experiment_history s) \/ simulated Math_exp i h.
Proof.
  intros Hstep Hin.
  destruct t; unfold db.step in Hstep;
    repeat match type of Hstep with
           | context [if ?b then _ else _] => destruct b
           | context [match ?x with Some _ => _ | None => _ end] => destruct x
           end;
    injection Hstep as <- <- <-; auto.
  simpl in Hin. apply in_app_iff in Hin. destruct Hin as [Hin|[<-|[]]]; [auto|].
  right. repeat split.
Qed.

Lemma reachable_history sys :
  reachable Math_exp sys ->
  forall h, In h (experiment_history (store sys)) ->
            exists i, simulated Math_exp i h.
Proof.
  induction 1 as [|sys sys' _ IH Htrans]; intros h Hin; [contradiction|].
  destruct Htrans as [req sys response s' timers Hreq
                     |i before t after sys s' t' trace Htasks Hstep];
    cbn [store] in Hin.
  - apply IH. eapply handle_history; eassumption.
  - destruct (step_history _ _ _ _ _ _ _ Hstep Hin) as [Hold|Hnew]; eauto.
Qed.

(** C7.  The step that records epoch [e] appends one history row, whose
    metrics are [0.5 exp(-0.1 e) + 0.1 U1], [0.6 exp(-0.1 e) + 0.15 U2],
    [0.9 - 0.5 exp(-0.2 e) + 0.05 U3] and [0.85 - 0.5 exp(-0.2 e) + 0.05 U4],
    with [U1] to [U4] the values of four successive calls of
    [Math.random()]; the row is the same whatever the record of the
    experiment, so no hyperparameter enters it.  Every history row of a
    reachable state has metrics of this form. *)
Theorem recorded_metrics :
  (forall i id e s,
     faulty i = false ->
     exists h,
       History.experiment_id h = id /\ History.epoch h = e /\
       simulated Math_exp i h /\
       forall experiment startTime,
         fst (fst (db.step Math_exp i (AtSimulate id experiment startTime e) s))
         = mkStore (experiments s) (experiment_history s ++ [h])
             (seq_experiments s) (History.id h)) /\
  (forall sys h,
     reachable Math_exp sys ->
     In h (experiment_history (store sys)) ->
     exists i, simulated Math_exp i h).
Proof.
  split.
  - intros i id e s Hfault.
    set (m := db.simulateMetrics Math_exp e i).
    exists (History.mk
              (Sql.next_rowid History.id (experiment_history s) (seq_history s))
              id e (trainLoss m) (valLoss m) (trainAcc m) (valAcc m)).
    split; [reflexivity|]. split; [reflexivity|].
    split; [repeat split; reflexivity|].
    intros experiment startTime. cbn [db.step]. rewrite Hfault. reflexivity.
  - intros sys h Hreach Hin. exact (reachable_history sys Hreach h Hin).
Qed.

End RecordedMetrics.

Lemma recorded_metrics_witness :
  faulty (Sample.input 7) = false /\
  (exists h,
     History.experiment_id h = 1 /\ History.epoch h = 2 /\
     simulated Sample.Math_exp (Sample.input 7) h /\
     forall experiment startTime,
       fst (fst (db.step Sample.Math_exp (Sample.input 7)
                   (AtSimulate 1 experiment startTime 2) Sample.posted))
       = mkStore (experiments Sample.posted)
           (experiment_history Sample.posted ++ [h])
           (seq_experiments Sample.posted) (History.id h)) /\
  reachable Sample.Math_exp Sample.completed_system /\
  (forall h,
     In h (experiment_history (store Sample.completed_system)) ->
     exists i, simulated Sample.Math_exp i h).
Proof.
  split; [reflexivity|]. split.
  - exact (proj1 (recorded_metrics Sample.Math_exp) (Sample.input 7) 1 2
             Sample.posted eq_refl).
  - split; [exact completed_system_reachable|].
    intros h. exact (proj2 (recorded_metrics Sample.Math_exp)
                       Sample.completed_system h completed_system_reachable).
Defined.

(** * Further properties of the store and of the runner *)

(** ** Consequences of the invariant *)

Section Consequences.

Variable Math_exp : float -> float.

(** X1.  With requests served one at a time, no two timers or runners in
    flight are for the same experiment, and an experiment that has one is
    [queued] or [running]. *)
Theorem one_run_per_experiment :
  forall sys,
    reachable Math_exp sys ->
    NoDup (live_ids (tasks sys)) /\
    (forall t r,
       In t (tasks sys) -> In r (experiments (store sys)) ->
       task_id t = Some (Experiment.id r) ->
       Experiment.status r = queued \/ Experiment.status r = running).
Proof.
  intros sys Hreach. apply reachable_invariant in Hreach.
  destruct Hreach as (_ & _ & Htasks & Hnd). split; [exact Hnd|].
  intros t r Ht Hr Hid.
  exact (task_ok_status _ _ _ (Htasks t Ht) Hid r Hr eq_refl).
Qed.

(** X2.  With requests served one at a time, in every reachable state the
    history of every experiment, whatever its status, is numbered
    [1, 2, ..., k] without gap or repetition, in the order of insertion,
    where [k] is its current epoch or the epoch before: an interrupted or
    failed run leaves a prefix of the epochs. *)
Theorem history_is_contiguous :
  forall sys r,
    reachable Math_exp sys ->
    In r (experiments (store sys)) ->
    exists k,
      (k = Experiment.current_epoch r \/ k = Experiment.current_epoch r - 1) /\
      0 <= Experiment.current_epoch r /\
      map History.epoch (Sql.select_history (Experiment.id r) (store sys))
      = epochs_1_to k.
Proof.
  intros sys r Hreach Hin. apply reachable_invariant in Hreach.
  destruct Hreach as (_ & Hrows & _).
  destruct (Hrows r Hin) as (_ & Hcur & [Hrec|Hrec] & _).
  - exists (Experiment.current_epoch r - 1). repeat split; auto; lia.
  - exists (Experiment.current_epoch r). repeat split; auto; lia.
Qed.

End Consequences.

Lemma one_run_per_experiment_witness :
  reachable Sample.Math_exp Sample.queued_system /\
  NoDup (live_ids (tasks Sample.queued_system)) /\
  (forall t r,
     In t (tasks Sample.queued_system) ->
     In r (experiments (store Sample.queued_system)) ->
     task_id t = Some (Experiment.id r) ->
     Experiment.status r = queued \/ Experiment.status r = running).
Proof.
  split; [exact (queued_system_reachable Sample.Math_exp)|].
  exact (one_run_per_experiment Sample.Math_exp Sample.queued_system
           (queued_system_reachable Sample.Math_exp)).
Defined.

Lemma history_is_contiguous_witness :
  exists r,
    reachable Sample.Math_exp Sample.completed_system /\
    In r (experiments (store Sample.completed_system)) /\
    exists k,
      (k = Experiment.current_epoch r \/ k = Experiment.current_epoch r - 1) /\
      0 <= Experiment.current_epoch r /\
      map History.epoch
        (Sql.select_history (Experiment.id r) (store Sample.completed_system))
      = epochs_1_to k.
Proof.
  eassert (Hin : In _ (experiments (store Sample.completed_system)))
    by (vm_compute; left; reflexivity).
  eexists. split; [exact completed_system_reachable|]. split; [exact Hin|].
  exact (history_is_contiguous Sample.Math_exp Sample.completed_system _
           completed_system_reachable Hin).
Defined.

(** ** How requests and steps change the rows *)

(** A row after a request: an old row as it was, an old row put back in the
    queue, or a new row, queued, whose key is above every key handed out. *)
Lemma handle_rows req s response s' timers r' :
  handle req s = (response, s', timers) ->
  In r' (experiments s') ->
  In r' (experiments s) \/
  (exists r, In r (experiments s) /\ r' = Experiment.set_queued r) \/
  (seq_experiments s < Experiment.id r' /\ Experiment.status r' = queued).
Proof.
  intros Hreq Hin. destruct req as [now data|id|id|id]; simpl in Hreq.
  - pose proof (POST_inv now data s) as Hcase. rewrite Hreq in Hcase.
    inversion Hcase as [| | |experiment s1 _ _ Hcreate]; subst; auto.
    destruct (createExperiment_returns _ _ _ _ _ Hcreate)
      as (r1 & Hexp & Hrows1 & _ & _ & _ & Hid1 & _).
    injection Hexp as ->. cbn [row fst db.queueExperiment] in Hin.
    change (experiments (Sql.delete_history ?i ?x)) with (experiments x) in Hin.
    apply in_update_experiment in Hin. destruct Hin as (r & Hr & ->).
    rewrite Hrows1 in Hr. apply in_app_iff in Hr.
    destruct (Experiment.id r =? Experiment.id r1) eqn:E.
    + right. right. split; [|reflexivity]. apply Z.eqb_eq in E. simpl.
      rewrite E, Hid1. unfold Sql.next_rowid. lia.
    + left. destruct Hr as [Hr|[<-|[]]]; [exact Hr|].
      now rewrite Z.eqb_refl in E.
  - unfold Api.GET in Hreq.
    destruct (db.getExperimentDetails id s); injection Hreq as <- <- <-; auto.
  - unfold Api.DELETE in Hreq.
    destruct (db.getExperimentDetails id s); [|injection Hreq as <- <- <-; auto].
    destruct (Status_eqb _ _); injection Hreq as <- <- <-; auto.
    left. simpl in Hin. now apply filter_In in Hin.
  - unfold Api.POST_run in Hreq.
    destruct (db.getExperimentDetails id s); [|injection Hreq as <- <- <-; auto].
    destruct (_ || _); injection Hreq as <- <- <-; auto.
    cbn [fst db.queueExperiment] in Hin.
    change (experiments (Sql.delete_history ?i ?x)) with (experiments x) in Hin.
    apply in_update_experiment in Hin. destruct Hin as (r & Hr & ->).
    destruct (Experiment.id r =? id); eauto.
Qed.

Lemma handle_sequence req s response s' timers :
  handle req s = (response, s', timers) ->
  seq_experiments s <= seq_experiments s'.
Proof.
  intros Hreq. destruct req as [now data|id|id|id]; simpl in Hreq.
  - pose proof (POST_inv now data s) as Hcase. rewrite Hreq in Hcase.
    inversion Hcase as [| | |experiment s1 _ _ Hcreate]; subst; try lia.
    destruct (createExperiment_returns _ _ _ _ _ Hcreate)
      as (r1 & Hexp & _ & _ & _ & Hseq1 & Hid1 & _).
    simpl. rewrite Hseq1, Hid1. unfold Sql.next_rowid. lia.
  - unfold Api.GET in Hreq.
    destruct (db.getExperimentDetails id s); injection Hreq as <- <- <-; lia.
  - unfold Api.DELETE in Hreq.
    destruct (db.getExperimentDetails id s); [|injection Hreq as <- <- <-; lia].
    destruct (Status_eqb _ _); injection Hreq as <- <- <-; simpl; lia.
  - unfold Api.POST_run in Hreq.
    destruct (db.getExperimentDetails id s); [|injection Hreq as <- <- <-; lia].
    destruct (_ || _); injection Hreq as <- <- <-; simpl; lia.
Qed.

(** A row after a step of a task: an old row as it was, or the row of the
    task with its status kept or set to [running], [completed] or [failed]. *)
Lemma step_rows Math_exp i t s s' t' trace r' :
  db.step Math_exp i t s = (s', t', trace) ->
  In r' (experiments s') ->
  In r' (experiments s) \/
  exists r,
    In r (experiments s) /\
    task_id t = Some (Experiment.id r) /\
    Experiment.id r' = Experiment.id r /\
    (Experiment.status r' = Experiment.status r \/
     Experiment.status r' = running \/
     Experiment.status r' = completed \/
     Experiment.status r' = failed).
Proof.
  intros Hstep Hin.
  assert (Hupd : forall id f,
            task_id t = Some id ->
            (forall r, Experiment.id (f r) = Experiment.id r /\
                       (Experiment.status (f r) = Experiment.status r \/
                        Experiment.status (f r) = running \/
                        Experiment.status (f r) = completed \/
                        Experiment.status (f r) = failed)) ->
            In r' (experiments (Sql.update_experiment id f s)) ->
            In r' (experiments s) \/
            exists r,
              In r (experiments s) /\
              task_id t = Some (Experiment.id r) /\
              Experiment.id r' = Experiment.id r /\
              (Experiment.status r' = Experiment.status r \/
               Experiment.status r' = running \/
               Experiment.status r' = completed \/
               Experiment.status r' = failed)).
  { intros id f Hid Hf Hr'. apply in_update_experiment in Hr'.
    destruct Hr' as (r & Hr & ->). destruct (Experiment.id r =? id) eqn:E; auto.
    apply Z.eqb_eq in E. right. exists r. rewrite E.
    destruct (Hf r) as [H1 H2]. rewrite H1. auto. }
  destruct t; unfold db.step in Hstep;
    repeat match type of Hstep with
           | context [if ?b then _ else _] => destruct b
           | context [match ?x with Some _ => _ | None => _ end] => destruct x
           end;
    injection Hstep as <- <- <-; auto;
    (eapply Hupd; [reflexivity| |exact Hin]); intros r; simpl; auto.
Qed.

Lemma step_select_other Math_exp i t s s' t' trace id0 id :
  db.step Math_exp i t s = (s', t', trace) ->
  task_id t = Some id0 -> id <> id0 ->
  Sql.select_experiment id s' = Sql.select_experiment id s.
Proof.
  intros Hstep Hid Hneq.
  assert (Hupd : forall f, keeps_configuration f ->
            Sql.select_experiment id (Sql.update_experiment id0 f s)
            = Sql.select_experiment id s).
  { intros f Hf. rewrite select_experiment_update by assumption.
    destruct (Sql.select_experiment id s) as [r|] eqn:Hsel; [|reflexivity].
    apply select_experiment_id in Hsel. destruct Hsel as [_ Hr]. simpl.
    destruct (Z.eqb_spec (Experiment.id r) id0); [lia|reflexivity]. }
  destruct t; simpl in Hid; try discriminate; injection Hid as ->;
    unfold db.step in Hstep;
    repeat match type of Hstep with
           | context [if ?b then _ else _] => destruct b
           | context [match ?x with Some _ => _ | None => _ end] => destruct x
           end;
    injection Hstep as <- <- <-; auto with store.
Qed.

Section Lifecycle.

Variable Math_exp : float -> float.

(** X3.  Keys are unique and never reused: across a transition the sequence
    of [experiments] never decreases, every key present is at most the
    sequence, and a row whose key was not present before has a key above the
    sequence, hence above every key ever handed out, deleted rows
    included. *)
Theorem ids_are_never_reused :
  forall sys sys',
    reachable Math_exp sys ->
    transition Math_exp sys sys' ->
    NoDup (map Experiment.id (experiments (store sys'))) /\
    seq_experiments (store sys) <= seq_experiments (store sys') /\
    (forall r, In r (experiments (store sys)) ->
               Experiment.id r <= seq_experiments (store sys)) /\
    (forall r', In r' (experiments (store sys')) ->
       (exists r, In r (experiments (store sys)) /\
                  Experiment.id r' = Experiment.id r) \/
       seq_experiments (store sys) < Experiment.id r').
Proof.
  intros sys sys' Hreach Htrans.
  pose proof (reachable_invariant Math_exp _ Hreach) as Hinv.
  pose proof (transition_preserves Math_exp _ _ Hinv Htrans) as Hinv'.
  split; [exact (proj1 Hinv')|].
  destruct Hinv as (_ & Hrows & _).
  destruct Htrans as [req sys response s' timers Hreq
                     |i before t after sys s' t' trace Htasks Hstep];
    cbn [store].
  - split; [exact (handle_sequence _ _ _ _ _ Hreq)|].
    split; [intros r Hr; exact (proj1 (Hrows r Hr))|].
    intros r' Hr'.
    destruct (handle_rows _ _ _ _ _ _ Hreq Hr') as [H|[(r & Hr & ->)|[H _]]];
      eauto.
  - assert (Hseq : seq_experiments s' = seq_experiments (store sys)).
    { destruct (task_id t) as [id|] eqn:Hid.
      - exact (proj2 (proj2 (step_frame _ _ _ _ _ _ _ id Hstep Hid))).
      - destruct t; try discriminate. now injection Hstep as <- <- <-. }
    split; [lia|]. split; [intros r Hr; exact (proj1 (Hrows r Hr))|].
    intros r' Hr'. left.
    destruct (step_rows _ _ _ _ _ _ _ _ Hstep Hr') as [H|(r & Hr & _ & Hid & _)];
      eauto.
Qed.

(** X5.  With requests served one at a time, [completed] and [failed] are
    final for the runner: across a transition, the record of an experiment
    in one of these states stays as it is, unless a request deletes it or
    puts it back in the queue with current epoch 0. *)
Theorem terminal_status_is_left_by_requests_only :
  forall sys sys' id r,
    reachable Math_exp sys ->
    transition Math_exp sys sys' ->
    Sql.select_experiment id (store sys) = Some r ->
    Experiment.status r = completed \/ Experiment.status r = failed ->
    Sql.select_experiment id (store sys') = Some r \/
    Sql.select_experiment id (store sys') = None \/
    Sql.select_experiment id (store sys') = Some (Experiment.set_queued r).
Proof.
  intros sys sys' id r Hreach Htrans Hsel Hfinal.
  apply reachable_invariant in Hreach. destruct Hreach as (_ & _ & Hok & _).
  destruct (select_experiment_id _ _ _ Hsel) as [Hin Hid].
  destruct Htrans as [req sys response s' timers Hreq
                     |i before t after sys s' t' trace Htasks Hstep];
    cbn [store].
  - destruct req as [now data|id0|id0|id0]; simpl in Hreq.
    + pose proof (POST_inv now data (store sys)) as Hcase. rewrite Hreq in Hcase.
      inversion Hcase as [| | |experiment s1 _ _ Hcreate]; subst; auto.
      destruct (createExperiment_returns _ _ _ _ _ Hcreate)
        as (r1 & Hexp & Hrows1 & _ & _ & _ & Hid1 & _).
      injection Hexp as ->. cbn [row fst db.queueExperiment]. left.
      rewrite select_experiment_delete_history, select_experiment_update
        by auto with store.
      unfold Sql.select_experiment at 1. rewrite Hrows1.
      rewrite (find_some_app _ _ _ _ Hsel). cbn [option_map].
      pose proof (next_rowid_fresh Experiment.id _
                    (seq_experiments (store sys)) _ Hin) as Hlt.
      rewrite <- Hid1 in Hlt.
      destruct (Z.eqb_spec (Experiment.id r) (Experiment.id r1)); [lia|reflexivity].
    + unfold Api.GET in Hreq.
      destruct (db.getExperimentDetails id0 (store sys));
        injection Hreq as <- <- <-; auto.
    + unfold Api.DELETE in Hreq.
      destruct (db.getExperimentDetails id0 (store sys));
        [|injection Hreq as <- <- <-; auto].
      destruct (Status_eqb _ running); injection Hreq as <- <- <-; auto.
      unfold db.deleteExperiment, Sql.select_experiment. simpl.
      destruct (Z.eq_dec id id0) as [->|Hneq].
      * right. left. destruct (find _ _) as [x|] eqn:Hfind; [|reflexivity].
        apply find_some in Hfind. destruct Hfind as [Hx Hxid].
        apply filter_In in Hx. destruct Hx as [_ Hx].
        rewrite Hxid in Hx. discriminate.
      * left. rewrite find_filter; [exact Hsel|].
        intros x Hx. apply Z.eqb_eq in Hx. apply negb_true_iff, Z.eqb_neq. lia.
    + unfold Api.POST_run in Hreq.
      destruct (db.getExperimentDetails id0 (store sys));
        [|injection Hreq as <- <- <-; auto].
      destruct (_ || _); injection Hreq as <- <- <-; auto.
      cbn [fst db.queueExperiment].
      rewrite select_experiment_delete_history, select_experiment_update, Hsel
        by auto with store.
      cbn [option_map]. destruct (Experiment.id r =? id0); auto.
  - left. rewrite <- Hsel.
    destruct (task_id t) as [id0|] eqn:Ht.
    + apply (step_select_other _ _ _ _ _ _ _ id0 id Hstep Ht).
      intros ->.
      assert (Hlive : In t (tasks sys)).
      { rewrite Htasks. apply in_app_iff. right. now left. }
      destruct (task_ok_status _ _ _ (Hok t Hlive) Ht r Hin Hid) as [H|H];
        destruct Hfinal as [H'|H']; congruence.
    + destruct t; try discriminate. now injection Hstep as <- <- <-.
Qed.

End Lifecycle.

(** ** Requests, one by one *)

Lemma serve_transition Math_exp req sys :
  transition Math_exp sys
    (mkSystem (snd (fst (handle req (store sys))))
       (tasks sys ++ snd (handle req (store sys)))).
Proof.
  destruct (handle req (store sys)) as [[response s'] timers] eqn:Hreq.
  exact (serve Math_exp req sys response s' timers Hreq).
Qed.

(** The row [createExperiment] inserts. *)
Lemma createExperiment_row now data s experiment s1 :
  db.createExperiment now data s = Returned (experiment, s1) ->
  exists name learning_rate batch_size epochs optimizer model_type
         hidden_layers neurons_per_layer,
    data = mkExperimentData (Some name) (Some learning_rate) (Some batch_size)
             (Some epochs) (Some optimizer) (Some model_type)
             (Some hidden_layers) (Some neurons_per_layer) /\
    experiments s1
    = experiments s ++
      [Experiment.mk
         (Sql.next_rowid Experiment.id (experiments s) (seq_experiments s))
         name learning_rate batch_size epochs optimizer model_type
         hidden_layers neurons_per_layer not_started now None None None 0].
Proof.
  unfold db.createExperiment. destruct data as [n lr bs ep opt mt hl npl]. simpl.
  destruct n as [n|]; [|discriminate]. destruct lr as [lr|]; [|discriminate].
  destruct bs as [bs|]; [|discriminate]. destruct ep as [ep|]; [|discriminate].
  destruct opt as [opt|]; [|discriminate]. destruct mt as [mt|]; [|discriminate].
  destruct hl as [hl|]; [|discriminate]. destruct npl as [npl|]; [|discriminate].
  intros H. injection H as _ <-.
  exists n, lr, bs, ep, opt, mt, hl, npl. split; reflexivity.
Qed.

(** X6.  Create, then fetch: after a 201, [GET /api/experiments/{id}] for
    the id of the response answers 200 with the record that holds the name
    and the configuration that were posted and the time of creation, status
    [queued], current epoch 0, no accuracy, loss or duration, and an empty
    history; one timer was set, for this id. *)
Theorem create_then_fetch :
  forall now data s response s' timers,
    Api.POST now data s = (response, s', timers) ->
    code response = 201 ->
    exists id name learning_rate batch_size epochs optimizer model_type
           hidden_layers neurons_per_layer,
      data = mkExperimentData (Some name) (Some learning_rate) (Some batch_size)
               (Some epochs) (Some optimizer) (Some model_type)
               (Some hidden_layers) (Some neurons_per_layer) /\
      (exists posted, body response = JsonExperiment posted /\
                      Experiment.id (row posted) = id) /\
      timers = [Timer id] /\
      Api.GET id s'
      = (mkResponse
           (JsonExperiment
              (mkExperimentDetails
                 (Experiment.mk id name learning_rate batch_size epochs optimizer
                    model_type hidden_layers neurons_per_layer
                    queued now None None None 0)
                 [])) 200,
         s', []).
Proof.
  intros now data s response s' timers Hpost Hcode.
  pose proof (POST_inv now data s) as Hinv. rewrite Hpost in Hinv.
  inversion Hinv as [| | |experiment s1 Hreq Hnone Hcreate]; subst;
    try discriminate Hcode.
  destruct (createExperiment_row _ _ _ _ _ Hcreate)
    as (n & lr & bs & ep & opt & mt & hl & npl & Hdata & Hrows).
  destruct (createExperiment_returns _ _ _ _ _ Hcreate)
    as (r & Hexp & Hrows' & _ & _ & _ & Hid & _).
  rewrite Hrows in Hrows'. apply app_inv_head in Hrows'. injection Hrows' as Hr.
  injection Hexp as ->. cbn [row] in *.
  exists (Experiment.id r), n, lr, bs, ep, opt, mt, hl, npl.
  split; [exact Hdata|]. split; [eexists; split; reflexivity|].
  split; [reflexivity|].
  unfold Api.GET, db.getExperimentDetails. cbn [fst db.queueExperiment].
  rewrite select_experiment_delete_history, select_experiment_update
    by auto with store.
  assert (Hsel : Sql.select_experiment (Experiment.id r) s1 = Some r).
  { unfold Sql.select_experiment. rewrite Hrows, Hr, find_none_app.
    - now rewrite Z.eqb_refl.
    - apply find_fresh_id. intros x Hx. rewrite Hid. now apply next_rowid_fresh. }
  rewrite Hsel. cbn [option_map]. rewrite Z.eqb_refl.
  rewrite select_history_delete, Z.eqb_refl. cbn [map Sql.order_by_epoch fold_right].
  rewrite <- Hr. reflexivity.
Qed.

Lemma create_then_fetch_witness :
  code (fst (fst (Api.POST 0 Sample.data empty_store))) = 201 /\
  exists id name learning_rate batch_size epochs optimizer model_type
         hidden_layers neurons_per_layer,
    Sample.data
    = mkExperimentData (Some name) (Some learning_rate) (Some batch_size)
        (Some epochs) (Some optimizer) (Some model_type)
        (Some hidden_layers) (Some neurons_per_layer) /\
    (exists posted,
       body (fst (fst (Api.POST 0 Sample.data empty_store))) = JsonExperiment posted /\
       Experiment.id (row posted) = id) /\
    [Timer 1] = [Timer id] /\
    Api.GET id Sample.posted
    = (mkResponse
         (JsonExperiment
            (mkExperimentDetails
               (Experiment.mk id name learning_rate batch_size epochs optimizer
                  model_type hidden_layers neurons_per_layer
                  queued 0 None None None 0)
               [])) 200,
       Sample.posted, []).
Proof.
  split; [reflexivity|].
  exact (create_then_fetch 0 Sample.data empty_store _ _ _ eq_refl eq_refl).
Defined.

(** X7.  [POST /api/experiments/{id}/run]: 404 for an id without record;
    400 when the record is [running] or [queued]; in both cases the store,
    history included, is left as it is and no timer is set.  Otherwise the
    answer is a success, one timer is set, the history of the experiment is
    emptied, and the record is queued with current epoch 0 while it keeps
    the accuracy, loss and duration of the run before; the rows of the other
    experiments are untouched. *)
Theorem run_again :
  forall id s,
    (Sql.select_experiment id s = None ->
     Api.POST_run id s
     = (mkResponse (JsonError "Experiment not found") 404, s, [])) /\
    (forall r,
       Sql.select_experiment id s = Some r ->
       Experiment.status r = running \/ Experiment.status r = queued ->
       Api.POST_run id s
       = (mkResponse (JsonError "Experiment is already running or queued") 400,
          s, [])) /\
    (forall r,
       Sql.select_experiment id s = Some r ->
       Experiment.status r <> running -> Experiment.status r <> queued ->
       exists s' r',
         Api.POST_run id s = (mkResponse JsonSuccess 200, s', [Timer id]) /\
         Sql.select_experiment id s' = Some r' /\
         Experiment.status r' = queued /\
         Experiment.current_epoch r' = 0 /\
         Experiment.accuracy r' = Experiment.accuracy r /\
         Experiment.loss r' = Experiment.loss r /\
         Experiment.duration r' = Experiment.duration r /\
         Sql.select_history id s' = [] /\
         forall j, j <> id -> same_at j s s').
Proof.
  intros id s. unfold Api.POST_run, db.getExperimentDetails. repeat apply conj.
  - now intros ->.
  - intros r -> Hbusy. cbn [row].
    now destruct Hbusy as [-> | ->].
  - intros r Hsel Hrun Hqueued. rewrite Hsel. cbn [row].
    destruct (Status_eqb (Experiment.status r) running) eqn:E1;
      [now apply Status_eqb_eq in E1|].
    destruct (Status_eqb (Experiment.status r) queued) eqn:E2;
      [now apply Status_eqb_eq in E2|].
    cbn [orb db.queueExperiment].
    eexists _, (Experiment.set_queued r). split; [reflexivity|].
    split.
    { rewrite select_experiment_delete_history, select_experiment_update, Hsel
        by auto with store.
      cbn [option_map]. apply select_experiment_id in Hsel.
      destruct Hsel as [_ ->]. now rewrite Z.eqb_refl. }
    repeat (split; [reflexivity|]). split.
    { now rewrite select_history_delete, Z.eqb_refl. }
    intros j Hj.
    apply same_at_trans with (Sql.update_experiment id Experiment.set_queued s).
    + apply same_at_update; auto with store.
    + now apply same_at_delete_history.
Qed.



(** ** Runs from start to end *)

(** The tasks that are inside the [try] block and end with a storage
    operation. *)
Definition in_try (id : Z) (t : Task) : Prop :=
  match t with
  | AtLoop id' _ _ _ | AtSimulate id' _ _ _ | AtComplete id' _ _ => id' = id
  | _ => False
  end.


Section Runs.

Variable Math_exp : float -> float.

(** X9.  A storage failure inside the [try] block is caught: the next
    operation sets the status to [failed] and the call returns; the history
    written so far and every other row are left as they are.  When that
    operation fails as well, the call returns with the store untouched. *)
Theorem storage_failure_is_caught :
  forall id t s i1 i2 inputs,
    in_try id t ->
    faulty i1 = true ->
    exists trace,
      db.exec Math_exp (i1 :: i2 :: inputs) t s
      = ((if faulty i2 then s
          else Sql.update_experiment id (Experiment.set_status failed) s),
         Finished, trace) /\
      (forall e s1, ~ In (AppendHistory id e, s1) trace) /\
      (forall s1, ~ In (StoreResults id, s1) trace).
Proof.
  intros id t s i1 i2 inputs Htry Hf1.
  assert (Hcatch : forall trace0,
            exists trace,
              (let '(s2, t2, trace2) := db.exec Math_exp (i2 :: inputs) (AtFailed id) s in
               (s2, t2, trace0 ++ trace2))
              = ((if faulty i2 then s
                  else Sql.update_experiment id (Experiment.set_status failed) s),
                 Finished, trace) /\
              ((forall e s1, ~ In (AppendHistory id e, s1) trace0) ->
               forall e s1, ~ In (AppendHistory id e, s1) trace) /\
              ((forall s1, ~ In (StoreResults id, s1) trace0) ->
               forall s1, ~ In (StoreResults id, s1) trace)).
  { intros trace0. rewrite exec_step by discriminate. cbn [db.step].
    destruct (faulty i2); rewrite exec_Finished; eexists; (split; [reflexivity|]);
      split; intros H0; intros; rewrite in_app_iff; simpl; intros [H1|H1];
      try (eapply H0; exact H1); try contradiction;
      destruct H1 as [H1|[]]; discriminate. }
  destruct t; simpl in Htry; try contradiction; subst;
    rewrite exec_step by discriminate; cbn [db.step]; rewrite Hf1.
  - destruct (_ <=? _); destruct (Hcatch []) as (trace & -> & H1 & H2);
      exists trace; (split; [reflexivity|]); split; [apply H1|apply H2|apply H1|apply H2];
      intros; intros [].
  - destruct (Hcatch [(Simulate epoch, s)]) as (trace & -> & H1 & H2).
    exists trace. split; [reflexivity|].
    split; [apply H1|apply H2]; intros; intros [H|[]]; discriminate.
  - destruct (Hcatch []) as (trace & -> & H1 & H2).
    exists trace. split; [reflexivity|].
    split; [apply H1|apply H2]; intros; intros [].
Qed.

End Runs.

Section CompleteRuns.

Variable Math_exp : float -> float.

Lemma select_experiment_update_same id f s r :
  keeps_configuration f ->
  Sql.select_experiment id s = Some r ->
  Sql.select_experiment id (Sql.update_experiment id f s) = Some (f r).
Proof.
  intros Hf Hsel. rewrite select_experiment_update, Hsel by assumption.
  cbn [option_map]. apply select_experiment_id in Hsel.
  destruct Hsel as [_ ->]. now rewrite Z.eqb_refl.
Qed.



(** X11.  A run without outages of an experiment whose [epochs] is zero or
    negative ([POST] accepts a negative value), started on an empty history,
    records no epoch: the query of the last epoch finds nothing, the error
    is caught, and the run ends after four operations with status [failed],
    the current epoch and the history as they were. *)
Theorem run_without_epochs_fails :
  forall i1 i2 i3 i4 inputs id s r,
    Sql.select_experiment id s = Some r ->
    Sql.select_history id s = [] ->
    Experiment.epochs r <= 0 ->
    faulty i1 = false -> faulty i2 = false ->
    faulty i3 = false -> faulty i4 = false ->
    exists s' trace,
      db.runExperiment Math_exp (i1 :: i2 :: i3 :: i4 :: inputs) id s
      = (s', Finished, trace) /\
      Sql.select_experiment id s'
      = Some (Experiment.set_status failed (Experiment.set_status running r)) /\
      Sql.select_history id s' = [] /\
      map fst trace = [SetStatus id running; SetStatus id failed].
Proof.
  intros i1 i2 i3 i4 inputs id s r Hsel Hnil Hneg Hf1 Hf2 Hf3 Hf4.
  eexists _, _. split; [|split; [|split]].
  - unfold db.runExperiment. rewrite exec_step by discriminate.
    cbn [db.step]. rewrite Hf1. unfold db.getExperimentDetails. rewrite Hsel.
    rewrite exec_step by discriminate. cbn [db.step row]. rewrite Hf2.
    rewrite exec_step by discriminate. cbn [db.step row].
    destruct (Z.leb_spec 1 (Experiment.epochs r)); [lia|]. rewrite Hf3.
    change (Sql.select_history id (Sql.update_experiment ?i ?f ?x))
      with (Sql.select_history id x).
    rewrite Hnil. cbn [Sql.last_by_epoch].
    rewrite exec_step by discriminate. cbn [db.step]. rewrite Hf4.
    rewrite exec_Finished. reflexivity.
  - rewrite select_experiment_update_same with (r := Experiment.set_status running r);
      auto with store.
    apply select_experiment_update_same; auto with store.
  - exact Hnil.
  - reflexivity.
Qed.

End CompleteRuns.

(** ** More sample inputs *)

Module Scenario.

(** An environment step during which the storage operation fails. *)
Definition outage : Input :=
  mkInput 9 0.5%float 0.25%float 0.125%float 0.75%float true.

(** The record experiment 1 has in [Sample.posted]. *)
Definition queued_row : Experiment.t :=
  Experiment.mk 1 "baseline" 0.01%float 64 3 "adam" "simple" 2 128
    queued 0 None None None 0.

(** The record [Sample.negative_epochs] creates. *)
Definition negative_row : Experiment.t :=
  Experiment.mk 1 "negative" 0.01%float 64 (-1) "adam" "simple" 2 128
    queued 0 None None None 0.

(** The completed system once experiment 1 is asked to run again. *)
Definition requeued_system : System :=
  mkSystem (snd (fst (handle (Run 1) (store Sample.completed_system))))
    (tasks Sample.completed_system
     ++ snd (handle (Run 1) (store Sample.completed_system))).

End Scenario.

Lemma ids_are_never_reused_witness :
  reachable Sample.Math_exp initial /\
  transition Sample.Math_exp initial Sample.queued_system /\
  NoDup (map Experiment.id (experiments (store Sample.queued_system))) /\
  seq_experiments (store initial) <= seq_experiments (store Sample.queued_system) /\
  (forall r, In r (experiments (store initial)) ->
             Experiment.id r <= seq_experiments (store initial)) /\
  (forall r', In r' (experiments (store Sample.queued_system)) ->
     (exists r, In r (experiments (store initial)) /\
                Experiment.id r' = Experiment.id r) \/
     seq_experiments (store initial) < Experiment.id r').
Proof.
  assert (Hstep : transition Sample.Math_exp initial Sample.queued_system)
    by exact (serve Sample.Math_exp (Create 0 Sample.data) initial _ _ _ eq_refl).
  split; [constructor|]. split; [exact Hstep|].
  exact (ids_are_never_reused Sample.Math_exp initial Sample.queued_system
           (reachable_initial Sample.Math_exp) Hstep).
Defined.

Lemma terminal_status_is_left_by_requests_only_witness :
  exists r,
    reachable Sample.Math_exp Sample.completed_system /\
    transition Sample.Math_exp Sample.completed_system Scenario.requeued_system /\
    Sql.select_experiment 1 (store Sample.completed_system) = Some r /\
    (Experiment.status r = completed \/ Experiment.status r = failed) /\
    (Sql.select_experiment 1 (store Scenario.requeued_system) = Some r \/
     Sql.select_experiment 1 (store Scenario.requeued_system) = None \/
     Sql.select_experiment 1 (store Scenario.requeued_system)
     = Some (Experiment.set_queued r)).
Proof.
  eassert (Hsel : Sql.select_experiment 1 (store Sample.completed_system) = Some _)
    by (vm_compute; reflexivity).
  assert (Hstep : transition Sample.Math_exp Sample.completed_system
                    Scenario.requeued_system)
    by exact (serve_transition Sample.Math_exp (Run 1) Sample.completed_system).
  eexists. split; [exact completed_system_reachable|]. split; [exact Hstep|].
  split; [exact Hsel|]. split; [left; reflexivity|].
  exact (terminal_status_is_left_by_requests_only Sample.Math_exp
           Sample.completed_system Scenario.requeued_system 1 _
           completed_system_reachable Hstep Hsel (or_introl eq_refl)).
Defined.

Lemma run_again_witness :
  exists r,
    Sql.select_experiment 1 (store Sample.completed_system) = Some r /\
    Experiment.status r <> running /\ Experiment.status r <> queued /\
    exists s' r',
      Api.POST_run 1 (store Sample.completed_system)
      = (mkResponse JsonSuccess 200, s', [Timer 1]) /\
      Sql.select_experiment 1 s' = Some r' /\
      Experiment.status r' = queued /\
      Experiment.current_epoch r' = 0 /\
      Experiment.accuracy r' = Experiment.accuracy r /\
      Experiment.loss r' = Experiment.loss r /\
      Experiment.duration r' = Experiment.duration r /\
      Sql.select_history 1 s' = [] /\
      forall j, j <> 1 -> same_at j (store Sample.completed_system) s'.
Proof.
  eassert (Hsel : Sql.select_experiment 1 (store Sample.completed_system) = Some _)
    by (vm_compute; reflexivity).
  eexists. split; [exact Hsel|].
  assert (Hrun : forall st, st = completed -> st <> running) by (intros ? ->; discriminate).
  assert (Hqueued : forall st, st = completed -> st <> queued) by (intros ? ->; discriminate).
  split; [exact (Hrun _ eq_refl)|]. split; [exact (Hqueued _ eq_refl)|].
  exact (proj2 (proj2 (run_again 1 (store Sample.completed_system))) _ Hsel
           (Hrun _ eq_refl) (Hqueued _ eq_refl)).
Defined.

Lemma storage_failure_is_caught_witness :
  in_try 1 (AtSimulate 1 (mkExperimentDetails Scenario.queued_row []) 0 1) /\
  faulty Scenario.outage = true /\
  exists trace,
    db.exec Sample.Math_exp (Scenario.outage :: Sample.input 10 :: [])
      (AtSimulate 1 (mkExperimentDetails Scenario.queued_row []) 0 1) Sample.posted
    = ((if faulty (Sample.input 10) then Sample.posted
        else Sql.update_experiment 1 (Experiment.set_status failed) Sample.posted),
       Finished, trace) /\
    (forall e s1, ~ In (AppendHistory 1 e, s1) trace) /\
    (forall s1, ~ In (StoreResults 1, s1) trace).
Proof.
  split; [reflexivity|]. split; [reflexivity|].
  exact (storage_failure_is_caught Sample.Math_exp 1
           (AtSimulate 1 (mkExperimentDetails Scenario.queued_row []) 0 1)
           Sample.posted Scenario.outage (Sample.input 10) [] eq_refl eq_refl).
Defined.


Lemma run_without_epochs_fails_witness :
  Sql.select_experiment 1 (store Sample.negative_system) = Some Scenario.negative_row /\
  Sql.select_history 1 (store Sample.negative_system) = [] /\
  Experiment.epochs Scenario.negative_row <= 0 /\
  exists s' trace,
    db.runExperiment Sample.Math_exp
      (Sample.input 1 :: Sample.input 2 :: Sample.input 3 :: Sample.input 4 :: [])
      1 (store Sample.negative_system)
    = (s', Finished, trace) /\
    Sql.select_experiment 1 s'
    = Some (Experiment.set_status failed
              (Experiment.set_status running Scenario.negative_row)) /\
    Sql.select_history 1 s' = [] /\
    map fst trace = [SetStatus 1 running; SetStatus 1 failed].
Proof.
  assert (Hneg : Experiment.epochs Scenario.negative_row <= 0) by (simpl; lia).
  split; [reflexivity|]. split; [reflexivity|]. split; [exact Hneg|].
  exact (run_without_epochs_fails Sample.Math_exp (Sample.input 1) (Sample.input 2)
           (Sample.input 3) (Sample.input 4) [] 1 (store Sample.negative_system)
           Scenario.negative_row eq_refl eq_refl Hneg eq_refl eq_refl eq_refl eq_refl).
Defined.

(** * The listing and the detail of an experiment *)

(** ** The listing ([getExperiments] and [GET /api/experiments]) *)

(** Interface [Experiment]: the columns the listing selects. *)
Record ExperimentSummary : Set := mkExperimentSummary {
  s_id : Z;
  s_name : string;
  s_status : Status;
  s_created_at : Z;
  s_accuracy : option float;
  s_loss : option float;
  s_duration : option float;
  s_current_epoch : Z
}.

Module Listing.

(** A value of a column, as [ORDER BY] sees it. *)
Inductive Value : Set :=
| Null
| Integer (z : Z)
| Real (x : float)
| Text (s : string).

(** The order of [ORDER BY ... ASC]: [NULL] first, then numbers, then text
    byte by byte. *)
Definition value_le (a b : Value) : bool :=
  match a, b with
  | Null, _ => true
  | _, Null => false
  | Integer x, Integer y => x <=? y
  | Integer x, Real y => PrimFloat.leb (JS.Number x) y
  | Real x, Integer y => PrimFloat.leb x (JS.Number y)
  | Real x, Real y => PrimFloat.leb x y
  | (Integer _ | Real _), Text _ => true
  | Text _, (Integer _ | Real _) => false
  | Text s, Text t => String.leb s t
  end.

Definition real (x : option float) : Value :=
  match x with Some v => Real v | None => Null end.

(** The column a (validated) sort field names. *)
Definition column (sortField : string) (r : Experiment.t) : Value :=
  if String.eqb sortField "accuracy" then real (Experiment.accuracy r)
  else if String.eqb sortField "loss" then real (Experiment.loss r)
  else if String.eqb sortField "duration" then real (Experiment.duration r)
  else if String.eqb sortField "name" then Text (Experiment.name r)
  else Integer (Experiment.created_at r).

(** Whether [a] may come before [b] under [ORDER BY sortField sortOrder]. *)
Definition before (sortField sortOrder : string) (a b : Experiment.t) : bool :=
  if String.eqb sortOrder "asc"
  then value_le (column sortField a) (column sortField b)
  else value_le (column sortField b) (column sortField a).

(** [ORDER BY], as an insertion sort.  SQLite leaves the order of rows that
    compare equal open; the properties below do not depend on it. *)
Fixpoint insert (le : Experiment.t -> Experiment.t -> bool) (x : Experiment.t)
    (l : list Experiment.t) : list Experiment.t :=
  match l with
  | [] => [x]
  | y :: l' => if le x y then x :: l else y :: insert le x l'
  end.

Definition order_by (le : Experiment.t -> Experiment.t -> bool)
    (l : list Experiment.t) : list Experiment.t :=
  fold_right (insert le) [] l.

(** [SELECT id, name, status, created_at, accuracy, loss, duration,
    current_epoch]. *)
Definition summary (r : Experiment.t) : ExperimentSummary :=
  mkExperimentSummary (Experiment.id r) (Experiment.name r) (Experiment.status r)
    (Experiment.created_at r) (Experiment.accuracy r) (Experiment.loss r)
    (Experiment.duration r) (Experiment.current_epoch r).

Definition validSortFields : list string :=
  ["created_at"; "accuracy"; "loss"; "duration"; "name"]%string.

(** [getExperiments(sortField, sortOrder)] ([lib/db.ts], l.57-76) *)
Definition getExperiments (sortField sortOrder : string) (s : Store)
    : list ExperimentSummary :=
  let sortField :=
    if existsb (String.eqb sortField) validSortFields then sortField
    else "created_at"%string in
  let sortOrder :=
    if negb (String.eqb sortOrder "asc") && negb (String.eqb sortOrder "desc")
    then "desc"%string else sortOrder in
  map summary (order_by (before sortField sortOrder) (experiments s)).

(** [searchParams.get(key) || fallback] *)
Definition param (value : option string) (fallback : string) : string :=
  if JS.truthy_string value
  then match value with Some v => v | None => fallback end
  else fallback.

(** [GET /api/experiments] ([route.ts], l.4-16): the body and the status. *)
Definition GET (sort order : option string) (s : Store)
    : list ExperimentSummary * Z :=
  let sortField := param sort "created_at" in
  let sortOrder := param order "desc" in
  (getExperiments sortField sortOrder s, 200).

(** No real value of the row is [NaN] (a [REAL] column cannot hold one). *)
Definition no_nan (r : Experiment.t) : Prop :=
  forall x,
    Experiment.accuracy r = Some x \/ Experiment.loss r = Some x \/
    Experiment.duration r = Some x ->
    PrimFloat.is_nan x = false.

(** The order of the listing, on summaries. *)
Definition listed_before (sortField sortOrder : string)
    (a b : ExperimentSummary) : Prop :=
  let key (x : ExperimentSummary) :=
    if String.eqb sortField "accuracy" then real (s_accuracy x)
    else if String.eqb sortField "loss" then real (s_loss x)
    else if String.eqb sortField "duration" then real (s_duration x)
    else if String.eqb sortField "name" then Text (s_name x)
    else Integer (s_created_at x) in
  if String.eqb sortOrder "asc" then value_le (key a) (key b) = true
  else value_le (key b) (key a) = true.

End Listing.

(** *** Floats as [ORDER BY] compares them *)

Lemma SFleb_total a b :
  a <> S754_nan -> b <> S754_nan -> SFleb a b = true \/ SFleb b a = true.
Proof.
  intros Ha Hb. unfold SFleb, SFcompare.
  destruct a as [sa|sa| |sa ma ea], b as [sb|sb| |sb mb eb];
    try contradiction; try (destruct sa; auto; fail);
    try (destruct sb; auto; fail); try (destruct sa, sb; auto; fail).
  change (Pos.compare_cont Eq ma mb) with (ma ?= mb)%positive.
  change (Pos.compare_cont Eq mb ma) with (mb ?= ma)%positive.
  rewrite (Z.compare_antisym ea eb), (Pos.compare_antisym ma mb).
  destruct sa, sb; auto;
    destruct (ea ?= eb); simpl; auto; destruct (ma ?= mb)%positive; simpl; auto.
Qed.

Lemma float_leb_total x y :
  PrimFloat.is_nan x = false -> PrimFloat.is_nan y = false ->
  PrimFloat.leb x y = true \/ PrimFloat.leb y x = true.
Proof.
  unfold PrimFloat.is_nan. rewrite !FloatAxioms.eqb_spec, !FloatAxioms.leb_spec.
  intros Hx Hy. apply SFleb_total; intros E; rewrite E in *; discriminate.
Qed.

(** A number that is at least [0.0001] is truthy. *)
Lemma truthy_from_minimum x :
  PrimFloat.leb 0.0001%float x = true -> JS.truthy_number (Some x) = true.
Proof.
  unfold JS.truthy_number, PrimFloat.is_zero, PrimFloat.is_nan.
  rewrite FloatAxioms.leb_spec, !FloatAxioms.eqb_spec.
  destruct (FloatOps.Prim2SF x) as [s|s| |s m e] eqn:E; intros H.
  - vm_compute in H. destruct s; discriminate.
  - destruct s; [vm_compute in H; discriminate|]. reflexivity.
  - vm_compute in H. discriminate.
  - replace (SFeqb (S754_finite s m e) (FloatOps.Prim2SF zero)) with false
      by (destruct s; reflexivity).
    unfold SFeqb, SFcompare.
    destruct s; rewrite Z.compare_refl, Pos.compare_refl; reflexivity.
Qed.

(** *** Sorting *)

Section OrderBy.

Variable le : Experiment.t -> Experiment.t -> bool.

Lemma insert_permutation x l : Permutation (Listing.insert le x l) (x :: l).
Proof.
  induction l as [|y l IH]; simpl; [reflexivity|].
  destruct (le x y); [reflexivity|].
  rewrite perm_swap. now apply perm_skip.
Qed.

Lemma order_by_permutation l : Permutation (Listing.order_by le l) l.
Proof.
  induction l as [|x l IH]; simpl; [constructor|].
  rewrite insert_permutation. now apply perm_skip.
Qed.

Lemma insert_head_rel x a l :
  le a x = true ->
  HdRel (fun u v => le u v = true) a l ->
  HdRel (fun u v => le u v = true) a (Listing.insert le x l).
Proof.
  intros Hax Hl. destruct l as [|y l]; simpl; [now constructor|].
  destruct (le x y); constructor; trivial. now inversion Hl.
Qed.

Lemma insert_sorted x l :
  (forall y, In y l -> le x y = true \/ le y x = true) ->
  Sorted (fun u v => le u v = true) l ->
  Sorted (fun u v => le u v = true) (Listing.insert le x l).
Proof.
  intros Htotal Hsorted. induction Hsorted as [|y l Hl IH Hhd]; simpl.
  - repeat constructor.
  - destruct (le x y) eqn:E.
    + constructor; [now constructor|]. now constructor.
    + constructor.
      * apply IH. intros z Hz. apply Htotal. now right.
      * apply insert_head_rel; [|assumption].
        destruct (Htotal y (or_introl eq_refl)) as [H|H]; [congruence|exact H].
Qed.

Lemma order_by_sorted l :
  (forall x y, In x l -> In y l -> le x y = true \/ le y x = true) ->
  Sorted (fun u v => le u v = true) (Listing.order_by le l).
Proof.
  induction l as [|x l IH]; intros Htotal; simpl; [constructor|].
  apply insert_sorted.
  - intros y Hy. apply Htotal; [now left|right].
    now apply (Permutation_in _ (order_by_permutation l)).
  - apply IH. intros a b Ha Hb. apply Htotal; now right.
Qed.

End OrderBy.

Lemma Sorted_map {A B} (R : A -> A -> Prop) (R' : B -> B -> Prop) (g : A -> B) l :
  (forall a b, R a b -> R' (g a) (g b)) ->
  Sorted R l -> Sorted R' (map g l).
Proof.
  intros Hg Hl. induction Hl as [|x l Hl IH Hhd]; simpl; constructor; trivial.
  destruct Hhd; simpl; constructor. now apply Hg.
Qed.

Lemma before_total sortField sortOrder a b :
  Listing.no_nan a -> Listing.no_nan b ->
  Listing.before sortField sortOrder a b = true \/
  Listing.before sortField sortOrder b a = true.
Proof.
  intros Ha Hb.
  assert (Hreal : forall x y,
            (forall v, x = Some v -> PrimFloat.is_nan v = false) ->
            (forall v, y = Some v -> PrimFloat.is_nan v = false) ->
            Listing.value_le (Listing.real x) (Listing.real y) = true \/
            Listing.value_le (Listing.real y) (Listing.real x) = true).
  { intros [x|] [y|] Hx Hy; simpl; auto. apply float_leb_total; auto. }
  assert (Htotal : Listing.value_le (Listing.column sortField a)
                     (Listing.column sortField b) = true \/
                   Listing.value_le (Listing.column sortField b)
                     (Listing.column sortField a) = true).
  { unfold Listing.column.
    destruct (String.eqb sortField "accuracy");
      [apply Hreal; intros v Hv; [apply Ha|apply Hb]; auto|].
    destruct (String.eqb sortField "loss");
      [apply Hreal; intros v Hv; [apply Ha|apply Hb]; auto|].
    destruct (String.eqb sortField "duration");
      [apply Hreal; intros v Hv; [apply Ha|apply Hb]; auto|].
    destruct (String.eqb sortField "name"); simpl.
    - apply String.leb_total.
    - destruct (Z.leb_spec (Experiment.created_at a) (Experiment.created_at b));
        [now left|right]. apply Z.leb_le. lia. }
  unfold Listing.before. destruct (String.eqb sortOrder "asc"); tauto.
Qed.

(** X12.  The listing holds every experiment exactly once, whatever the
    sort parameters; a sort field outside the allow-list gives the listing
    by [created_at], and an order that is neither [asc] nor [desc] the
    listing in descending order. *)
Theorem listing_is_complete :
  forall sortField sortOrder s,
    Permutation (Listing.getExperiments sortField sortOrder s)
      (map Listing.summary (experiments s)) /\
    (~ In sortField Listing.validSortFields ->
     Listing.getExperiments sortField sortOrder s
     = Listing.getExperiments "created_at" sortOrder s) /\
    (sortOrder <> "asc"%string -> sortOrder <> "desc"%string ->
     Listing.getExperiments sortField sortOrder s
     = Listing.getExperiments sortField "desc" s).
Proof.
  intros sortField sortOrder s. repeat apply conj.
  - unfold Listing.getExperiments. apply Permutation_map, order_by_permutation.
  - intros Hout. unfold Listing.getExperiments.
    destruct (existsb (String.eqb sortField) Listing.validSortFields) eqn:E;
      [|reflexivity].
    apply existsb_exists in E. destruct E as (x & Hx & Heq).
    apply String.eqb_eq in Heq. subst. contradiction.
  - intros Hasc Hdesc. unfold Listing.getExperiments.
    apply String.eqb_neq in Hasc, Hdesc. rewrite Hasc, Hdesc. reflexivity.
Qed.

Lemma order_by_before_sorted sortField sortOrder s :
  (forall r, In r (experiments s) -> Listing.no_nan r) ->
  Sorted (Listing.listed_before sortField sortOrder)
    (map Listing.summary
       (Listing.order_by (Listing.before sortField sortOrder) (experiments s))).
Proof.
  intros Hnan.
  apply Sorted_map
    with (R := fun a b => Listing.before sortField sortOrder a b = true).
  - intros a b Hab. unfold Listing.listed_before, Listing.before in *.
    destruct (String.eqb sortOrder "asc"); exact Hab.
  - apply order_by_sorted. intros a b Ha Hb. apply before_total; auto.
Qed.

Lemma getExperiments_validated sortField sortOrder s :
  In sortField Listing.validSortFields ->
  sortOrder = "asc"%string \/ sortOrder = "desc"%string ->
  Listing.getExperiments sortField sortOrder s
  = map Listing.summary
      (Listing.order_by (Listing.before sortField sortOrder) (experiments s)).
Proof.
  intros Hfield Horder. unfold Listing.getExperiments.
  assert (Hf : existsb (String.eqb sortField) Listing.validSortFields = true).
  { apply existsb_exists. exists sortField. split; [assumption|].
    apply String.eqb_refl. }
  assert (Ho : negb (String.eqb sortOrder "asc")
               && negb (String.eqb sortOrder "desc") = false).
  { destruct Horder as [-> | ->]; reflexivity. }
  now rewrite Hf, Ho.
Qed.

(** X13.  The listing is in the order asked for: for a sort field of the
    allow-list and the order [asc] or [desc], every summary comes before
    the next one in the order of [ORDER BY] on that column ([NULL] lowest);
    without parameters, [GET /api/experiments] lists the newest first. *)
Theorem listing_is_sorted :
  forall sortField sortOrder s,
    In sortField Listing.validSortFields ->
    sortOrder = "asc"%string \/ sortOrder = "desc"%string ->
    (forall r, In r (experiments s) -> Listing.no_nan r) ->
    Sorted (Listing.listed_before sortField sortOrder)
      (Listing.getExperiments sortField sortOrder s) /\
    Sorted (fun a b => s_created_at b <= s_created_at a)
      (fst (Listing.GET None None s)).
Proof.
  intros sortField sortOrder s Hfield Horder Hnan. split.
  - rewrite getExperiments_validated by assumption.
    now apply order_by_before_sorted.
  - cbn [fst Listing.GET Listing.param JS.truthy_string].
    rewrite getExperiments_validated; [|simpl; tauto|now right].
    pose proof (order_by_before_sorted "created_at" "desc" s Hnan) as Hsorted.
    apply (Sorted_map _ (fun a b => s_created_at b <= s_created_at a) (fun x => x))
      in Hsorted; [now rewrite map_id in Hsorted|].
    intros a b Hab. unfold Listing.listed_before in Hab. simpl in Hab.
    now apply Z.leb_le in Hab.
Qed.

Module Shelf.

(** The store of [Sample.completed_system] once a second experiment, with
    another configuration, has been posted at time 20. *)
Definition two_rows : Store :=
  snd (fst (Api.POST 20 Sample.negative_epochs (store Sample.completed_system))).

End Shelf.

Lemma listing_is_sorted_witness :
  Sorted (Listing.listed_before "accuracy" "asc")
    (Listing.getExperiments "accuracy" "asc" Shelf.two_rows) /\
  Sorted (fun a b => s_created_at b <= s_created_at a)
    (fst (Listing.GET None None Shelf.two_rows)).
Proof.
  eassert (Hrows : experiments Shelf.two_rows = [_; _])
    by (vm_compute; reflexivity).
  apply (listing_is_sorted "accuracy" "asc" Shelf.two_rows).
  - right. left. reflexivity.
  - left. reflexivity.
  - rewrite Hrows. 
    intros r [<-|[<-|[]]] x [H|[H|H]];
      try discriminate H; injection H as <-; vm_compute; reflexivity.
Defined.


(** ** Fetching one experiment ([getExperimentDetails] and
    [GET /api/experiments/{id}]) *)

Lemma insert_by_epoch_permutation h l :
  Permutation (Sql.insert_by_epoch h l) (h :: l).
Proof.
  induction l as [|x l IH]; simpl; [reflexivity|].
  destruct (h_epoch h <=? h_epoch x); [reflexivity|].
  rewrite perm_swap. now apply perm_skip.
Qed.

Lemma order_by_epoch_permutation l : Permutation (Sql.order_by_epoch l) l.
Proof.
  induction l as [|x l IH]; [constructor|].
  change (Sql.order_by_epoch (x :: l))
    with (Sql.insert_by_epoch x (Sql.order_by_epoch l)).
  rewrite insert_by_epoch_permutation. now apply perm_skip.
Qed.

Lemma insert_by_epoch_sorted h l :
  Sorted (fun a b => h_epoch a <= h_epoch b) l ->
  Sorted (fun a b => h_epoch a <= h_epoch b) (Sql.insert_by_epoch h l).
Proof.
  intros Hl. induction Hl as [|x l Hl IH Hhd]; simpl; [repeat constructor|].
  destruct (Z.leb_spec (h_epoch h) (h_epoch x)) as [Hle|Hlt].
  - constructor; [now constructor|]. now constructor.
  - constructor; [exact IH|].
    destruct Hhd as [|y l Hxy]; simpl; [constructor; lia|].
    destruct (h_epoch h <=? h_epoch y); constructor; lia.
Qed.

Lemma order_by_epoch_sorted l :
  Sorted (fun a b => h_epoch a <= h_epoch b) (Sql.order_by_epoch l).
Proof.
  induction l as [|x l IH]; [constructor|].
  change (Sql.order_by_epoch (x :: l))
    with (Sql.insert_by_epoch x (Sql.order_by_epoch l)).
  now apply insert_by_epoch_sorted.
Qed.

(** X14.  [GET /api/experiments/{id}] changes nothing and sets no timer.  It
    answers 404 exactly when no record has the id.  Otherwise it answers 200
    with a record of that id and with a history that holds the rows of
    [experiment_history] of this experiment, each once and no row of another
    experiment, by ascending epoch. *)
Theorem fetch_returns_own_history_in_order :
  forall id s,
    snd (fst (Api.GET id s)) = s /\ snd (Api.GET id s) = [] /\
    ((forall r, In r (experiments s) -> Experiment.id r <> id) ->
     fst (fst (Api.GET id s)) = mkResponse (JsonError "Experiment not found") 404) /\
    ((exists r, In r (experiments s) /\ Experiment.id r = id) ->
     exists experiment,
       fst (fst (Api.GET id s)) = mkResponse (JsonExperiment experiment) 200 /\
       In (row experiment) (experiments s) /\
       Experiment.id (row experiment) = id /\
       Permutation (history experiment)
         (map db.to_history
            (filter (fun h => History.experiment_id h =? id) (experiment_history s))) /\
       Sorted (fun a b => h_epoch a <= h_epoch b) (history experiment)).
Proof.
  intros id s. unfold Api.GET, db.getExperimentDetails, Sql.select_experiment.
  destruct (find (fun r => Experiment.id r =? id) (experiments s)) as [r|] eqn:Hfind;
    cbn [fst snd].
  - split; [reflexivity|]. split; [reflexivity|]. apply find_some in Hfind.
    destruct Hfind as [Hin Hid]. apply Z.eqb_eq in Hid. split.
    + intros Hnone. now destruct (Hnone r Hin).
    + intros _. eexists. split; [reflexivity|]. cbn [row history].
      split; [exact Hin|]. split; [exact Hid|]. split.
      * apply order_by_epoch_permutation.
      * apply order_by_epoch_sorted.
  - split; [reflexivity|]. split; [reflexivity|]. split; [reflexivity|].
    intros (r & Hin & Hid). apply (find_none _ _ Hfind) in Hin.
    apply Z.eqb_neq in Hin. contradiction.
Qed.

(** * The client and the views *)

(** ** The client ([lib/api]) *)

Module Client.

(** [response.ok]: the status is in the range 200-299. *)
Definition ok (response : Response) : bool :=
  (200 <=? code response) && (code response <=? 299).

(** [createExperiment(data)]: what the call returns or throws, the store the
    handler leaves and the timers it sets. *)
Definition createExperiment (now : Z) (data : ExperimentData) (s : Store)
    : Outcome Body * Store * list Task :=
  let '(response, s', timers) := Api.POST now data s in
  if negb (ok response)
  then (Thrown "Failed to create experiment", s', timers)
  else (Returned (body response), s', timers).

(** [getExperiments(sortField, sortOrder)]; the two names travel in the
    query string, which gives them back as they are when they are made of
    letters and [_]. *)
Definition getExperiments (sortField sortOrder : string) (s : Store)
    : Outcome (list ExperimentSummary) :=
  let '(experiments, status) := Listing.GET (Some sortField) (Some sortOrder) s in
  if negb ((200 <=? status) && (status <=? 299))
  then Thrown "Failed to fetch experiments"
  else Returned experiments.

(** [getExperimentDetails(id)] *)
Definition getExperimentDetails (id : Z) (s : Store)
    : Outcome Body * Store * list Task :=
  let '(response, s', timers) := Api.GET id s in
  if negb (ok response)
  then (Thrown "Failed to fetch experiment details", s', timers)
  else (Returned (body response), s', timers).

(** [deleteExperiment(id)] *)
Definition deleteExperiment (id : Z) (s : Store)
    : Outcome Body * Store * list Task :=
  let '(response, s', timers) := Api.DELETE id s in
  if negb (ok response)
  then (Thrown "Failed to delete experiment", s', timers)
  else (Returned (body response), s', timers).

(** [runExperiment(id)] *)
Definition runExperiment (id : Z) (s : Store)
    : Outcome Body * Store * list Task :=
  let '(response, s', timers) := Api.POST_run id s in
  if negb (ok response)
  then (Thrown "Failed to run experiment", s', timers)
  else (Returned (body response), s', timers).

End Client.

(** What [toast] is called with. *)
Record Toast : Set := mkToast {
  title : string;
  description : string;
  variant : option string
}.

(** ** The create form, submitted *)

Module ExperimentForm.

Definition created : Toast :=
  mkToast "Experiment created"
    "Your experiment has been created and queued for execution." None.

Definition not_created : Toast :=
  mkToast "Error" "Failed to create experiment. Please try again."
    (Some "destructive"%string).

(** [onSubmit(values)] (l.45-63): the toast, whether [onSuccess] was called,
    the store and the timers. *)
Definition onSubmit (now : Z) (values : FormValues) (s : Store)
    : Toast * bool * Store * list Task :=
  match Client.createExperiment now (Form.to_data values) s with
  | (Returned _, s', timers) => (created, true, s', timers)
  | (Thrown _, s', timers) => (not_created, false, s', timers)
  end.

(** [form.handleSubmit(onSubmit)] (l.67) with [zodResolver(formSchema)]:
    [onSubmit] is called when the values parse, and not otherwise. *)
Definition handleSubmit (now : Z) (values : FormValues) (s : Store)
    : option (Toast * bool) * Store * list Task :=
  if Form.formSchema values then
    let '(shown, succeeded, s', timers) := onSubmit now values s in
    (Some (shown, succeeded), s', timers)
  else (None, s, []).

End ExperimentForm.

Lemma between_bounds lo hi x : Form.between lo hi x = true -> lo <= x <= hi.
Proof. unfold Form.between. rewrite andb_true_iff, !Z.leb_le. tauto. Qed.

Lemma one_of_nonempty options x :
  ~ In ""%string options -> Form.one_of options x = true ->
  JS.truthy_string (Some x) = true.
Proof.
  intros Hnot Hin. unfold Form.one_of in Hin. apply existsb_exists in Hin.
  destruct Hin as (y & Hy & Heq). apply String.eqb_eq in Heq. subst y.
  destruct x; [contradiction|reflexivity].
Qed.

(** Values that parse have every field [POST] requires. *)
Lemma formSchema_required_fields values :
  Form.formSchema values = true ->
  Api.required_fields (Form.to_data values) = true.
Proof.
  unfold Form.formSchema, Form.configuration, Api.required_fields, Form.to_data.
  cbn [d_name d_learning_rate d_batch_size d_epochs d_optimizer].
  rewrite !andb_true_iff.
  intros (Hname & ((((((Hrate & _) & Hbatch) & Hepochs) & Hopt) & _) & _) & _).
  apply between_bounds in Hbatch, Hepochs. apply Z.leb_le in Hname.
  repeat split.
  - destruct (f_name values); [simpl in Hname; lia|reflexivity].
  - now apply truthy_from_minimum.
  - simpl. apply negb_true_iff, Z.eqb_neq. lia.
  - simpl. apply negb_true_iff, Z.eqb_neq. lia.
  - apply one_of_nonempty with (2 := Hopt). simpl. intuition discriminate.
Qed.

(** X15.  Submitting the form with values that parse fails in one case only:
    when an experiment with the same configuration exists; then the store
    is left as it is, no timer is set, and the toast is the general error,
    which does not mention the existing experiment.  Otherwise the record
    is created with the values of the form and queued, one timer is set
    for it, the success toast is shown and [onSuccess] is called. *)
Theorem valid_form_fails_only_on_duplicate :
  forall now values s,
    Form.formSchema values = true ->
    (forall existingId,
       db.findSimilarExperiment (Form.to_data values) s = Some existingId ->
       ExperimentForm.handleSubmit now values s
       = (Some (ExperimentForm.not_created, false), s, [])) /\
    (db.findSimilarExperiment (Form.to_data values) s = None ->
     exists id s',
       ExperimentForm.handleSubmit now values s
       = (Some (ExperimentForm.created, true), s', [Timer id]) /\
       Sql.select_experiment id s = None /\
       Sql.select_experiment id s'
       = Some (Experiment.mk id (f_name values) (f_learning_rate values)
                 (f_batch_size values) (f_epochs values) (f_optimizer values)
                 (f_model_type values) (f_hidden_layers values)
                 (f_neurons_per_layer values) queued now None None None 0)).
Proof.
  intros now values s Hvalid.
  pose proof (formSchema_required_fields values Hvalid) as Hreq.
  unfold ExperimentForm.handleSubmit, ExperimentForm.onSubmit,
    Client.createExperiment. rewrite Hvalid.
  pose proof (POST_inv now (Form.to_data values) s) as Hinv.
  split.
  - intros existingId Hsim.
    inversion Hinv as [Hmiss|existing _ Hsim' Hpost|error _ Hnone|experiment s1 _ Hnone];
      try congruence.
    reflexivity.
  - intros Hnone.
    inversion Hinv as [Hmiss|existing _ Hsim'|error _ _ Hthrown|experiment s1 _ _ Hcreate Hpost];
      try congruence.
    + discriminate Hthrown.
    + cbn [Client.ok code body negb andb Z.leb Z.compare Pos.compare Pos.compare_cont].
      destruct (createExperiment_row _ _ _ _ _ Hcreate)
        as (n & lr & bs & ep & opt & mt & hl & npl & Hdata & Hrows).
      destruct (createExperiment_returns _ _ _ _ _ Hcreate)
        as (r & Hexp & Hrows' & _ & _ & _ & Hid & _).
      rewrite Hrows in Hrows'. apply app_inv_head in Hrows'. injection Hrows' as Hr.
      injection Hexp as ->. cbn [row] in *.
      injection Hdata as <- <- <- <- <- <- <- <-.
      exists (Experiment.id r). eexists. split; [reflexivity|].
      assert (Hfresh : find (fun x => Experiment.id x =? Experiment.id r)
                         (experiments s) = None).
      { apply find_fresh_id. intros x Hx. rewrite Hid. now apply next_rowid_fresh. }
      split; [exact Hfresh|].
      cbn [fst db.queueExperiment].
      rewrite select_experiment_delete_history, select_experiment_update
        by auto with store.
      unfold Sql.select_experiment. rewrite Hrows, Hr, find_none_app by exact Hfresh.
      rewrite Z.eqb_refl. cbn [option_map]. rewrite ?Z.eqb_refl. subst r. reflexivity.
Qed.

Module Entry.

(** Values the form accepts; their configuration is the one of
    [Sample.data]. *)
Definition values : FormValues :=
  mkFormValues "third" 0.01%float 64 3 "adam" "simple" 2 128.

End Entry.

Lemma valid_form_fails_only_on_duplicate_witness :
  (forall existingId,
     db.findSimilarExperiment (Form.to_data Entry.values) Sample.posted
     = Some existingId ->
     ExperimentForm.handleSubmit 5 Entry.values Sample.posted
     = (Some (ExperimentForm.not_created, false), Sample.posted, [])) /\
  (db.findSimilarExperiment (Form.to_data Entry.values) Sample.posted = None ->
   exists id s',
     ExperimentForm.handleSubmit 5 Entry.values Sample.posted
     = (Some (ExperimentForm.created, true), s', [Timer id]) /\
     Sql.select_experiment id Sample.posted = None /\
     Sql.select_experiment id s'
     = Some (Experiment.mk id "third" 0.01%float 64 3 "adam" "simple" 2 128
               queued 5 None None None 0)).
Proof.
  exact (valid_form_fails_only_on_duplicate 5 Entry.values Sample.posted eq_refl).
Defined.

(** ** The list of experiments ([components/experiment-list.tsx]) *)

Module ExperimentList.

(** [type SortField] and [type SortOrder] (l.21-22) *)
Inductive SortField : Set := by_created_at | by_accuracy | by_duration.
Inductive SortOrder : Set := asc | desc.

Definition field_name (f : SortField) : string :=
  match f with
  | by_created_at => "created_at"
  | by_accuracy => "accuracy"
  | by_duration => "duration"
  end.

Definition order_name (o : SortOrder) : string :=
  match o with asc => "asc" | desc => "desc" end.

Definition SortField_eqb (a b : SortField) : bool :=
  String.eqb (field_name a) (field_name b).

(** The state of the component (l.29-32). *)
Record View : Set := mkView {
  shown : list ExperimentSummary;
  loading : bool;
  sortField : SortField;
  sortOrder : SortOrder
}.

Definition opened : View := mkView [] true by_created_at desc.

Definition fetch_failed : Toast :=
  mkToast "Error" "Failed to fetch experiments" (Some "destructive"%string).

Definition deleted : Toast :=
  mkToast "Experiment deleted" "The experiment has been deleted successfully" None.

Definition delete_failed : Toast :=
  mkToast "Error" "Failed to delete experiment" (Some "destructive"%string).

Definition started : Toast :=
  mkToast "Experiment started" "The experiment has been queued for execution" None.

Definition start_failed : Toast :=
  mkToast "Error" "Failed to start experiment" (Some "destructive"%string).

(** [fetchExperiments()] (l.42-55) *)
Definition fetchExperiments (v : View) (s : Store) : View * option Toast :=
  match Client.getExperiments (field_name (sortField v)) (order_name (sortOrder v)) s with
  | Returned data => (mkView data false (sortField v) (sortOrder v), None)
  | Thrown _ => (mkView (shown v) false (sortField v) (sortOrder v), Some fetch_failed)
  end.

(** [handleSort(field)] (l.57-64) *)
Definition handleSort (field : SortField) (v : View) : View :=
  if SortField_eqb field (sortField v) then
    mkView (shown v) (loading v) (sortField v)
      (match sortOrder v with asc => desc | desc => asc end)
  else
    mkView (shown v) (loading v) field desc.

(** [handleDelete(id)] (l.66-81) *)
Definition handleDelete (id : Z) (v : View) (s : Store)
    : View * Toast * Store * list Task :=
  match Client.deleteExperiment id s with
  | (Returned _, s', timers) =>
      (mkView (filter (fun exp => negb (s_id exp =? id)) (shown v))
         (loading v) (sortField v) (sortOrder v),
       deleted, s', timers)
  | (Thrown _, s', timers) => (v, delete_failed, s', timers)
  end.

(** [handleRun(id)] (l.83-98): the toast, and whether [fetchExperiments()]
    is started. *)
Definition handleRun (id : Z) (s : Store) : Toast * bool * Store * list Task :=
  match Client.runExperiment id s with
  | (Returned _, s', timers) => (started, true, s', timers)
  | (Thrown _, s', timers) => (start_failed, false, s', timers)
  end.

(** [disabled] of the item Run Again (l.181-184) *)
Definition run_disabled (experiment : ExperimentSummary) : bool :=
  Status_eqb (s_status experiment) running
  || Status_eqb (s_status experiment) queued.

(** [disabled] of the item Delete (l.188-191) *)
Definition delete_disabled (experiment : ExperimentSummary) : bool :=
  Status_eqb (s_status experiment) running.

End ExperimentList.

(** ** The detail view ([components/experiment-detail.tsx]) *)

Module ExperimentDetail.

(** The state of the component (l.16-18); [details] is the parsed body of
    the last answer. *)
Record View : Set := mkView {
  details : option Body;
  loading : bool;
  isRunning : bool
}.

(** [data.status === status]; a body without this property compares
    unequal. *)
Definition status_is (data : Body) (status : Status) : bool :=
  match data with
  | JsonExperiment experiment => Status_eqb (Experiment.status (row experiment)) status
  | _ => false
  end.

Definition fetch_failed : Toast :=
  mkToast "Error" "Failed to fetch experiment details" (Some "destructive"%string).

(** [fetchDetails()] (l.34-49) *)
Definition fetchDetails (id : Z) (v : View) (s : Store) : View * option Toast :=
  match Client.getExperimentDetails id s with
  | (Returned data, _, _) =>
      (mkView (Some data) false (status_is data running || status_is data queued),
       None)
  | (Thrown _, _, _) => (mkView (details v) false (isRunning v), Some fetch_failed)
  end.

(** Whether the button Run Again is rendered (l.86-102). *)
Definition run_again_shown (v : View) : bool :=
  if loading v then false
  else
    match details v with
    | None => false
    | Some data => negb (isRunning v) && negb (status_is data completed)
    end.

(** [handleRunAgain()] (l.51-68): the view once [setIsRunning(true)] has
    been called, the toast, and whether [fetchDetails()] is started. *)
Definition handleRunAgain (id : Z) (v : View) (s : Store)
    : View * Toast * bool * Store * list Task :=
  match Client.runExperiment id s with
  | (Returned _, s', timers) =>
      (mkView (details v) (loading v) true, ExperimentList.started, true, s', timers)
  | (Thrown _, s', timers) => (v, ExperimentList.start_failed, false, s', timers)
  end.

End ExperimentDetail.

(** ** What the views offer and what the server accepts *)

Lemma select_experiment_unique s r :
  NoDup (map Experiment.id (experiments s)) ->
  In r (experiments s) ->
  Sql.select_experiment (Experiment.id r) s = Some r.
Proof.
  intros Hnodup Hin. unfold Sql.select_experiment.
  destruct (find (fun x => Experiment.id x =? Experiment.id r) (experiments s))
    as [r'|] eqn:Hfind.
  - apply find_some in Hfind. destruct Hfind as [Hin' Hid]. apply Z.eqb_eq in Hid.
    now rewrite (unique_row _ r' r Hnodup Hin' Hin Hid).
  - apply (find_none _ _ Hfind) in Hin. now rewrite Z.eqb_refl in Hin.
Qed.

Lemma listed_row sortField sortOrder s e :
  In e (Listing.getExperiments sortField sortOrder s) ->
  exists r, In r (experiments s) /\ e = Listing.summary r.
Proof.
  unfold Listing.getExperiments. intros Hin. apply in_map_iff in Hin.
  destruct Hin as (r & <- & Hr). exists r. split; [|reflexivity].
  now apply (Permutation_in _ (order_by_permutation _ _)) in Hr.
Qed.

Section ListActions.

Variable Math_exp : float -> float.

(** X16.  On a listing of the current store, the list view disables an
    action exactly when the server would refuse it: Run Again is enabled if
    and only if [handleRun] ends with the toast of success, and Delete is
    enabled if and only if [handleDelete] does. *)
Theorem list_actions_agree_with_server :
  forall sys sortField sortOrder e v,
    reachable Math_exp sys ->
    In e (Listing.getExperiments sortField sortOrder (store sys)) ->
    (ExperimentList.run_disabled e = false <->
     fst (fst (fst (ExperimentList.handleRun (s_id e) (store sys))))
     = ExperimentList.started) /\
    (ExperimentList.delete_disabled e = false <->
     snd (fst (fst (ExperimentList.handleDelete (s_id e) v (store sys))))
     = ExperimentList.deleted).
Proof.
  intros sys sortField sortOrder e v Hreach Hin.
  destruct (listed_row _ _ _ _ Hin) as (r & Hr & ->).
  destruct (reachable_invariant Math_exp sys Hreach) as (Hnodup & _).
  pose proof (select_experiment_unique _ _ Hnodup Hr) as Hsel.
  unfold ExperimentList.run_disabled, ExperimentList.delete_disabled,
    ExperimentList.handleRun, ExperimentList.handleDelete,
    Client.runExperiment, Client.deleteExperiment, Api.POST_run, Api.DELETE,
    db.getExperimentDetails.
  cbn [s_id s_status Listing.summary]. rewrite Hsel. cbn [row].
  split.
  - destruct (Status_eqb (Experiment.status r) running
              || Status_eqb (Experiment.status r) queued);
      cbn; split; congruence || discriminate.
  - destruct (Status_eqb (Experiment.status r) running);
      cbn; split; congruence || discriminate.
Qed.

End ListActions.

Lemma list_actions_agree_with_server_witness :
  exists e,
    In e (Listing.getExperiments "accuracy" "asc" (store Sample.completed_system)) /\
    (ExperimentList.run_disabled e = false <->
     fst (fst (fst (ExperimentList.handleRun (s_id e) (store Sample.completed_system))))
     = ExperimentList.started) /\
    (ExperimentList.delete_disabled e = false <->
     snd (fst (fst (ExperimentList.handleDelete (s_id e) ExperimentList.opened
                      (store Sample.completed_system))))
     = ExperimentList.deleted).
Proof.
  eassert (Hlist : Listing.getExperiments "accuracy" "asc"
                     (store Sample.completed_system) = [_])
    by (vm_compute; reflexivity).
  eassert (Hin : In _ (Listing.getExperiments "accuracy" "asc"
                         (store Sample.completed_system)))
    by (rewrite Hlist; left; reflexivity).
  eexists. split; [exact Hin|].
  exact (list_actions_agree_with_server Sample.Math_exp Sample.completed_system
           "accuracy" "asc" _ ExperimentList.opened completed_system_reachable Hin).
Defined.

(** X17.  Once [fetchDetails] has read an existing experiment, the detail
    view shows the button Run Again exactly when the status is [failed] or
    [not_started]; pressing it then succeeds and sets one timer.  For a
    [completed] experiment the button is not shown, although the server
    would accept the run. *)
Theorem detail_offers_run_again_unless_completed :
  forall id v s r,
    Sql.select_experiment id s = Some r ->
    (ExperimentDetail.run_again_shown (fst (ExperimentDetail.fetchDetails id v s)) = true
     <-> Experiment.status r = failed \/ Experiment.status r = not_started) /\
    (ExperimentDetail.run_again_shown (fst (ExperimentDetail.fetchDetails id v s)) = true ->
     exists s',
       ExperimentDetail.handleRunAgain id (fst (ExperimentDetail.fetchDetails id v s)) s
       = (ExperimentDetail.mkView
            (ExperimentDetail.details (fst (ExperimentDetail.fetchDetails id v s)))
            false true,
          ExperimentList.started, true, s', [Timer id])) /\
    (Experiment.status r = completed ->
     ExperimentDetail.run_again_shown (fst (ExperimentDetail.fetchDetails id v s)) = false /\
     code (fst (fst (Api.POST_run id s))) = 200).
Proof.
  intros id v s r Hsel.
  unfold ExperimentDetail.fetchDetails, ExperimentDetail.handleRunAgain,
    Client.getExperimentDetails, Client.runExperiment, Api.GET, Api.POST_run,
    db.getExperimentDetails.
  rewrite Hsel. cbn [row]. unfold ExperimentDetail.run_again_shown.
  cbn -[Sql.order_by_epoch Sql.select_history Sql.update_experiment
        Sql.delete_history].
  destruct (Experiment.status r) eqn:Hstatus;
    cbn -[Sql.order_by_epoch Sql.select_history Sql.update_experiment
          Sql.delete_history];
    (split; [split; [discriminate || tauto | intros [H|H]; discriminate || reflexivity]|]);
    (split; [discriminate || (intros _; eexists; reflexivity)|]);
    discriminate || (intros _; split; reflexivity).
Qed.

Lemma detail_offers_run_again_unless_completed_witness :
  exists r,
    Sql.select_experiment 1 (store Sample.completed_system) = Some r /\
    (Experiment.status r = completed ->
     ExperimentDetail.run_again_shown
       (fst (ExperimentDetail.fetchDetails 1 (ExperimentDetail.mkView None true false)
               (store Sample.completed_system))) = false /\
     code (fst (fst (Api.POST_run 1 (store Sample.completed_system)))) = 200).
Proof.
  eassert (Hsel : Sql.select_experiment 1 (store Sample.completed_system) = Some _)
    by (vm_compute; reflexivity).
  eexists. split; [exact Hsel|].
  exact (proj2 (proj2 (detail_offers_run_again_unless_completed 1
                         (ExperimentDetail.mkView None true false)
                         (store Sample.completed_system) _ Hsel))).
Defined.

(** X18.  After a click on a column header, the list view fetches a listing
    that holds every experiment once, sorted by the clicked column: in
    descending order when the column changes, in the reverse of the current
    order when the column is the current one.  The names the view sends are
    in the allow-lists of the server, which therefore never falls back to
    its defaults. *)
Theorem list_view_is_sorted_as_selected :
  forall field v s,
    (forall r, In r (experiments s) -> Listing.no_nan r) ->
    exists data order,
      ExperimentList.fetchExperiments (ExperimentList.handleSort field v) s
      = (ExperimentList.mkView data false field order, None) /\
      order = (if ExperimentList.SortField_eqb field (ExperimentList.sortField v)
               then match ExperimentList.sortOrder v with
                    | ExperimentList.asc => ExperimentList.desc
                    | ExperimentList.desc => ExperimentList.asc
                    end
               else ExperimentList.desc) /\
      Permutation data (map Listing.summary (experiments s)) /\
      Sorted (Listing.listed_before (ExperimentList.field_name field)
                (ExperimentList.order_name order)) data.
Proof.
  intros field v s Hnan.
  assert (Hfield : ExperimentList.sortField (ExperimentList.handleSort field v) = field).
  { unfold ExperimentList.handleSort.
    destruct (ExperimentList.SortField_eqb field (ExperimentList.sortField v)) eqn:E;
      [|reflexivity].
    cbn [ExperimentList.sortField].
    destruct field, (ExperimentList.sortField v); reflexivity || discriminate E. }
  assert (Hvalid : forall f o,
            Listing.getExperiments (ExperimentList.field_name f)
              (ExperimentList.order_name o) s
            = map Listing.summary
                (Listing.order_by
                   (Listing.before (ExperimentList.field_name f)
                      (ExperimentList.order_name o)) (experiments s))).
  { intros f o. apply getExperiments_validated.
    - destruct f; simpl; tauto.
    - destruct o; [now left|now right]. }
  set (order := ExperimentList.sortOrder (ExperimentList.handleSort field v)).
  exists (map Listing.summary
            (Listing.order_by
               (Listing.before (ExperimentList.field_name field)
                  (ExperimentList.order_name order)) (experiments s))), order.
  split; [|split; [|split]].
  - unfold ExperimentList.fetchExperiments, Client.getExperiments, Listing.GET.
    rewrite Hfield. fold order.
    replace (Listing.param (Some (ExperimentList.field_name field)) "created_at")
      with (ExperimentList.field_name field) by (destruct field; reflexivity).
    replace (Listing.param (Some (ExperimentList.order_name order)) "desc")
      with (ExperimentList.order_name order) by (destruct order; reflexivity).
    cbn [negb andb Z.leb Z.compare Pos.compare Pos.compare_cont].
    now rewrite Hvalid.
  - subst order. unfold ExperimentList.handleSort.
    destruct (ExperimentList.SortField_eqb field (ExperimentList.sortField v));
      reflexivity.
  - apply Permutation_map, order_by_permutation.
  - now apply order_by_before_sorted.
Qed.

Lemma list_view_is_sorted_as_selected_witness :
  exists data order,
    ExperimentList.fetchExperiments
      (ExperimentList.handleSort ExperimentList.by_accuracy ExperimentList.opened)
      Shelf.two_rows
    = (ExperimentList.mkView data false ExperimentList.by_accuracy order, None) /\
    order = ExperimentList.desc /\
    Permutation data (map Listing.summary (experiments Shelf.two_rows)) /\
    Sorted (Listing.listed_before "accuracy" (ExperimentList.order_name order)) data.
Proof.
  eassert (Hrows : experiments Shelf.two_rows = [_; _])
    by (vm_compute; reflexivity).
  apply (list_view_is_sorted_as_selected ExperimentList.by_accuracy
           ExperimentList.opened Shelf.two_rows).
  rewrite Hrows.
  intros r [<-|[<-|[]]] x [H|[H|H]];
    try discriminate H; injection H as <-; vm_compute; reflexivity.
Defined.

(** * Overlapping requests *)

(** ** Schedules *)

Lemma nth_error_firstn_skipn {A} (l : list A) (n : nat) (x : A) :
  nth_error l n = Some x -> l = firstn n l ++ x :: skipn (S n) l.
Proof.
  revert l. induction n as [|n IH]; intros [|y l] H; try discriminate.
  - injection H as ->. reflexivity.
  - simpl in H. cbn [firstn skipn app]. f_equal. now apply IH.
Qed.

Section Schedules.

Variable Math_exp : float -> float.

Lemma move_transition m sys sys' :
  Overlap.move Math_exp m sys = Some sys' ->
  Overlap.transition Math_exp sys sys'.
Proof.
  destruct m as [r|n|n i]; simpl.
  - intros H. injection H as <-. constructor.
  - destruct (nth_error (Overlap.calls sys) n) as [c|] eqn:Hnth; [|discriminate].
    destruct (Overlap.resume c (Overlap.store sys)) as [[c' s'] timers] eqn:Hresume.
    intros H. injection H as <-.
    apply Overlap.resumption with c; [|exact Hresume].
    now apply nth_error_firstn_skipn.
  - destruct (nth_error (Overlap.tasks sys) n) as [t|] eqn:Hnth; [|discriminate].
    destruct (db.step Math_exp i t (Overlap.store sys)) as [[s' t'] trace] eqn:Hstep.
    intros H. injection H as <-.
    apply Overlap.runner_step with i t trace; [|exact Hstep].
    now apply nth_error_firstn_skipn.
Qed.

Lemma play_reachable schedule : forall sys sys',
  Overlap.reachable Math_exp sys ->
  Overlap.play Math_exp schedule sys = Some sys' ->
  Overlap.reachable Math_exp sys'.
Proof.
  induction schedule as [|m schedule IH]; intros sys sys' Hreach Hplay; simpl in Hplay.
  - now injection Hplay as <-.
  - destruct (Overlap.move Math_exp m sys) as [sys1|] eqn:Hmove; [|discriminate].
    apply (IH sys1); [|exact Hplay].
    apply Overlap.reachable_transition with sys; [exact Hreach|].
    now apply (move_transition m).
Qed.

(** ** A handler that runs alone does what [handle] does *)

Lemma createExperiment_insert now data s :
  db.createExperiment now data s
  = match Overlap.insert_experiment now data s with
    | Thrown error => Thrown error
    | Returned (lastID, s1) => Returned (db.getExperimentDetails lastID s1, s1)
    end.
Proof.
  unfold db.createExperiment, Overlap.insert_experiment.
  destruct (d_name data), (d_learning_rate data), (d_batch_size data),
    (d_epochs data), (d_optimizer data), (d_model_type data),
    (d_hidden_layers data), (d_neurons_per_layer data); reflexivity.
Qed.

(** The last handler resumes. *)
Lemma resume_last s ts cs c :
  Overlap.reachable Math_exp (Overlap.mkSystem s ts (cs ++ [c])) ->
  Overlap.reachable Math_exp
    (Overlap.mkSystem (snd (fst (Overlap.resume c s)))
       (ts ++ snd (Overlap.resume c s))
       (cs ++ Overlap.pending (fst (fst (Overlap.resume c s))))).
Proof.
  intros Hreach.
  apply Overlap.reachable_transition with (1 := Hreach).
  replace (cs ++ Overlap.pending (fst (fst (Overlap.resume c s))))
    with (cs ++ Overlap.pending (fst (fst (Overlap.resume c s))) ++ [])
    by now rewrite app_nil_r.
  apply (Overlap.resumption Math_exp cs c []
           (Overlap.mkSystem s ts (cs ++ [c]))); [reflexivity|].
  cbn [Overlap.store]. now destruct (Overlap.resume c s) as [[c' s'] timers].
Qed.

Lemma queue_alone s ts cs id answer :
  Overlap.reachable Math_exp (Overlap.mkSystem s ts (cs ++ [Queue id answer])) ->
  Overlap.reachable Math_exp
    (Overlap.mkSystem (fst (db.queueExperiment id s))
       (ts ++ [snd (db.queueExperiment id s)]) cs).
Proof.
  intros Hreach. apply resume_last in Hreach.
  cbn [Overlap.resume fst snd Overlap.pending] in Hreach.
  rewrite app_nil_r in Hreach. apply resume_last in Hreach.
  cbn [Overlap.resume fst snd Overlap.pending] in Hreach.
  now rewrite app_nil_r in Hreach.
Qed.

(** Served alone, a request takes the system where [handle] says. *)
Lemma serve_is_overlap r s ts cs response s' timers :
  Overlap.reachable Math_exp (Overlap.mkSystem s ts cs) ->
  handle r s = (response, s', timers) ->
  Overlap.reachable Math_exp (Overlap.mkSystem s' (ts ++ timers) cs).
Proof.
  intros Hreach Hhandle.
  assert (Harrive : Overlap.reachable Math_exp
                      (Overlap.mkSystem s ts (cs ++ Overlap.pending (Overlap.start r)))).
  { apply Overlap.reachable_transition with (1 := Hreach).
    apply (Overlap.arrival Math_exp r (Overlap.mkSystem s ts cs)). }
  assert (Hstay : Overlap.reachable Math_exp (Overlap.mkSystem s (ts ++ []) cs))
    by now rewrite app_nil_r.
  destruct r as [now data|id|id|id]; cbn [handle Overlap.start] in *.
  - unfold Api.POST in Hhandle.
    destruct (Api.required_fields data); cbn [negb] in *;
      [|injection Hhandle as <- <- <-; exact Hstay].
    cbn [Overlap.pending] in Harrive. apply resume_last in Harrive.
    cbn [Overlap.resume] in Harrive.
    destruct (db.findSimilarExperiment data s) as [existingId|];
      [injection Hhandle as <- <- <-; exact Hstay|].
    cbn [fst snd Overlap.pending] in Harrive. rewrite app_nil_r in Harrive.
    apply resume_last in Harrive.
    rewrite createExperiment_insert in Hhandle. cbn [Overlap.resume] in Harrive.
    destruct (Overlap.insert_experiment now data s) as [[lastID s1]|error];
      [|injection Hhandle as <- <- <-; exact Hstay].
    cbn [fst snd Overlap.pending] in Harrive. rewrite app_nil_r in Harrive.
    apply resume_last in Harrive. cbn [Overlap.resume] in Harrive.
    destruct (db.getExperimentDetails lastID s1) as [experiment|];
      cbn [fst snd Overlap.pending] in Harrive; rewrite !app_nil_r in Harrive.
    + apply queue_alone in Harrive. unfold db.queueExperiment in *.
      cbn [fst snd] in *. now injection Hhandle as <- <- <-.
    + injection Hhandle as <- <- <-. now rewrite app_nil_r.
  - cbn [Overlap.pending] in Harrive. apply resume_last in Harrive.
    unfold Api.GET in Hhandle. cbn [Overlap.resume] in Harrive.
    destruct (db.getExperimentDetails id s);
      injection Hhandle as <- <- <-; cbn [fst snd Overlap.pending] in Harrive;
      now rewrite app_nil_r in Harrive.
  - cbn [Overlap.pending] in Harrive. apply resume_last in Harrive.
    unfold Api.DELETE in Hhandle. cbn [Overlap.resume] in Harrive.
    destruct (db.getExperimentDetails id s) as [experiment|];
      [|injection Hhandle as <- <- <-; exact Hstay].
    destruct (Status_eqb (Experiment.status (row experiment)) running);
      [injection Hhandle as <- <- <-; exact Hstay|].
    cbn [fst snd Overlap.pending] in Harrive. rewrite app_nil_r in Harrive.
    apply resume_last in Harrive.
    cbn [Overlap.resume fst snd Overlap.pending] in Harrive.
    rewrite app_nil_r in Harrive. apply resume_last in Harrive.
    cbn [Overlap.resume fst snd Overlap.pending] in Harrive.
    injection Hhandle as <- <- <-. now rewrite ?app_nil_r in *.
  - cbn [Overlap.pending] in Harrive. apply resume_last in Harrive.
    unfold Api.POST_run in Hhandle. cbn [Overlap.resume] in Harrive.
    destruct (db.getExperimentDetails id s) as [experiment|];
      [|injection Hhandle as <- <- <-; exact Hstay].
    destruct (Status_eqb (Experiment.status (row experiment)) running
              || Status_eqb (Experiment.status (row experiment)) queued);
      [injection Hhandle as <- <- <-; exact Hstay|].
    cbn [fst snd Overlap.pending] in Harrive. rewrite app_nil_r in Harrive.
    apply queue_alone in Harrive. unfold db.queueExperiment in *.
    cbn [fst snd] in *. now injection Hhandle as <- <- <-.
Qed.

(** Every run with requests served one at a time is a run of the program:
    it is the run in which each handler resumes until it has answered
    before anything else happens. *)
Lemma serial_is_overlap sys :
  reachable Math_exp sys ->
  Overlap.reachable Math_exp (Overlap.mkSystem (store sys) (tasks sys) []).
Proof.
  induction 1 as [|sys sys' _ IH Htrans]; [constructor|].
  destruct Htrans as [r sys response s' timers Hhandle
                     |i before t after sys s' t' trace Htasks Hstep];
    cbn [store tasks].
  - exact (serve_is_overlap r _ _ _ response _ _ IH Hhandle).
  - apply Overlap.reachable_transition with (1 := IH).
    now apply (Overlap.runner_step Math_exp i before t after
                 (Overlap.mkSystem (store sys) (tasks sys) []) s' t' trace).
Qed.

End Schedules.

(** ** What holds however handlers and runners overlap *)

(** From [s] to [s'] the sequence of keys has not decreased, and a row of
    [s'] either has a key handed out since, or is a row of [s] with the
    same key and the same [epochs]. *)
Definition evolves (s s' : Store) : Prop :=
  seq_experiments s <= seq_experiments s' /\
  forall r', In r' (experiments s') ->
    seq_experiments s < Experiment.id r' \/
    exists r, In r (experiments s) /\
              Experiment.id r = Experiment.id r' /\
              Experiment.epochs r = Experiment.epochs r'.

(** Keys are unique and were handed out by the sequence, and the current
    epoch of every row is within its bounds. *)
Definition rows_in_bounds (s : Store) : Prop :=
  NoDup (map Experiment.id (experiments s)) /\
  forall r, In r (experiments s) ->
    Experiment.id r <= seq_experiments s /\
    0 <= Experiment.current_epoch r <= Z.max 0 (Experiment.epochs r).

(** The snapshot a runner holds has the [epochs] of the row it runs, and
    its loop variable is positive. *)
Definition snapshot_ok (s : Store) (t : Task) : Prop :=
  match t with
  | AtSetRunning id experiment =>
      id <= seq_experiments s /\
      at_row s id (fun r => Experiment.epochs (row experiment) = Experiment.epochs r)
  | AtLoop id experiment _ epoch
  | AtSleep id experiment _ epoch
  | AtSimulate id experiment _ epoch =>
      id <= seq_experiments s /\
      at_row s id (fun r => Experiment.epochs (row experiment) = Experiment.epochs r) /\
      1 <= epoch
  | _ => True
  end.

(** The handler is between the [INSERT] of experiment [id] and the
    [UPDATE] that queues it. *)
Definition creating (c : Call) (id : Z) : Prop :=
  match c with
  | PostFetch lastID => lastID = id
  | Queue id' _ => id' = id
  | _ => False
  end.

(** A row is [not_started] only while a handler is creating it. *)
Definition created_ok (cs : list Call) (s : Store) : Prop :=
  forall r, In r (experiments s) -> Experiment.status r = not_started ->
    exists c, In c cs /\ creating c (Experiment.id r).

Definition overlap_invariant (sys : Overlap.System) : Prop :=
  rows_in_bounds (Overlap.store sys) /\
  (forall t, In t (Overlap.tasks sys) -> snapshot_ok (Overlap.store sys) t) /\
  created_ok (Overlap.calls sys) (Overlap.store sys).

Lemma evolves_same_rows s s' :
  experiments s' = experiments s -> seq_experiments s' = seq_experiments s ->
  evolves s s'.
Proof.
  intros Hrows Hseq. split; [lia|]. intros r' Hr'. right. exists r'.
  rewrite Hrows in Hr'. auto.
Qed.

Lemma evolves_update id f s :
  keeps_configuration f -> evolves s (Sql.update_experiment id f s).
Proof.
  intros Hf. split; [simpl; lia|]. intros r' Hr'. right.
  apply in_update_experiment in Hr'. destruct Hr' as (r & Hr & ->).
  exists r. split; [exact Hr|].
  destruct (Experiment.id r =? id); [|auto].
  destruct (Hf r) as (Hid & Hepochs & _). auto.
Qed.

Lemma evolves_delete id s : evolves s (Sql.delete_experiment id s).
Proof.
  split; [simpl; lia|]. intros r' Hr'. right. exists r'.
  simpl in Hr'. apply filter_In in Hr'. tauto.
Qed.

Lemma insert_experiment_rows now data s lastID s1 :
  Overlap.insert_experiment now data s = Returned (lastID, s1) ->
  exists r,
    experiments s1 = experiments s ++ [r] /\
    experiment_history s1 = experiment_history s /\
    seq_experiments s1 = lastID /\
    Experiment.id r = lastID /\
    lastID = Sql.next_rowid Experiment.id (experiments s) (seq_experiments s) /\
    Experiment.status r = not_started /\
    Experiment.current_epoch r = 0.
Proof.
  unfold Overlap.insert_experiment.
  destruct (d_name data), (d_learning_rate data), (d_batch_size data),
    (d_epochs data), (d_optimizer data), (d_model_type data),
    (d_hidden_layers data), (d_neurons_per_layer data); try discriminate.
  intros H. injection H as <- <-. eexists. repeat split.
Qed.

Lemma next_rowid_above_sequence {A} (rowid : A -> Z) rows sequence :
  sequence < Sql.next_rowid rowid rows sequence.
Proof. unfold Sql.next_rowid. lia. Qed.

Lemma evolves_insert now data s lastID s1 :
  Overlap.insert_experiment now data s = Returned (lastID, s1) ->
  evolves s s1.
Proof.
  intros H. destruct (insert_experiment_rows _ _ _ _ _ H)
    as (r & Hrows & _ & Hseq & Hid & Hlast & _).
  pose proof (next_rowid_above_sequence Experiment.id (experiments s)
                (seq_experiments s)) as Habove.
  split; [lia|]. intros r' Hr'. rewrite Hrows in Hr'.
  apply in_app_iff in Hr'. destruct Hr' as [Hr'|[<-|[]]].
  - right. exists r'. auto.
  - left. lia.
Qed.

Lemma snapshot_ok_evolves s s' t :
  evolves s s' -> snapshot_ok s t -> snapshot_ok s' t.
Proof.
  intros [Hseq Hrows].
  assert (Hat : forall id (P : Z -> Prop),
            id <= seq_experiments s ->
            at_row s id (fun r => P (Experiment.epochs r)) ->
            at_row s' id (fun r => P (Experiment.epochs r))).
  { intros id P Hid Hat r' Hr' Hid'.
    destruct (Hrows r' Hr') as [Hnew|(r & Hr & Hsame & Hepochs)]; [lia|].
    rewrite <- Hepochs. apply Hat; [exact Hr|congruence]. }
  destruct t as [id|id e|id e st ep|id e st ep|id e st ep|id d l|id|]; simpl;
    trivial.
  - intros [Hid H]. split; [lia|].
    exact (Hat id (fun x => Experiment.epochs (row e) = x) Hid H).
  - intros (Hid & H & Hep). split; [lia|]. split; [|exact Hep].
    exact (Hat id (fun x => Experiment.epochs (row e) = x) Hid H).
  - intros (Hid & H & Hep). split; [lia|]. split; [|exact Hep].
    exact (Hat id (fun x => Experiment.epochs (row e) = x) Hid H).
  - intros (Hid & H & Hep). split; [lia|]. split; [|exact Hep].
    exact (Hat id (fun x => Experiment.epochs (row e) = x) Hid H).
Qed.

Lemma rows_in_bounds_same_rows s s' :
  experiments s' = experiments s -> seq_experiments s' = seq_experiments s ->
  rows_in_bounds s -> rows_in_bounds s'.
Proof. unfold rows_in_bounds. now intros -> ->. Qed.

Lemma rows_in_bounds_update id f s :
  keeps_configuration f ->
  (forall r, In r (experiments s) -> Experiment.id r = id ->
     0 <= Experiment.current_epoch r <= Z.max 0 (Experiment.epochs r) ->
     0 <= Experiment.current_epoch (f r) <= Z.max 0 (Experiment.epochs r)) ->
  rows_in_bounds s -> rows_in_bounds (Sql.update_experiment id f s).
Proof.
  intros Hf Hbound [Hnodup Hrows]. split.
  - now rewrite ids_after_update.
  - intros r' Hr'. apply in_update_experiment in Hr'.
    destruct Hr' as (r & Hr & ->). destruct (Hrows r Hr) as [Hid Hcur].
    destruct (Experiment.id r =? id) eqn:E; [|now split].
    apply Z.eqb_eq in E. destruct (Hf r) as (Hid' & Hepochs & _).
    rewrite Hid', Hepochs. split; [exact Hid|]. now apply Hbound.
Qed.

Lemma rows_in_bounds_delete id s :
  rows_in_bounds s -> rows_in_bounds (Sql.delete_experiment id s).
Proof.
  intros [Hnodup Hrows]. split.
  - now apply ids_after_delete.
  - intros r Hr. simpl in Hr. apply filter_In in Hr. now apply Hrows.
Qed.

Lemma rows_in_bounds_insert now data s lastID s1 :
  Overlap.insert_experiment now data s = Returned (lastID, s1) ->
  rows_in_bounds s -> rows_in_bounds s1.
Proof.
  intros H [Hnodup Hrows]. destruct (insert_experiment_rows _ _ _ _ _ H)
    as (r & Hrows1 & _ & Hseq & Hid & Hlast & _ & Hcur).
  pose proof (next_rowid_above_sequence Experiment.id (experiments s)
                (seq_experiments s)) as Habove.
  split.
  - rewrite Hrows1, map_app. apply NoDup_snoc; [exact Hnodup|].
    intros Hin. apply in_map_iff in Hin. destruct Hin as (x & Hx & Hin).
    apply Hrows in Hin. lia.
  - intros r' Hr'. rewrite Hrows1 in Hr'. apply in_app_iff in Hr'.
    destruct Hr' as [Hr'|[<-|[]]].
    + destruct (Hrows r' Hr'). split; [lia|assumption].
    + split; lia.
Qed.

Lemma created_ok_same_rows cs s s' :
  experiments s' = experiments s -> created_ok cs s -> created_ok cs s'.
Proof. unfold created_ok. now intros ->. Qed.

Lemma created_ok_update cs id f s :
  keeps_configuration f ->
  (forall r, Experiment.status (f r) = not_started ->
             Experiment.status r = not_started) ->
  created_ok cs s -> created_ok cs (Sql.update_experiment id f s).
Proof.
  intros Hf Hstatus Hok r' Hr' Hnot. apply in_update_experiment in Hr'.
  destruct Hr' as (r & Hr & ->).
  destruct (Experiment.id r =? id); [|now apply Hok].
  destruct (Hf r) as (-> & _). apply Hok; [exact Hr|now apply Hstatus].
Qed.

Lemma created_ok_calls cs cs' s :
  (forall c id, In c cs -> creating c id -> In c cs') ->
  created_ok cs s -> created_ok cs' s.
Proof.
  intros Hcalls Hok r Hr Hnot. destruct (Hok r Hr Hnot) as (c & Hc & Hcreating).
  exists c. split; [|exact Hcreating]. now apply Hcalls with (Experiment.id r).
Qed.

Lemma evolves_refl s : evolves s s.
Proof. now apply evolves_same_rows. Qed.

(** A step of a runner keeps all of this, whatever the handlers in
    flight. *)
Lemma step_overlap Math_exp i t s s' t' trace cs :
  db.step Math_exp i t s = (s', t', trace) ->
  rows_in_bounds s -> snapshot_ok s t -> created_ok cs s ->
  rows_in_bounds s' /\ evolves s s' /\ snapshot_ok s' t' /\ created_ok cs s'.
Proof.
  intros Hstep Hrows Hsnap Hcreated.
  assert (Hstay : forall t0, snapshot_ok s t0 ->
            rows_in_bounds s /\ evolves s s /\ snapshot_ok s t0 /\ created_ok cs s).
  { intros t0 H0. split; [exact Hrows|]. split; [apply evolves_refl|]. now split. }
  assert (Hupdate : forall id f t0,
            keeps_configuration f ->
            (forall r, In r (experiments s) -> Experiment.id r = id ->
               0 <= Experiment.current_epoch r <= Z.max 0 (Experiment.epochs r) ->
               0 <= Experiment.current_epoch (f r) <= Z.max 0 (Experiment.epochs r)) ->
            (forall r, Experiment.status (f r) = not_started ->
                       Experiment.status r = not_started) ->
            snapshot_ok s t0 ->
            rows_in_bounds (Sql.update_experiment id f s) /\
            evolves s (Sql.update_experiment id f s) /\
            snapshot_ok (Sql.update_experiment id f s) t0 /\
            created_ok cs (Sql.update_experiment id f s)).
  { intros id f t0 Hf Hbound Hstatus H0. split; [now apply rows_in_bounds_update|].
    split; [now apply evolves_update|]. split.
    - apply snapshot_ok_evolves with s; [now apply evolves_update|exact H0].
    - now apply created_ok_update. }
  destruct t as [id|id e|id e st ep|id e st ep|id e st ep|id d l|id|];
    cbn [db.step] in Hstep.
  - destruct (faulty i); [injection Hstep as <- <- <-; now apply Hstay|].
    unfold db.getExperimentDetails in Hstep.
    destruct (Sql.select_experiment id s) as [r|] eqn:Hsel;
      injection Hstep as <- <- <-; apply Hstay; simpl; trivial.
    destruct (select_experiment_id _ _ _ Hsel) as [Hin Hid].
    destruct Hrows as [Hnodup Hbounds]. split.
    + rewrite <- Hid. now apply Hbounds.
    + intros r' Hr' Hid'.
      now rewrite (unique_row _ r' r Hnodup Hr' Hin) by congruence.
  - destruct (faulty i); injection Hstep as <- <- <-; [now apply Hstay|].
    simpl in Hsnap. destruct Hsnap as [Hid Hat].
    apply Hupdate; auto with store; simpl; try discriminate.
    split; [exact Hid|]. split; [exact Hat|lia].
  - simpl in Hsnap. destruct Hsnap as (Hid & Hat & Hep).
    destruct (ep <=? Experiment.epochs (row e)) eqn:Hle.
    + destruct (faulty i); injection Hstep as <- <- <-; [now apply Hstay|].
      apply Z.leb_le in Hle.
      apply Hupdate; auto with store; simpl; [|now repeat split].
      intros r Hr Hrid _. rewrite <- (Hat r Hr Hrid). lia.
    + destruct (faulty i); [injection Hstep as <- <- <-; now apply Hstay|].
      destruct (Sql.last_by_epoch (Sql.select_history id s));
        injection Hstep as <- <- <-; now apply Hstay.
  - injection Hstep as <- <- <-. now apply Hstay.
  - simpl in Hsnap. destruct Hsnap as (Hid & Hat & Hep).
    destruct (faulty i); injection Hstep as <- <- <-; [now apply Hstay|].
    assert (Hev : evolves s (Sql.insert_history id ep
                               (trainLoss (db.simulateMetrics Math_exp ep i))
                               (valLoss (db.simulateMetrics Math_exp ep i))
                               (trainAcc (db.simulateMetrics Math_exp ep i))
                               (valAcc (db.simulateMetrics Math_exp ep i)) s))
      by now apply evolves_same_rows.
    split; [now apply rows_in_bounds_same_rows with s|]. split; [exact Hev|].
    split; [|now apply created_ok_same_rows with s].
    apply snapshot_ok_evolves with s; [exact Hev|]. simpl.
    split; [exact Hid|]. split; [exact Hat|lia].
  - destruct (faulty i); injection Hstep as <- <- <-; [now apply Hstay|].
    apply Hupdate; auto with store; simpl; trivial; discriminate.
  - destruct (faulty i); injection Hstep as <- <- <-; [now apply Hstay|].
    apply Hupdate; auto with store; simpl; trivial; discriminate.
  - injection Hstep as <- <- <-. now apply Hstay.
Qed.

Lemma in_calls_replaced (before after cs' : list Call) (c x : Call) :
  In x (before ++ c :: after) -> x = c \/ In x (before ++ cs' ++ after).
Proof.
  rewrite !in_app_iff. simpl. intros [H|[H|H]]; auto.
Qed.

Lemma created_ok_resumed before c c' after s :
  (forall id, ~ creating c id) ->
  created_ok (before ++ c :: after) s ->
  created_ok (before ++ Overlap.pending c' ++ after) s.
Proof.
  intros Hnot. apply created_ok_calls. intros c0 id Hin Hcreating.
  destruct (in_calls_replaced before after (Overlap.pending c') c c0 Hin)
    as [->|H]; [|exact H].
  now destruct (Hnot id).
Qed.

(** A step of a handler keeps all of this, whatever else is in flight. *)
Lemma resume_overlap c s c' s' timers before after :
  Overlap.resume c s = (c', s', timers) ->
  rows_in_bounds s -> created_ok (before ++ c :: after) s ->
  rows_in_bounds s' /\ evolves s s' /\
  created_ok (before ++ Overlap.pending c' ++ after) s' /\
  (forall t, In t timers -> snapshot_ok s' t).
Proof.
  intros Hresume Hrows Hcreated.
  assert (Hstay : forall c0,
            (forall id, ~ creating c id) ->
            rows_in_bounds s /\ evolves s s /\
            created_ok (before ++ Overlap.pending c0 ++ after) s /\
            (forall t, In t (@nil Task) -> snapshot_ok s t)).
  { intros c0 Hnot. split; [exact Hrows|]. split; [apply evolves_refl|].
    split; [now apply created_ok_resumed with c|]. intros t []. }
  destruct c as [now data|now data|lastID|id answer|id answer|id|id|id|id|id|response];
    cbn [Overlap.resume] in Hresume.
  - destruct (db.findSimilarExperiment data s);
      injection Hresume as <- <- <-; apply Hstay; intros id [].
  - destruct (Overlap.insert_experiment now data s) as [[lastID s1]|error] eqn:Hinsert;
      injection Hresume as <- <- <-; [|apply Hstay; intros id []].
    split; [now apply rows_in_bounds_insert with now data s lastID|].
    split; [now apply evolves_insert with now data lastID|].
    split; [|intros t []].
    destruct (insert_experiment_rows _ _ _ _ _ Hinsert)
      as (r & Hrows1 & _ & _ & Hid & _).
    intros r' Hr' Hnot. rewrite Hrows1 in Hr'. apply in_app_iff in Hr'.
    destruct Hr' as [Hr'|[<-|[]]].
    + destruct (Hcreated r' Hr' Hnot) as (c0 & Hc0 & Hcreating).
      exists c0. split; [|exact Hcreating].
      destruct (in_calls_replaced before after
                  (Overlap.pending (PostFetch lastID)) _ c0 Hc0) as [->|H];
        [destruct Hcreating|exact H].
    + exists (PostFetch lastID). split; [|exact (eq_sym Hid)].
      rewrite !in_app_iff. right. left. now left.
  - unfold db.getExperimentDetails in Hresume.
    destruct (Sql.select_experiment lastID s) as [r|] eqn:Hsel;
      injection Hresume as <- <- <-;
      (split; [exact Hrows|]); (split; [apply evolves_refl|]);
      (split; [|intros t []]); intros r' Hr' Hnot;
      destruct (Hcreated r' Hr' Hnot) as (c0 & Hc0 & Hcreating).
    + destruct (select_experiment_id _ _ _ Hsel) as [_ Hid]. cbn [row].
      destruct (in_calls_replaced before after
                  (Overlap.pending
                     (Queue (Experiment.id r)
                        (mkResponse
                           (JsonExperiment
                              (mkExperimentDetails r
                                 (Sql.order_by_epoch
                                    (map db.to_history (Sql.select_history lastID s)))))
                           201))) _ c0 Hc0) as [->|H].
      * eexists. split; [rewrite !in_app_iff; right; left; now left|].
        simpl in *. congruence.
      * exists c0. now split.
    + destruct (in_calls_replaced before after
                  (Overlap.pending
                     (Answered (mkResponse (JsonError "Failed to create experiment") 500)))
                  _ c0 Hc0) as [->|H].
      * simpl in Hcreating. subst lastID.
        apply (find_none _ _ Hsel) in Hr'. now rewrite Z.eqb_refl in Hr'.
      * exists c0. now split.
  - injection Hresume as <- <- <-.
    split; [apply rows_in_bounds_update; auto with store; simpl; intros; lia|].
    split; [apply evolves_update; auto with store|]. split; [|intros t []].
    intros r' Hr' Hnot. apply in_update_experiment in Hr'.
    destruct Hr' as (r & Hr & ->).
    destruct (Experiment.id r =? id) eqn:E; [discriminate Hnot|].
    destruct (Hcreated r Hr Hnot) as (c0 & Hc0 & Hcreating).
    exists c0. split; [|exact Hcreating].
    destruct (in_calls_replaced before after (Overlap.pending (Clear id answer))
                _ c0 Hc0) as [->|H]; [|exact H].
    simpl in Hcreating. apply Z.eqb_neq in E. congruence.
  - injection Hresume as <- <- <-.
    split; [now apply rows_in_bounds_same_rows with s|].
    split; [now apply evolves_same_rows|]. split; [|intros t Ht; now destruct Ht as [<-|[]]].
    apply created_ok_same_rows with s; [reflexivity|].
    apply created_ok_resumed with (Clear id answer); [intros id0 []|exact Hcreated].
  - destruct (db.getExperimentDetails id s);
      injection Hresume as <- <- <-; apply Hstay; intros id0 [].
  - destruct (db.getExperimentDetails id s) as [experiment|];
      [destruct (Status_eqb (Experiment.status (row experiment)) running)|];
      injection Hresume as <- <- <-; apply Hstay; intros id0 [].
  - injection Hresume as <- <- <-.
    split; [now apply rows_in_bounds_same_rows with s|].
    split; [now apply evolves_same_rows|]. split; [|intros t []].
    apply created_ok_same_rows with s; [reflexivity|].
    apply created_ok_resumed with (DeleteHistory id); [intros id0 []|exact Hcreated].
  - injection Hresume as <- <- <-.
    split; [now apply rows_in_bounds_delete|].
    split; [apply evolves_delete|]. split; [|intros t []].
    intros r Hr Hnot. simpl in Hr. apply filter_In in Hr. destruct Hr as [Hr _].
    apply (created_ok_resumed before (DeleteRow id)
             (Answered (mkResponse JsonSuccess 200)) after s); trivial.
    intros id0 [].
  - destruct (db.getExperimentDetails id s) as [experiment|];
      [destruct (Status_eqb (Experiment.status (row experiment)) running
                 || Status_eqb (Experiment.status (row experiment)) queued)|];
      injection Hresume as <- <- <-; apply Hstay; intros id0 [].
  - injection Hresume as <- <- <-. apply Hstay. intros id0 [].
Qed.

Section OverlapInvariant.

Variable Math_exp : float -> float.

Lemma overlap_transition_preserves sys sys' :
  Overlap.transition Math_exp sys sys' ->
  overlap_invariant sys -> overlap_invariant sys'.
Proof.
  intros Htrans (Hrows & Htasks & Hcreated).
  destruct Htrans as [r sys
                     |before c after sys c' s' timers Hcalls Hresume
                     |i before t after sys s' t' trace Hsplit Hstep];
    unfold overlap_invariant; cbn [Overlap.store Overlap.tasks Overlap.calls].
  - split; [exact Hrows|]. split; [exact Htasks|].
    apply created_ok_calls with (2 := Hcreated). intros c id Hc _.
    apply in_app_iff. now left.
  - rewrite Hcalls in Hcreated.
    destruct (resume_overlap _ _ _ _ _ _ _ Hresume Hrows Hcreated)
      as (Hrows' & Hev & Hcreated' & Htimers).
    split; [exact Hrows'|]. split; [|exact Hcreated'].
    intros t Ht. apply in_app_iff in Ht. destruct Ht as [Ht|Ht].
    + apply snapshot_ok_evolves with (Overlap.store sys); auto.
    + now apply Htimers.
  - assert (Ht : snapshot_ok (Overlap.store sys) t).
    { apply Htasks. rewrite Hsplit. apply in_app_iff. right. now left. }
    destruct (step_overlap _ _ _ _ _ _ _ (Overlap.calls sys) Hstep Hrows Ht Hcreated)
      as (Hrows' & Hev & Ht' & Hcreated').
    split; [exact Hrows'|]. split; [|exact Hcreated'].
    intros t0 Ht0. apply in_app_iff in Ht0. destruct Ht0 as [Ht0|[<-|Ht0]].
    + apply snapshot_ok_evolves with (Overlap.store sys); [exact Hev|].
      apply Htasks. rewrite Hsplit. apply in_app_iff. now left.
    + exact Ht'.
    + apply snapshot_ok_evolves with (Overlap.store sys); [exact Hev|].
      apply Htasks. rewrite Hsplit. apply in_app_iff. right. now right.
Qed.

Lemma overlap_reachable_invariant sys :
  Overlap.reachable Math_exp sys -> overlap_invariant sys.
Proof.
  induction 1 as [|sys sys' _ IH Htrans].
  - split; [split; [constructor|intros r []]|]. split; intros ? [].
  - now apply overlap_transition_preserves with sys.
Qed.

End OverlapInvariant.

(** ** Two requests to run one experiment that overlap *)

Module Race.

Definition advance (n : nat) (t : Z) : Overlap.Move :=
  Overlap.Advance n (Sample.input t).

(** [Sample.data] is posted; its handler has inserted the row and is about
    to read it back. *)
Definition inserting : list Overlap.Move :=
  [Overlap.Arrive (Create 0 Sample.data); Overlap.Resume 0; Overlap.Resume 0].





Definition after (schedule : list Overlap.Move) : Overlap.System :=
  match Overlap.play Sample.Math_exp schedule Overlap.initial with
  | Some sys => sys
  | None => Overlap.initial
  end.

End Race.

Lemma race_reachable schedule :
  Overlap.play Sample.Math_exp schedule Overlap.initial = Some (Race.after schedule) ->
  Overlap.reachable Sample.Math_exp (Race.after schedule).
Proof.
  apply play_reachable. constructor.
Qed.



Section Overlapping.

Variable Math_exp : float -> float.


(** X4.  However handlers and runners overlap, a record is [not_started]
    only while the [POST] that inserted it is suspended before the [UPDATE]
    of [queueExperiment]: a handler is then in flight that is about to read
    the record back or to queue it.  With no handler in flight, no record
    is [not_started]. *)
Theorem not_started_only_while_created :
  forall sys r,
    Overlap.reachable Math_exp sys ->
    In r (experiments (Overlap.store sys)) ->
    Experiment.status r = not_started ->
    (In (PostFetch (Experiment.id r)) (Overlap.calls sys) \/
     exists answer, In (Queue (Experiment.id r) answer) (Overlap.calls sys)) /\
    Overlap.calls sys <> [].
Proof.
  intros sys r Hreach Hin Hnot.
  destruct (overlap_reachable_invariant Math_exp sys Hreach) as (_ & _ & Hcreated).
  destruct (Hcreated r Hin Hnot) as (c & Hc & Hcreating).
  split.
  - destruct c; simpl in Hcreating; try contradiction; subst.
    + now left.
    + right. now exists answer.
  - intros Hnil. rewrite Hnil in Hc. destruct Hc.
Qed.

End Overlapping.


Lemma not_started_only_while_created_witness :
  exists r,
    In r (experiments (Overlap.store (Race.after Race.inserting))) /\
    Experiment.status r = not_started /\
    (In (PostFetch (Experiment.id r)) (Overlap.calls (Race.after Race.inserting)) \/
     exists answer,
       In (Queue (Experiment.id r) answer) (Overlap.calls (Race.after Race.inserting))) /\
    Overlap.calls (Race.after Race.inserting) <> [].
Proof.
  assert (Hreach : Overlap.reachable Sample.Math_exp (Race.after Race.inserting))
    by (apply race_reachable; vm_compute; reflexivity).
  eassert (Hin : In _ (experiments (Overlap.store (Race.after Race.inserting))))
    by (vm_compute; left; reflexivity).
  eexists. split; [exact Hin|]. split; [reflexivity|].
  exact (not_started_only_while_created Sample.Math_exp _ _ Hreach Hin eq_refl).
Defined.
